(** * sps_fitsetup: set-up of the spectral line fitting tables

    A shallow embedding of [fitting_scripts/sps_fitsetup.py]: peak detection
    ([analyze_emission_lines]), significance filtering
    ([filter_and_prepare_linelist]), the initial parameter table
    ([initial_dataframe]) and the component expansion ([minmaxlim],
    [update_components]).

    Numbers.  Python floats are modelled by exact rationals [Q]; the two
    infinities that the code writes into bound vectors are added by the type
    [bound].  A statistic that numpy leaves undefined (the mean or the standard
    deviation of an empty window is [nan]) is [None].  Every comparison with an
    undefined value is false, as it is for [nan].

    Exceptions.  A Python exception is a value of [exn]; code that can raise
    returns a [result].  Code that also prints returns a [Py], the lines
    printed so far paired with the result.

    Libraries.  [scipy.signal.find_peaks], [scipy.signal.peak_widths],
    [scipy.optimize.curve_fit], [numpy.interp], [numpy.sqrt], [numpy.log] and
    [numpy.random.normal] are not part of the script; the detector, the filter
    and the set-up ([continuum_init], [init_setup]) take them as section
    variables. *)

From Stdlib Require Import QArith Qabs Qpower ZArith List String Bool Lia Lqa
  Sorted.
Import ListNotations.

Local Open Scope Q_scope.

(** ** Python values and control *)

Inductive exn : Type :=
| KeyError (key : string)
| IndexError
| UnboundLocalError (name : string).

Inductive result (A : Type) : Type :=
| Ok (a : A)
| Raise (e : exn).

Arguments Ok {A} a.
Arguments Raise {A} e.

Definition rbind {A B} (c : result A) (k : A -> result B) : result B :=
  match c with
  | Ok a => k a
  | Raise e => Raise e
  end.

(** Lines written to standard output, then the outcome. *)
Definition Py (A : Type) : Type := (list string * result A)%type.

Definition ret {A} (a : A) : Py A := ([], Ok a).

Definition bind {A B} (c : Py A) (k : A -> Py B) : Py B :=
  match c with
  | (out, Ok a) => let (out', r) := k a in (out ++ out', r)
  | (out, Raise e) => (out, Raise e)
  end.

Definition lift {A} (c : result A) : Py A := ([], c).

Definition print (line : string) : Py unit := ([line], Ok tt).

Declare Scope py_scope.
Delimit Scope py_scope with py.

Notation "x <- c ;; k" := (bind c (fun x => k))
  (at level 61, c at next level, right associativity) : py_scope.
Notation "c ;;; k" := (bind c (fun _ => k))
  (at level 61, right associativity) : py_scope.
Notation "x <~ c ;; k" := (rbind c (fun x => k))
  (at level 61, c at next level, right associativity) : py_scope.

(** [l[i]] for a non-negative index. *)
Definition getitem {A} (l : list A) (i : nat) : result A :=
  match nth_error l i with
  | Some a => Ok a
  | None => Raise IndexError
  end.

(** Reading a local variable that an earlier branch may have left unassigned. *)
Definition local {A} (name : string) (v : option A) : result A :=
  match v with
  | Some a => Ok a
  | None => Raise (UnboundLocalError name)
  end.

(** ** Numbers *)

Definition Qlt_bool (a b : Q) : bool := negb (Qle_bool b a).

(** An entry of a bound vector: a float that may be infinite. *)
Inductive bound : Type :=
| NegInf
| Fin (q : Q)
| PosInf.

Definition ble (a b : bound) : bool :=
  match a, b with
  | NegInf, _ => true
  | _, PosInf => true
  | Fin x, Fin y => Qle_bool x y
  | _, _ => false
  end.

(** ** The line catalog *)

Module Catalogue.

(** A catalog entry: [params['wavelength']] is a list whose first element is
    the rest wavelength or [None]; [params['components']] names the model. *)
Record CatalogEntry : Type := mkEntry {
  wavelength : list (option Q);
  components : string
}.

(** The catalog is a dict; iteration follows insertion order. *)
Definition Catalog : Type := list (string * CatalogEntry).

Fixpoint lookup {V} (key : string) (d : list (string * V)) : option V :=
  match d with
  | [] => None
  | (k, v) :: d' => if String.eqb k key then Some v else lookup key d'
  end.

Definition dict_get {V} (d : list (string * V)) (key : string) : result V :=
  match lookup key d with
  | Some v => Ok v
  | None => Raise (KeyError key)
  end.

End Catalogue.

(** ** numpy on lists *)

Module Numpy.

Local Open Scope list_scope.

(** [l[mask]] for a boolean mask as long as [l], which the masks of the
    script are when the wavelengths and the flux are equally many.  On a mask
    of another length numpy raises; this function stops at the end of the
    shorter of the two, and the statements that leave both lengths to the
    caller ask for equal ones. *)
Fixpoint select {A} (mask : list bool) (l : list A) : list A :=
  match mask, l with
  | b :: mask', a :: l' => if b then a :: select mask' l' else select mask' l'
  | _, _ => []
  end.

(** [(l >= lo) & (l <= hi)] *)
Definition between (lo hi : Q) (l : list Q) : list bool :=
  map (fun w => Qle_bool lo w && Qle_bool w hi) l.

Definition np_sum (l : list Q) : Q := fold_left Qplus l 0.

Definition size (l : list Q) : Q := inject_Z (Z.of_nat (List.length l)).

(** [np.mean]: undefined on an empty array. *)
Definition np_mean (l : list Q) : option Q :=
  match l with
  | [] => None
  | _ => Some (np_sum l / size l)
  end.

(** [np.arange(n)] *)
Definition np_arange (n : nat) : list Q :=
  map (fun i => inject_Z (Z.of_nat i)) (seq 0 n).

(** [np.where(l == v)[0]], positions counted from [i]. *)
Fixpoint np_where_eq (l : list Q) (v : Q) (i : nat) : list nat :=
  match l with
  | [] => []
  | a :: l' => (if Qeq_bool a v then [i] else []) ++ np_where_eq l' v (S i)
  end.

(** The mean of two statistics, undefined as soon as one of them is. *)
Definition mean2 (a b : option Q) : option Q :=
  match a, b with
  | Some u, Some v => Some ((u + v) / 2)
  | _, _ => None
  end.

Section Sqrt.

Variable np_sqrt : Q -> Q.

(** [np.std]: the root of the mean squared deviation; undefined on an empty
    array. *)
Definition np_std (l : list Q) : option Q :=
  match np_mean l with
  | None => None
  | Some m => Some (np_sqrt (np_sum (map (fun v => (v - m) * (v - m)) l) / size l))
  end.

End Sqrt.

End Numpy.

(** ** analyze_emission_lines *)

Module Detector.

Import Catalogue Numpy.
Local Open Scope list_scope.
Local Open Scope py_scope.

(** An entry of [matched_lines]. *)
Record MatchedLine : Type := mkMatched {
  line : string;
  restframe_wavelength : Q;
  observed_wavelength : Q;
  peak_flux : Q;
  peak_idx : nat
}.

(** An entry of [results]. *)
Record LineResult : Type := mkResult {
  res_line : string;
  res_restframe_wavelength : Q;
  res_observed_wavelength : Q;
  fwhm : Q;
  res_peak_flux : Q
}.

(** [diff < min_diff], where [min_diff] starts at infinity. *)
Definition lt_bound (diff : Q) (min_diff : bound) : bool :=
  match min_diff with
  | PosInf => true
  | Fin m => Qlt_bool diff m
  | NegInf => false
  end.

(** The loop over [peaks] with its two locals [closest_peak_idx], [min_diff]. *)
Fixpoint closest_loop (window_wavelengths : list Q) (rest_wavelength : Q)
    (peaks : list nat) (st : option nat * bound) : result (option nat * bound) :=
  match peaks with
  | [] => Ok st
  | peak :: more =>
      observed <~ getitem window_wavelengths peak ;;
      let diff := Qabs (observed - rest_wavelength) in
      if lt_bound diff (snd st)
      then closest_loop window_wavelengths rest_wavelength more (Some peak, Fin diff)
      else closest_loop window_wavelengths rest_wavelength more st
  end.

(** What the second loop derives from one matched line before it masks. *)
Record Window : Type := mkWindow {
  w_fwhm : Q;
  w_sigma : Q;
  line_start : Q;
  line_end : Q
}.

(** The state of the second loop.  [draws] counts the values taken from the
    global random generator. *)
Record MaskState : Type := mkMaskState {
  results : list LineResult;
  continuum_mask : list bool;
  synthetic_flux : list Q;
  draws : nat
}.

(** [l[mask] = values], the values consumed in order. *)
Fixpoint assign_masked (mask : list bool) (values : list Q) (l : list Q)
  : list Q :=
  match mask, l with
  | b :: mask', a :: l' =>
      if b then
        match values with
        | v :: vs => v :: assign_masked mask' vs l'
        | [] => a :: assign_masked mask' [] l'
        end
      else a :: assign_masked mask' values l'
  | _, _ => l
  end.

(** [a &= ~m] *)
Fixpoint and_not (a m : list bool) : list bool :=
  match a, m with
  | x :: a', y :: m' => (x && negb y) :: and_not a' m'
  | _, _ => []
  end.

Section WithLibraries.

(** [find_peaks flux prominence]: the indices of the local maxima of [flux]
    that pass the prominence threshold, in increasing order. *)
Variable find_peaks : list Q -> Q -> list nat.

(** [peak_widths flux peak rel_height] for one peak: widths, width heights,
    left and right interpolated positions. *)
Variable peak_widths : list Q -> nat -> Q -> Q * Q * Q * Q.

(** [np_interp x xp fp] *)
Variable np_interp : Q -> list Q -> list Q -> Q.

Variable np_sqrt : Q -> Q.

(** [np_random_normal k loc scale]: draw number [k] of the generator. *)
Variable np_random_normal : nat -> Q -> Q -> Q.

(** The body of the loop over [lines_dict.items()]. *)
Definition match_entry (x y : list Q) (window : Q)
    (item : string * CatalogEntry) (matched_lines : list MatchedLine)
  : result (list MatchedLine) :=
  let (name, params) := item in
  rest <~ getitem (wavelength params) 0 ;;
  match rest with
  | None => Ok matched_lines
  | Some rest_wavelength =>
      let lower_bound := rest_wavelength - window in
      let upper_bound := rest_wavelength + window in
      let mask := between lower_bound upper_bound x in
      let window_flux := select mask y in
      let window_wavelengths := select mask x in
      match window_wavelengths with
      | [] => Ok matched_lines
      | _ :: _ =>
          let peaks := find_peaks window_flux 0.5 in
          st <~ closest_loop window_wavelengths rest_wavelength peaks (None, PosInf) ;;
          match fst st with
          | None => Ok matched_lines
          | Some closest_peak_idx =>
              flux_at_peak <~ getitem window_flux closest_peak_idx ;;
              observed <~ getitem window_wavelengths closest_peak_idx ;;
              idx <~ getitem (np_where_eq x observed 0) 0 ;;
              Ok (matched_lines ++
                    [mkMatched name rest_wavelength observed flux_at_peak idx])
          end
      end
  end.

Fixpoint match_loop (x y : list Q) (window : Q) (items : Catalog)
    (matched_lines : list MatchedLine) : result (list MatchedLine) :=
  match items with
  | [] => Ok matched_lines
  | item :: more =>
      matched_lines' <~ match_entry x y window item matched_lines ;;
      match_loop x y window more matched_lines'
  end.

(** Lines 90 to 97: the width at half maximum in wavelength units, the sigma
    derived from it and the ends of the masked interval. *)
Definition measure (x flux : list Q) (l : MatchedLine) : Window :=
  let '(widths, _, left_ips, _) := peak_widths flux (peak_idx l) 0.5 in
  let xp := np_arange (List.length flux) in
  let fwhm := np_interp (left_ips + widths) xp x - np_interp left_ips xp x in
  let sigma := fwhm / 2.355 in
  mkWindow fwhm sigma
    (observed_wavelength l - fwhm / 2 - 3 * sigma)
    (observed_wavelength l + fwhm / 2 + 3 * sigma).

(** The body of the loop over [matched_lines]. *)
Definition mask_line (x flux : list Q) (l : MatchedLine) (st : MaskState)
  : MaskState :=
  let w := measure x flux l in
  let results' :=
    results st ++
      [mkResult (line l) (restframe_wavelength l) (observed_wavelength l)
                (w_fwhm w) (peak_flux l)] in
  let mask := between (line_start w) (line_end w) x in
  let continuum_mask' := and_not (continuum_mask st) mask in
  if existsb (fun b => b) mask then
    let valid_flux := select (map negb mask) flux in
    match np_std np_sqrt valid_flux with
    | Some std_flux =>
        let n := List.length (filter (fun b => b) mask) in
        let noise :=
          map (fun k => np_random_normal k 0.0 (0.1 * std_flux))
              (seq (draws st) n) in
        mkMaskState results' continuum_mask'
          (assign_masked mask noise (synthetic_flux st)) (draws st + n)
    | None =>
        mkMaskState results' continuum_mask'
          (assign_masked mask (map (fun _ => 0) mask) (synthetic_flux st))
          (draws st)
    end
  else mkMaskState results' continuum_mask' (synthetic_flux st) (draws st).

Fixpoint mask_loop (x flux : list Q) (matched_lines : list MatchedLine)
    (st : MaskState) : MaskState :=
  match matched_lines with
  | [] => st
  | l :: more => mask_loop x flux more (mask_line x flux l st)
  end.

(** Lines 34 to 38 on samples that may be nan, [None] here: the synthetic
    flux starts as a copy of the flux, and is set to zero when every sample
    is nan. *)
Definition synthetic_start (flux : list (option Q)) : list (option Q) :=
  if forallb (fun v => match v with None => true | Some _ => false end) flux
  then map (fun _ => Some 0) flux
  else flux.

(** The locals before the second loop: no result, a mask that is on
    everywhere, the synthetic flux a copy of the flux.  The samples are
    rationals, none of them nan; on such a flux the reset of lines 37 and 38
    leaves the copy as it is. *)
Definition initial_state (flux : list Q) : MaskState :=
  mkMaskState [] (map (fun _ => true) flux) flux 0.

(** The state in which the function leaves its locals, the continuum mask
    among them. *)
Definition analyze_state (x y : list Q) (lines_dict : Catalog) (window : Q)
  : result MaskState :=
  matched_lines <~ match_loop x y window lines_dict [] ;;
  Ok (mask_loop x y matched_lines (initial_state y)).

Definition analyze_emission_lines (x y : list Q) (lines_dict : Catalog)
    (window : Q) : result (list LineResult * option Q * list (Q * Q)) :=
  st <~ analyze_state x y lines_dict window ;;
  let continuum_spectrum := combine x (synthetic_flux st) in
  let std_cont := np_std np_sqrt (map snd continuum_spectrum) in
  Ok (results st, std_cont, continuum_spectrum).

End WithLibraries.

End Detector.

(** ** filter_and_prepare_linelist *)

Module Filter.

Import Numpy Detector.
Local Open Scope list_scope.

(** An entry of [filtered_linelist]. *)
Record FilteredLine : Type := mkLine {
  name : string;
  fl_wavelength : Q;
  sigma : Q;
  min_loc : Q;
  max_loc : Q;
  min_sd : Q;
  max_sd : Q;
  max_flux : Q;
  SNR : option Q
}.

(** [a >= b] where [a] may be undefined. *)
Definition ge_opt (a : option Q) (b : Q) : bool :=
  match a with
  | Some v => Qle_bool b v
  | None => false
  end.

(** [s > 0] where [s] may be undefined. *)
Definition positive (s : option Q) : bool :=
  match s with
  | Some v => Qlt_bool 0 v
  | None => false
  end.

(** [(a - m) / s] on possibly undefined statistics. *)
Definition ratio (a : Q) (m s : option Q) : option Q :=
  match m, s with
  | Some mv, Some sv => Some ((a - mv) / sv)
  | _, _ => None
  end.

Section WithLibraries.

Variable np_sqrt : Q -> Q.
Variable np_log : Q -> Q.

Definition sigma_of (line_fwhm : Q) : Q :=
  line_fwhm / (2.0 * np_sqrt (2.0 * np_log 2.0)).

(** The rows of [continuum_spec0] whose wavelength lies in [lo, hi]. *)
Definition rows_between (continuum_spec0 : list (Q * Q)) (lo hi : Q)
  : list (Q * Q) :=
  select (map (fun r => Qle_bool (fst r) hi && Qle_bool lo (fst r)) continuum_spec0)
         continuum_spec0.

Definition window_left (continuum_spec0 : list (Q * Q)) (lineloc_min window_width : Q) :=
  rows_between continuum_spec0 (lineloc_min - window_width) lineloc_min.

Definition window_right (continuum_spec0 : list (Q * Q)) (lineloc_max window_width : Q) :=
  rows_between continuum_spec0 lineloc_max (lineloc_max + window_width).

Definition local_std (continuum_spec0 : list (Q * Q)) (window_width : Q)
    (l : LineResult) : option Q :=
  let sigma_max := sigma_of (fwhm l) in
  let lineloc_min := res_observed_wavelength l - 2 * sigma_max in
  let lineloc_max := res_observed_wavelength l + 2 * sigma_max in
  mean2 (np_std np_sqrt (map snd (window_left continuum_spec0 lineloc_min window_width)))
        (np_std np_sqrt (map snd (window_right continuum_spec0 lineloc_max window_width))).

Definition local_mean (continuum_spec0 : list (Q * Q)) (window_width : Q)
    (l : LineResult) : option Q :=
  let sigma_max := sigma_of (fwhm l) in
  let lineloc_min := res_observed_wavelength l - 2 * sigma_max in
  let lineloc_max := res_observed_wavelength l + 2 * sigma_max in
  mean2 (np_mean (map snd (window_left continuum_spec0 lineloc_min window_width)))
        (np_mean (map snd (window_right continuum_spec0 lineloc_max window_width))).

(** [snr = (line_flux - local_mean) / local_std if local_std > 0 else snr_ext] *)
Definition snr_of (continuum_spec0 : list (Q * Q)) (snr_ext window_width : Q)
    (l : LineResult) : option Q :=
  let std := local_std continuum_spec0 window_width l in
  if positive std
  then ratio (res_peak_flux l) (local_mean continuum_spec0 window_width l) std
  else Some snr_ext.

Definition line_details (l : LineResult) (snr : option Q) : FilteredLine :=
  let sigma_max := sigma_of (fwhm l) in
  mkLine (res_line l) (res_observed_wavelength l) sigma_max
         (res_observed_wavelength l - 2 * sigma_max)
         (res_observed_wavelength l + 2 * sigma_max)
         2.0 (1.5 * sigma_max) (res_peak_flux l) snr.

(** The body of the loop over [line_results]. *)
Definition filter_line (continuum_spec0 : list (Q * Q)) (wavelength_range : Q * Q)
    (snr_ext window_width : Q) (l : LineResult)
    (filtered_linelist : list FilteredLine) : list FilteredLine :=
  let (min_wavelength, max_wavelength) := wavelength_range in
  let three_sigma := 3 * snr_ext in
  let line_wavelength := res_observed_wavelength l in
  let line_flux := res_peak_flux l in
  if Qle_bool min_wavelength line_wavelength
     && Qle_bool line_wavelength max_wavelength
  then
    let snr := snr_of continuum_spec0 snr_ext window_width l in
    if ge_opt snr snr_ext || Qlt_bool three_sigma line_flux
    then filtered_linelist ++ [line_details l snr]
    else filtered_linelist
  else filtered_linelist.

Fixpoint filter_loop (continuum_spec0 : list (Q * Q)) (wavelength_range : Q * Q)
    (snr_ext window_width : Q) (line_results : list LineResult)
    (filtered_linelist : list FilteredLine) : list FilteredLine :=
  match line_results with
  | [] => filtered_linelist
  | l :: more =>
      filter_loop continuum_spec0 wavelength_range snr_ext window_width more
        (filter_line continuum_spec0 wavelength_range snr_ext window_width l
                     filtered_linelist)
  end.

Definition filter_and_prepare_linelist (line_results : list LineResult)
    (continuum_spec0 : list (Q * Q)) (wavelength_range : Q * Q)
    (snr_ext window_width : Q) : list FilteredLine :=
  filter_loop continuum_spec0 wavelength_range snr_ext window_width line_results [].

End WithLibraries.

End Filter.

(** ** The parameter table *)

Module Table.

Import Catalogue Filter.

Local Open Scope string_scope.
Local Open Scope list_scope.
Local Open Scope py_scope.

(** One row of the data frame.  A cell of a column that the frame has but the
    row was never given holds pandas' missing value, [None] here. *)
Record Row : Type := mkRow {
  Line_Name : string;
  Model : string;
  Component : Z;
  Parameters : list Q;
  Max_Limits : option (list bound);
  Min_Limits : option (list bound);
  Parameter_Errors : option (list Q)
}.

Record DataFrame : Type := mkDataFrame {
  df_columns : list string;
  df_rows : list Row
}.

(** *** initial_dataframe *)

(** The locals [params_i], [max_i], [min_i] of the inner loop; unassigned until
    a branch of the model test runs. *)
Record Locals : Type := mkLocals {
  params_i : option (list Q);
  max_i : option (list bound);
  min_i : option (list bound)
}.

Definition no_locals : Locals := mkLocals None None None.

Definition component_vectors (line : FilteredLine) (Ncomp : nat)
    (component : string) (old : Locals) : Locals :=
  let n := inject_Z (Z.of_nat Ncomp) in
  if String.eqb component "Voigt" then
    mkLocals
      (Some [fl_wavelength line; max_flux line / n; sigma line; 1.11 * sigma line])
      (Some [Fin (max_loc line); Fin (max_flux line); Fin (max_sd line);
             Fin (1.11 * max_sd line)])
      (Some [Fin (min_loc line); Fin 0; Fin (min_sd line); Fin (1.11 * min_sd line)])
  else if String.eqb component "Gaussian" then
    mkLocals
      (Some [fl_wavelength line; max_flux line / n; sigma line])
      (Some [Fin (max_loc line); Fin (max_flux line); Fin (max_sd line)])
      (Some [Fin (min_loc line); Fin 0; Fin (min_sd line)])
  else if String.eqb component "Lorentzian" then
    mkLocals
      (Some [fl_wavelength line; max_flux line / n; 1.11 * sigma line])
      (Some [Fin (max_loc line); Fin (max_flux line); Fin (1.11 * max_sd line)])
      (Some [Fin (min_loc line); Fin 0; Fin (1.11 * min_sd line)])
  else old.

(** The body of [for j, component in enumerate(components)].  The six column
    lists grow in lockstep, so the model appends one row where the code appends
    one cell to each list. *)
Fixpoint component_loop (line : FilteredLine) (Ncomp : nat) (j : nat)
    (comps : list string) (st : Locals * list Row)
  : result (Locals * list Row) :=
  match comps with
  | [] => Ok st
  | component :: rest =>
      let loc := component_vectors line Ncomp component (fst st) in
      p <~ local "params_i" (params_i loc) ;;
      mn <~ local "min_i" (min_i loc) ;;
      mx <~ local "max_i" (max_i loc) ;;
      let row := mkRow (name line) component (Z.of_nat j + 1) p (Some mx) (Some mn) None in
      component_loop line Ncomp (S j) rest (loc, snd st ++ [row])
  end.

Fixpoint line_loop (emlines_dict : Catalog) (lines : list FilteredLine)
    (st : Locals * list Row) : result (Locals * list Row) :=
  match lines with
  | [] => Ok st
  | line :: rest =>
      entry <~ dict_get emlines_dict (name line) ;;
      let comps := [components entry] in
      let Ncomp := List.length comps in
      st' <~ component_loop line Ncomp 0 comps st ;;
      line_loop emlines_dict rest st'
  end.

Definition initial_columns : list string :=
  ["Line Name"; "Model"; "Component"; "Parameters"; "Max Limits"; "Min Limits"].

Definition continuum_row (continuum_pars : list Q) : Row :=
  mkRow "Continuum" "Continuum" 0 continuum_pars
        (Some [PosInf; PosInf; PosInf]) (Some [Fin 0; Fin 0; Fin 0]) None.

Definition initial_dataframe (emlines_dict : Catalog)
    (filtered_linelist : list FilteredLine) (continuum_pars : option (list Q))
  : result DataFrame :=
  st <~ line_loop emlines_dict filtered_linelist (no_locals, []) ;;
  let dfparams := mkDataFrame initial_columns (snd st) in
  match continuum_pars with
  | Some pars =>
      Ok (mkDataFrame initial_columns (df_rows dfparams ++ [continuum_row pars]))
  | None => Ok dfparams
  end.

(** *** minmaxlim *)

(** [df[df['Line Name'] == line].shape[0]] *)
Definition count_name (rows : list Row) (line : string) : nat :=
  List.length (filter (fun r => String.eqb (Line_Name r) line) rows).

Definition amplitude_factor (rows : list Row) (row : Row) : Q :=
  let ncomp := Component row in
  if (ncomp =? 1)%Z then
    if (1 <? count_name rows (Line_Name row))%nat then 2 else 1
  else if (ncomp =? 2)%Z then 2
  else 2 ^ (ncomp - 1).

(** The loop state of [minmaxlim]: the locals [min_i] and [max_i], which only a
    branch of the model test assigns, and the two result lists. *)
Record LimState : Type := mkLimState {
  cur_min : option (list bound);
  cur_max : option (list bound);
  min_limits : list (list bound);
  max_limits : list (list bound)
}.

Definition assign_limits (st : LimState) (mx mn : list bound) : LimState :=
  mkLimState (Some mn) (Some mx) (min_limits st) (max_limits st).

Definition limits_body (rows : list Row) (row : Row) (st : LimState)
  : Py LimState :=
  sigma <- lift (getitem (Parameters row) 2) ;;
  let minsig := 2.0 in
  let maxsig := 1.5 * sigma in
  line_wavelength <- lift (getitem (Parameters row) 0) ;;
  let min_line := line_wavelength - 2 * sigma in
  let max_line := line_wavelength + 2 * sigma in
  amplitude <- lift (getitem (Parameters row) 1) ;;
  let factor := amplitude_factor rows row in
  st1 <-
    (if String.eqb (Model row) "Gaussian" then
       ret (assign_limits st
              [Fin max_line; Fin (amplitude * factor); Fin maxsig]
              [Fin min_line; Fin 0; Fin minsig])
     else if String.eqb (Model row) "Lorentzian" then
       ret (assign_limits st
              [Fin max_line; Fin (amplitude * factor); Fin (1.11 * maxsig)]
              [Fin min_line; Fin 0; Fin (1.11 * minsig)])
     else if String.eqb (Model row) "Voigt" then
       ret (assign_limits st
              [Fin max_line; Fin (amplitude * factor); Fin maxsig; Fin (1.11 * maxsig)]
              [Fin min_line; Fin 0; Fin minsig; Fin (1.11 * minsig)])
     else if String.eqb (Model row) "Continuum" then
       ret (assign_limits st [PosInf; PosInf; PosInf] [NegInf; Fin 0; NegInf])
     else
       print "Model not defined." ;;; ret st) ;;
  mn <- lift (local "min_i" (cur_min st1)) ;;
  mx <- lift (local "max_i" (cur_max st1)) ;;
  ret (mkLimState (cur_min st1) (cur_max st1)
         (min_limits st1 ++ [mn]) (max_limits st1 ++ [mx])).

Fixpoint limits_loop (rows : list Row) (todo : list Row) (st : LimState)
  : Py LimState :=
  match todo with
  | [] => ret st
  | row :: rest =>
      st' <- limits_body rows row st ;;
      limits_loop rows rest st'
  end.

Definition minmaxlim (df : DataFrame)
  : Py (list (list bound) * list (list bound)) :=
  st <- limits_loop (df_rows df) (df_rows df) (mkLimState None None [] []) ;;
  ret (min_limits st, max_limits st).

(** *** update_components *)

(** [df.drop(['Parameter Errors'], axis=1)]: a [KeyError] when the frame has no
    such column. *)
Definition drop_parameter_errors (df : DataFrame) : result DataFrame :=
  if existsb (String.eqb "Parameter Errors") (df_columns df) then
    Ok (mkDataFrame
          (filter (fun c => negb (String.eqb "Parameter Errors" c)) (df_columns df))
          (map (fun r => mkRow (Line_Name r) (Model r) (Component r) (Parameters r)
                               (Max_Limits r) (Min_Limits r) None)
               (df_rows df)))
  else Raise (KeyError "['Parameter Errors'] not found in axis").

(** The positions of the rows of [line], counted from [i]. *)
Fixpoint matching_positions (line : string) (rows : list Row) (i : nat)
  : list nat :=
  match rows with
  | [] => []
  | r :: rest =>
      (if String.eqb (Line_Name r) line then [i] else [])
        ++ matching_positions line rest (S i)
  end.

(** [positions[-1]] *)
Definition last_position (positions : list nat) : result nat :=
  match rev positions with
  | i :: _ => Ok i
  | [] => Raise IndexError
  end.

(** The body of the loop over [additional_components_dict.items()]. *)
Definition add_component (updated_df : DataFrame) (line : string)
    (comps : list string) : Py DataFrame :=
  let rows := df_rows updated_df in
  if existsb (fun r => String.eqb (Line_Name r) line) rows then
    c0 <- lift (getitem comps 0) ;;
    print ("Adding a " ++ c0 ++ " component for " ++ line)%string ;;;
    last_index <- lift (last_position (matching_positions line rows 0)) ;;
    last_row <- lift (getitem rows last_index) ;;
    let new_component_number := (Component last_row + 1)%Z in
    let new_parameters := Parameters last_row in
    p0 <- lift (getitem new_parameters 0) ;;
    p1 <- lift (getitem new_parameters 1) ;;
    p2 <- lift (getitem new_parameters 2) ;;
    let new_parameters := [p0; p1 / 2; p2] in
    let new_row :=
      mkRow line c0 new_component_number new_parameters None None None in
    ret (mkDataFrame (df_columns updated_df)
           (firstn (S last_index) rows ++ [new_row] ++ skipn (S last_index) rows))
  else
    print (line ++ " not found in the Spectrum.")%string ;;; ret updated_df.

Fixpoint additions_loop (updated_df : DataFrame)
    (additions : list (string * list string)) : Py DataFrame :=
  match additions with
  | [] => ret updated_df
  | (line, comps) :: rest =>
      df' <- add_component updated_df line comps ;;
      additions_loop df' rest
  end.

(** [df[column] = pd.Series(values)]: row [i] receives [values[i]], a row past
    the end of [values] the missing value. *)
Fixpoint assign_series {A} (set : Row -> option A -> Row) (rows : list Row)
    (values : list A) : list Row :=
  match rows with
  | [] => []
  | r :: rest =>
      match values with
      | [] => set r None :: assign_series set rest []
      | v :: vs => set r (Some v) :: assign_series set rest vs
      end
  end.

Definition set_max (r : Row) (v : option (list bound)) : Row :=
  mkRow (Line_Name r) (Model r) (Component r) (Parameters r)
        v (Min_Limits r) (Parameter_Errors r).

Definition set_min (r : Row) (v : option (list bound)) : Row :=
  mkRow (Line_Name r) (Model r) (Component r) (Parameters r)
        (Max_Limits r) v (Parameter_Errors r).

Definition with_column (column : string) (columns : list string) : list string :=
  if existsb (String.eqb column) columns then columns else columns ++ [column].

Definition update_components (dfparams : DataFrame)
    (additional_components_dict : list (string * list string)) : Py DataFrame :=
  updated_df <- lift (drop_parameter_errors dfparams) ;;
  updated_df <- additions_loop updated_df additional_components_dict ;;
  limits <- minmaxlim updated_df ;;
  let (min_limits, max_limits) := limits in
  let rows := assign_series set_max (df_rows updated_df) max_limits in
  let rows := assign_series set_min rows min_limits in
  ret (mkDataFrame
         (with_column "Min Limits" (with_column "Max Limits" (df_columns updated_df)))
         rows).

End Table.


(** ** continuum_init and init_setup *)

Module Setup.

Import Catalogue Numpy Detector Filter Table.
Local Open Scope list_scope.

(** The outcome of the set-up: a value, an exception of the script's own code
    paths, the [ValueError] of a numpy reduction over an empty array, or the
    [RuntimeError] of a fit that does not converge. *)
Inductive outcome (A : Type) : Type :=
| Returns (a : A)
| Raises (e : exn)
| RaisesValueError
| RaisesRuntimeError.

Arguments Returns {A} a.
Arguments Raises {A} e.
Arguments RaisesValueError {A}.
Arguments RaisesRuntimeError {A}.

Fixpoint np_min_from (m : Q) (l : list Q) : Q :=
  match l with
  | [] => m
  | a :: l' => np_min_from (if Qlt_bool a m then a else m) l'
  end.

(** [np.min]: no value on an empty array, where numpy raises. *)
Definition np_min (l : list Q) : option Q :=
  match l with
  | [] => None
  | a :: l' => Some (np_min_from a l')
  end.

(** The three columns of a spectrum row. *)
Definition col0 (r : Q * Q * Q) : Q := fst (fst r).
Definition col1 (r : Q * Q * Q) : Q := snd (fst r).
Definition col2 (r : Q * Q * Q) : Q := snd r.

Section WithLibraries.

Variable find_peaks : list Q -> Q -> list nat.
Variable peak_widths : list Q -> nat -> Q -> Q * Q * Q * Q.
Variable np_interp : Q -> list Q -> list Q -> Q.
Variable np_sqrt : Q -> Q.
Variable np_log : Q -> Q.
Variable np_random_normal : nat -> Q -> Q -> Q.

(** [curve_fit xdata ydata p0] for the continuum function of the models
    module: the fitted parameters, or nothing when the fit fails. *)
Variable curve_fit : list Q -> list Q -> list Q -> option (list Q).

Definition continuum_init (continuum_spec : list (Q * Q)) (g_init : Q)
  : outcome (list Q) :=
  let x_continuum := map fst continuum_spec in
  let y_continuum := map snd continuum_spec in
  let a_init := np_mean y_continuum in
  match np_min x_continuum, a_init with
  | None, _ => RaisesValueError
  | Some _, None => RaisesValueError
  | Some loc0_init, Some a =>
      let p0 := [a; loc0_init; g_init] in
      match curve_fit x_continuum y_continuum p0 with
      | Some params => Returns params
      | None => RaisesRuntimeError
      end
  end.

(** The filter under the noise estimate of the detector.  An undefined
    estimate makes both comparisons of the significance test false, so no line
    is kept. *)
Definition filter_with (snr_cont : option Q) (lines_init : list LineResult)
    (continuum0 : list (Q * Q)) (wavelength_range : Q * Q) : list FilteredLine :=
  match snr_cont with
  | Some snr =>
      filter_and_prepare_linelist np_sqrt np_log lines_init continuum0
                                  wavelength_range snr 10
  | None => []
  end.

Definition init_setup (spectrum : list (Q * Q * Q)) (emlines_dict : Catalog)
    (wavelength_range : Q * Q) (gamma_init : Q) : outcome DataFrame :=
  let spectrum :=
    select (between (fst wavelength_range) (snd wavelength_range)
                    (map col0 spectrum)) spectrum in
  let x := map col0 spectrum in
  let y := map col1 spectrum in
  match analyze_emission_lines find_peaks peak_widths np_interp np_sqrt
          np_random_normal x y emlines_dict 20 with
  | Raise e => Raises e
  | Ok (lines_init, snr_cont, continuum0) =>
      match continuum_init continuum0 gamma_init with
      | Returns continuum_pars =>
          let linelist0 :=
            filter_with snr_cont lines_init continuum0 wavelength_range in
          match initial_dataframe emlines_dict linelist0 (Some continuum_pars) with
          | Ok dfparams => Returns dfparams
          | Raise e => Raises e
          end
      | Raises e => Raises e
      | RaisesValueError => RaisesValueError
      | RaisesRuntimeError => RaisesRuntimeError
      end
  end.

End WithLibraries.

End Setup.

(** ** Reference library functions

    The scipy and numpy functions that the detector and the filter take as
    parameters, on exact rationals, to run the script on concrete spectra and
    to say what a local maximum and its prominence are.  They follow the
    documented algorithms: a local maximum is a sample, or the middle of a run
    of equal samples, with a lower sample on either side; the prominence is
    found by the outward scan for the two bases; the widths by linear
    interpolation of the crossing points. *)

Module Reference.

Local Open Scope list_scope.

(** The square root to twelve decimals, exact on squares of such numbers. *)
Definition sqrt (q : Q) : Q :=
  if Qle_bool q 0 then 0
  else Qred (Z.sqrt (Qnum q * Zpos (Qden q) * 10 ^ 24) # (Qden q * 10 ^ 12)).

(** The script takes the logarithm of 2.0 only. *)
Definition log (q : Q) : Q := 0.6931471805599453.

(** A generator whose every draw is the mean. *)
Definition random_normal (k : nat) (loc scale : Q) : Q := loc.

Fixpoint interp_from (x : Q) (xp fp : list Q) : Q :=
  match xp, fp with
  | x0 :: ((x1 :: _) as xp'), f0 :: ((f1 :: _) as fp') =>
      if Qle_bool x x1
      then (f1 - f0) / (x1 - x0) * (x - x0) + f0
      else interp_from x xp' fp'
  | _, f0 :: _ => f0
  | _, [] => 0
  end.

Definition interp (x : Q) (xp fp : list Q) : Q :=
  match xp, fp with
  | x0 :: _, f0 :: _ => if Qle_bool x x0 then f0 else interp_from x xp fp
  | _, _ => 0
  end.

(** The lowest value met walking away from the peak until a sample exceeds it. *)
Fixpoint side_min (peak_value : Q) (side : list Q) (m : Q) : Q :=
  match side with
  | [] => m
  | v :: more =>
      if Qlt_bool peak_value v then m
      else side_min peak_value more (if Qlt_bool v m then v else m)
  end.

Definition prominence (flux : list Q) (p : nat) : Q :=
  let v := nth p flux 0 in
  let lm := side_min v (rev (firstn p flux)) v in
  let rm := side_min v (skipn (S p) flux) v in
  v - (if Qle_bool lm rm then rm else lm).

(** The run of samples equal to [v] at the head of [rest]: its length and the
    sample that follows it. *)
Fixpoint plateau (v : Q) (rest : list Q) : nat * option Q :=
  match rest with
  | [] => (O, None)
  | w :: more =>
      if Qeq_bool w v then let (k, next) := plateau v more in (S k, next)
      else (O, Some w)
  end.

(** The local maxima of [l], whose first sample has the index [i] and follows
    the sample [prev]: where the flux rises into a run of equal samples and
    falls after it, the middle of the run, rounded down. *)
Fixpoint maxima_from (prev : Q) (l : list Q) (i : nat) : list nat :=
  match l with
  | [] => []
  | v :: rest =>
      (if Qlt_bool prev v then
         match plateau v rest with
         | (k, Some next) => if Qlt_bool next v then [(i + k / 2)%nat] else []
         | (_, None) => []
         end
       else []) ++ maxima_from v rest (S i)
  end.

(** The first and the last sample are never maxima. *)
Definition local_maxima (flux : list Q) : list nat :=
  match flux with
  | [] => []
  | v :: rest => maxima_from v rest 1
  end.

(** [find_peaks(flux, prominence=min_prominence)]: the local maxima whose
    prominence is at least [min_prominence], in increasing order. *)
Definition find_peaks (flux : list Q) (min_prominence : Q) : list nat :=
  filter (fun p => Qle_bool min_prominence (prominence flux p)) (local_maxima flux).

(** The distance, in samples, from the peak to the point where the flux walks
    through [height]. *)
Fixpoint crossing (height : Q) (side : list Q) (prev : Q) (steps : nat) : Q :=
  match side with
  | [] => inject_Z (Z.of_nat steps)
  | v :: more =>
      if Qlt_bool height v then crossing height more v (S steps)
      else if Qlt_bool v height
      then inject_Z (Z.of_nat (S steps)) - (height - v) / (prev - v)
      else inject_Z (Z.of_nat (S steps))
  end.

Definition peak_widths (flux : list Q) (p : nat) (rel_height : Q)
  : Q * Q * Q * Q :=
  let v := nth p flux 0 in
  let height := v - prominence flux p * rel_height in
  let left_ip := inject_Z (Z.of_nat p) - crossing height (rev (firstn p flux)) v 0 in
  let right_ip := inject_Z (Z.of_nat p) + crossing height (skipn (S p) flux) v 0 in
  (right_ip - left_ip, height, left_ip, right_ip).

End Reference.


(** ** Concrete inputs *)

Module Examples.

Import Catalogue Numpy Detector Filter Table.
Local Open Scope string_scope.
Local Open Scope list_scope.

Definition oiii_catalog : Catalog :=
  [("OIII", mkEntry [Some 5007] "Gaussian");
   ("Hbeta", mkEntry [Some 4861] "Voigt");
   ("Dark", mkEntry [None] "Lorentzian")].

(** A line one sigma wide, as the filter emits it for a peak whose width at
    half maximum is 2.3548: [min_sd] is the fixed 2.0, [max_sd] is 1.5 sigma. *)
Definition narrow_line : FilteredLine :=
  mkLine "OIII" 5007 1 5005 5009 2.0 1.5 50 (Some 10).

Definition wide_line : FilteredLine :=
  mkLine "Hbeta" 4861 3 4855 4867 2.0 4.5 20 (Some 12).

(** A fitted table: one Gaussian line, one Voigt line, the continuum. *)
Definition fitted_table : DataFrame :=
  mkDataFrame (initial_columns ++ ["Parameter Errors"])
    [mkRow "Halpha" "Gaussian" 1 [6563; 50; 3]
           (Some [Fin 6569; Fin 50; Fin 4.5]) (Some [Fin 6557; Fin 0; Fin 2.0])
           (Some [0.1; 0.5; 0.1]);
     mkRow "Hbeta" "Voigt" 1 [4861; 20; 3; 3.33]
           (Some [Fin 4867; Fin 20; Fin 4.5; Fin 4.995])
           (Some [Fin 4855; Fin 0; Fin 2.0; Fin 2.22])
           (Some [0.1; 0.5; 0.1; 0.1]);
     mkRow "Continuum" "Continuum" 0 [1; 4000; 1]
           (Some [PosInf; PosInf; PosInf]) (Some [Fin 0; Fin 0; Fin 0])
           (Some [0.1; 0.1; 0.1])].

(** A fitted table whose first row names a model that [spl_plot] knows and
    [minmaxlim] does not. *)
Definition asymmetric_table : DataFrame :=
  mkDataFrame (initial_columns ++ ["Parameter Errors"])
    [mkRow "Halpha" "Asymmetric Gaussian" 1 [6563; 50; 3; 1] None None
           (Some [0.1; 0.5; 0.1; 0.1]);
     mkRow "Hbeta" "Gaussian" 1 [4861; 20; 3] None None (Some [0.1; 0.5; 0.1])].

(** Eleven samples one Angstrom apart with one peak, at 5008. *)
Definition spectrum_x : list Q :=
  [5000; 5001; 5002; 5003; 5004; 5005; 5006; 5007; 5008; 5009; 5010].

Definition spectrum_y : list Q := [0; 0; 0; 0; 0; 0; 1; 4; 8; 4; 1].

Definition oiii_entry : CatalogEntry := mkEntry [Some 5007] "Gaussian".

(** The eleven samples with a second, higher peak, at 5002: from the rest
    wavelength 5007 the peak at 5008 is the nearer one, from 5005 both are
    three Angstrom away. *)
Definition two_peaks_y : list Q := [0; 3; 9; 3; 0; 0; 1; 4; 8; 4; 1].

(** Three samples whose middle one rises by the prominence threshold and no
    more. *)
Definition threshold_x : list Q := [5006; 5007; 5008].

Definition threshold_y : list Q := [0; 0.5; 0].

Definition oiii_matched : MatchedLine := mkMatched "OIII" 5007 5008 8 8.

(** The eleven samples and a twelfth at 5011.1044, past the red end of the
    interval that the detector masks for the peak at 5008. *)
Definition sliver_x : list Q := spectrum_x ++ [5011.1044].

Definition sliver_y : list Q := spectrum_y ++ [1].

(** A resolved line near the red end of the spectrum, and a continuum that is
    flat at zero over the eleven samples. *)
Definition edge_line : LineResult := mkResult "OIII" 5007 5008 4 1.

Definition flat_continuum : list (Q * Q) :=
  combine spectrum_x [0; 0; 0; 0; 0; 0; 0; 0; 0; 0; 0].

(** A resolved line in the middle of the spectrum: both side windows hold
    samples, all of them zero. *)
Definition middle_line : LineResult := mkResult "OIII" 5007 5005 2 1.

End Examples.

(** * Predicates of the statements *)

Import Catalogue Numpy Detector Filter Table.
Local Open Scope string_scope.
Local Open Scope list_scope.

Definition line_model (m : string) : bool :=
  String.eqb m "Voigt" || String.eqb m "Gaussian" || String.eqb m "Lorentzian".

(** Every filtered line is a catalog line with one of the three line models. *)
Definition catalog_covers (d : Catalog) (lines : list FilteredLine) : bool :=
  forallb (fun l => match lookup (name l) d with
                    | Some e => line_model (components e)
                    | None => false
                    end) lines.

(** [len(components)] for the line [l]. *)
Definition ncomponents (d : Catalog) (l : FilteredLine) : nat :=
  match lookup (name l) d with
  | Some e => List.length [components e]
  | None => 0
  end.

Definition continuum_rows (continuum_pars : option (list Q)) : list Row :=
  match continuum_pars with
  | Some pars =>
      [mkRow "Continuum" "Continuum" 0 pars
             (Some [PosInf; PosInf; PosInf]) (Some [Fin 0; Fin 0; Fin 0]) None]
  | None => []
  end.


Definition known_model (m : string) : bool :=
  String.eqb m "Gaussian" || String.eqb m "Lorentzian" || String.eqb m "Voigt"
  || String.eqb m "Continuum".

(** [lo <= p <= hi] *)
Definition within (lo : bound) (p : Q) (hi : bound) : bool :=
  ble lo (Fin p) && ble (Fin p) hi.

(** The bounds invariant of one row: the three vectors have one length and
    every parameter lies within its two bounds. *)
Fixpoint bounds_hold (mn : list bound) (ps : list Q) (mx : list bound) : bool :=
  match mn, ps, mx with
  | [], [], [] => true
  | lo :: mn', p :: ps', hi :: mx' => within lo p hi && bounds_hold mn' ps' mx'
  | _, _, _ => false
  end.

Definition row_invariant (r : Row) : bool :=
  match Min_Limits r, Max_Limits r with
  | Some mn, Some mx => bounds_hold mn (Parameters r) mx
  | _, _ => false
  end.

Definition has_column (column : string) (df : DataFrame) : bool :=
  existsb (String.eqb column) (df_columns df).

Definition no_errors_column : Py DataFrame :=
  ([], Raise (KeyError "['Parameter Errors'] not found in axis")).

(** The table that [update_components] expects: every row has one of the four
    models and at least three parameters, and a line with a single row has it
    as component 1 (the continuum row, of component 0, apart). *)
Definition row_ok (rows : list Row) (r : Row) : bool :=
  known_model (Model r)
  && (3 <=? List.length (Parameters r))%nat
  && (String.eqb (Model r) "Continuum"
      || negb (count_name rows (Line_Name r) =? 1)%nat || (Component r =? 1)%Z).

Definition well_formed_rows (rows : list Row) : bool := forallb (row_ok rows) rows.

(** Every addition names a model, one of the four. *)
Definition well_formed_additions (additions : list (string * list string)) : bool :=
  forallb (fun a => match snd a with
                    | m :: _ => known_model m
                    | [] => false
                    end) additions.

(** The unified bound rule of the expander, by model. *)
Definition unified_min (model : string) (centroid sigma : Q) : list bound :=
  let min_sd := 2.0 in
  let min_loc := centroid - 2 * sigma in
  if String.eqb model "Gaussian" then [Fin min_loc; Fin 0; Fin min_sd]
  else if String.eqb model "Lorentzian" then [Fin min_loc; Fin 0; Fin (1.11 * min_sd)]
  else if String.eqb model "Voigt"
  then [Fin min_loc; Fin 0; Fin min_sd; Fin (1.11 * min_sd)]
  else if String.eqb model "Continuum" then [NegInf; Fin 0; NegInf]
  else [].

Definition unified_max (model : string) (centroid amplitude sigma factor : Q)
  : list bound :=
  let max_sd := 1.5 * sigma in
  let max_loc := centroid + 2 * sigma in
  let ceiling := amplitude * factor in
  if String.eqb model "Gaussian" then [Fin max_loc; Fin ceiling; Fin max_sd]
  else if String.eqb model "Lorentzian"
  then [Fin max_loc; Fin ceiling; Fin (1.11 * max_sd)]
  else if String.eqb model "Voigt"
  then [Fin max_loc; Fin ceiling; Fin max_sd; Fin (1.11 * max_sd)]
  else if String.eqb model "Continuum" then [PosInf; PosInf; PosInf]
  else [].

(** A row carries the bounds of the unified rule, computed from its own
    parameters and from the amplitude factor [factor]. *)
Definition unified_bounds (r : Row) (factor : Q) : Prop :=
  exists centroid amplitude sigma more,
    Parameters r = centroid :: amplitude :: sigma :: more /\
    Min_Limits r = Some (unified_min (Model r) centroid sigma) /\
    Max_Limits r = Some (unified_max (Model r) centroid amplitude sigma factor).

(** The amplitude factor of a row with component index [k] whose line has [n]
    rows. *)
Definition factor_rule (n : nat) (k : Z) (factor : Q) : Prop :=
  (n = 1%nat -> factor = 1) /\
  ((1 < n)%nat -> k = 1%Z \/ k = 2%Z -> factor = 2) /\
  ((3 <= k)%Z -> factor = 2 ^ (k - 1)).

(** What the rows of a table must satisfy for [minmaxlim] to assign bounds to
    each of them by the rule. *)
Definition table_ok (rows : list Row) : Prop :=
  forall r, In r rows ->
    known_model (Model r) = true /\
    (3 <= List.length (Parameters r))%nat /\
    (String.eqb (Model r) "Continuum" = false ->
     count_name rows (Line_Name r) = 1%nat -> Component r = 1%Z).

(** The bound vectors that the rule gives the row [r] of the table [rows]. *)
Definition row_min (r : Row) : list bound :=
  match Parameters r with
  | centroid :: _ :: sigma :: _ => unified_min (Model r) centroid sigma
  | _ => []
  end.

Definition row_max (rows : list Row) (r : Row) : list bound :=
  match Parameters r with
  | centroid :: amplitude :: sigma :: _ =>
      unified_max (Model r) centroid amplitude sigma (amplitude_factor rows r)
  | _ => []
  end.

(** Two rows that differ in their bound cells at most. *)
Definition same_line (r r0 : Row) : Prop :=
  Line_Name r = Line_Name r0 /\ Model r = Model r0 /\
  Component r = Component r0 /\ Parameters r = Parameters r0.

(** The table with both bound columns assigned from the rule. *)
Definition with_limits (rows : list Row) (r : Row) : Row :=
  set_min (set_max r (Some (row_max rows r))) (Some (row_min r)).

(** The significance test of the filter, as the code evaluates it. *)
Definition in_range (wavelength_range : Q * Q) (l : LineResult) : bool :=
  Qle_bool (fst wavelength_range) (res_observed_wavelength l)
  && Qle_bool (res_observed_wavelength l) (snd wavelength_range).

Definition passes (np_sqrt np_log : Q -> Q) (continuum_spec0 : list (Q * Q))
    (snr_ext window_width : Q) (l : LineResult) : bool :=
  ge_opt (snr_of np_sqrt np_log continuum_spec0 snr_ext window_width l) snr_ext
  || Qlt_bool (3 * snr_ext) (res_peak_flux l).

(** The significance test in the words of the specification: the SNR is the
    ratio (peak_flux - local_mean) / local_std, a local_std equal to zero gives
    the threshold itself, and the ratio of undefined statistics is undefined. *)
Definition stated_snr (np_sqrt np_log : Q -> Q) (continuum_spec0 : list (Q * Q))
    (noise_threshold window_width : Q) (l : LineResult) : option Q :=
  match local_std np_sqrt np_log continuum_spec0 window_width l with
  | Some s =>
      if Qeq_bool s 0 then Some noise_threshold
      else ratio (res_peak_flux l)
                 (local_mean np_sqrt np_log continuum_spec0 window_width l) (Some s)
  | None => None
  end.

Definition stated_passes (np_sqrt np_log : Q -> Q) (continuum_spec0 : list (Q * Q))
    (noise_threshold window_width : Q) (l : LineResult) : bool :=
  ge_opt (stated_snr np_sqrt np_log continuum_spec0 noise_threshold window_width l)
         noise_threshold
  || Qlt_bool (3 * noise_threshold) (res_peak_flux l).

(** The interval that a result stands for: its observed wavelength, half its
    width at half maximum and three sigma on either side, with the detector's
    sigma. *)
Definition in_line_window (r : LineResult) (w : Q) : Prop :=
  res_observed_wavelength r - fwhm r / 2 - 3 * (fwhm r / 2.355) <= w /\
  w <= res_observed_wavelength r + fwhm r / 2 + 3 * (fwhm r / 2.355).

(** The interval of a result in the words of the specification, whose sigma
    is the width at half maximum over 2.3548. *)
Definition stated_line_window (r : LineResult) (w : Q) : Prop :=
  res_observed_wavelength r - fwhm r / 2 - 3 * (fwhm r / 2.3548) <= w /\
  w <= res_observed_wavelength r + fwhm r / 2 + 3 * (fwhm r / 2.3548).

(** The invariant of the second loop: the mask is as long as the spectrum and
    is off on every sample within the window of a line recorded so far. *)
Definition masked (x : list Q) (st : MaskState) : Prop :=
  List.length (continuum_mask st) = List.length x /\
  forall r i w, In r (results st) -> nth_error x i = Some w ->
                in_line_window r w -> nth_error (continuum_mask st) i = Some false.

(** The distance of a wavelength to the rest wavelength. *)
Definition distance (rest_wavelength w : Q) : Q := Qabs (w - rest_wavelength).

(** The invariant of the loop over the peaks: [closest_peak_idx] is one of the
    peaks seen, none is nearer to the rest wavelength, and [min_diff] is its
    distance. *)
Definition best (window_wavelengths : list Q) (rest_wavelength : Q)
    (seen : list nat) (st : option nat * bound) : Prop :=
  match fst st with
  | None => snd st = PosInf /\ seen = []
  | Some p =>
      exists ow, In p seen /\ nth_error window_wavelengths p = Some ow /\
                 snd st = Fin (distance rest_wavelength ow) /\
                 forall q oq, In q seen -> nth_error window_wavelengths q = Some oq ->
                              distance rest_wavelength ow <= distance rest_wavelength oq
  end.

(** The bound vectors that [minmaxlim] appends row by row: a row with a known
    model receives the vectors of the rule, any other row the vectors that
    the locals [min_i] and [max_i] still hold, [cur] at the start. *)
Fixpoint carried (rows : list Row) (todo : list Row)
    (cur : list bound * list bound) : list (list bound * list bound) :=
  match todo with
  | [] => []
  | r :: rest =>
      let cur' := if known_model (Model r)
                  then (row_min r, row_max rows r) else cur in
      cur' :: carried rows rest cur'
  end.

(** What [minmaxlim] prints: one line per row with an unknown model. *)
Definition model_messages (rows : list Row) : list string :=
  flat_map (fun r => if known_model (Model r) then [] else ["Model not defined."])
           rows.

Definition long_enough (r : Row) : bool := (3 <=? List.length (Parameters r))%nat.

(** The line of a table row is in the table [rows]. *)
Definition present (rows : list Row) (line : string) : bool :=
  existsb (fun r => String.eqb (Line_Name r) line) rows.

(** What [update_components] prints for one addition. *)
Definition report (rows : list Row) (a : string * list string) : string :=
  if present rows (fst a)
  then ("Adding a " ++ hd "" (snd a) ++ " component for " ++ fst a)%string
  else (fst a ++ " not found in the Spectrum.")%string.

(** The rows of one line, in table order. *)
Definition line_rows (rows : list Row) (line : string) : list Row :=
  filter (fun r => String.eqb (Line_Name r) line) rows.

(** What a row is apart from its bound and error cells. *)
Definition core (r : Row) : string * string * Z * list Q :=
  (Line_Name r, Model r, Component r, Parameters r).

Fixpoint Z_list_eqb (a b : list Z) : bool :=
  match a, b with
  | [], [] => true
  | x :: a', y :: b' => (x =? y)%Z && Z_list_eqb a' b'
  | _, _ => false
  end.

(** The components of every line but the continuum are numbered 1, 2, ... in
    table order. *)
Definition numbered (rows : list Row) : bool :=
  forallb (fun r =>
             String.eqb (Line_Name r) "Continuum"
             || Z_list_eqb (map Component (line_rows rows (Line_Name r)))
                           (map Z.of_nat (seq 1 (count_name rows (Line_Name r)))))
          rows.

(** The components of the line [n] are 1, 2, ... in table order. *)
Definition numbered_line (rows : list Row) (n : string) : Prop :=
  map Component (line_rows rows n) = map Z.of_nat (seq 1 (count_name rows n)).

(** The additions that name the line [n], a line of the table [rows]. *)
Definition additions_for (rows : list Row) (n : string)
    (additions : list (string * list string)) : list (string * list string) :=
  filter (fun a => String.eqb (fst a) n && present rows n) additions.

(** [numbered] in words. *)
Definition numbered_prop (rows : list Row) : Prop :=
  forall n, String.eqb n "Continuum" = false -> present rows n = true ->
            numbered_line rows n.

(** The row that [initial_dataframe] builds for a filtered line whose catalog
    entry has one of the three line models. *)
Definition built_row (d : Catalog) (l : FilteredLine) : Row :=
  match lookup (name l) d with
  | Some e =>
      let loc := component_vectors l 1 (components e) no_locals in
      mkRow (name l) (components e) 1
            (match params_i loc with Some p => p | None => [] end)
            (max_i loc) (min_i loc) None
  | None => mkRow (name l) "" 1 [] None None None
  end.

(** The number of entries of a row's vectors by model. *)
Definition arity (model : string) : nat :=
  if String.eqb model "Voigt" then 4 else 3.

(** A filtered line carries the bound hints of the filter. *)
Definition hinted (f : FilteredLine) : Prop :=
  min_loc f = fl_wavelength f - 2 * sigma f /\
  max_loc f = fl_wavelength f + 2 * sigma f /\
  min_sd f = 2.0 /\
  max_sd f = 1.5 * sigma f.

(** The contract of [find_peaks]: its answers index the array it was given. *)
Definition indexes_its_input (find_peaks : list Q -> Q -> list nat) : Prop :=
  forall flux prominence p,
    In p (find_peaks flux prominence) -> (p < List.length flux)%nat.

(** Every catalog entry gives a wavelength list that is not empty. *)
Definition has_wavelengths (items : Catalog) : bool :=
  forallb (fun item => match wavelength (snd item) with
                       | [] => false
                       | _ :: _ => true
                       end) items.

(** The matched line [m] was read off the spectrum for the catalog item
    [item]: it carries the item's name and rest wavelength, its observed
    wavelength and peak flux are one sample of the spectrum, within [window]
    of the rest wavelength, and [peak_idx] points at that wavelength. *)
Definition detected (x y : list Q) (window : Q) (item : string * CatalogEntry)
    (m : MatchedLine) : Prop :=
  line m = fst item /\
  (exists others, wavelength (snd item) = Some (restframe_wavelength m) :: others) /\
  restframe_wavelength m - window <= observed_wavelength m /\
  observed_wavelength m <= restframe_wavelength m + window /\
  In (observed_wavelength m, peak_flux m) (combine x y) /\
  exists u, nth_error x (peak_idx m) = Some u /\ u == observed_wavelength m.

(** [in_line_window] as a test. *)
Definition in_window_b (r : LineResult) (w : Q) : bool :=
  Qle_bool (res_observed_wavelength r - fwhm r / 2 - 3 * (fwhm r / 2.355)) w
  && Qle_bool w (res_observed_wavelength r + fwhm r / 2 + 3 * (fwhm r / 2.355)).

(** The result that the second loop records for a matched line. *)
Definition result_of (peak_widths : list Q -> nat -> Q -> Q * Q * Q * Q)
    (np_interp : Q -> list Q -> list Q -> Q) (x flux : list Q) (l : MatchedLine)
  : LineResult :=
  mkResult (line l) (restframe_wavelength l) (observed_wavelength l)
           (w_fwhm (measure peak_widths np_interp x flux l)) (peak_flux l).

(** What the second loop keeps true: the mask is off exactly on the windows of
    the lines recorded so far, and the synthetic flux is as long as the flux
    and equal to it wherever the mask is on. *)
Definition mask_exact (x flux : list Q) (st : MaskState) : Prop :=
  continuum_mask st
  = map (fun w => negb (existsb (fun r => in_window_b r w) (results st))) x /\
  List.length (synthetic_flux st) = List.length flux /\
  forall i, nth_error (continuum_mask st) i = Some true ->
            nth_error (synthetic_flux st) i = nth_error flux i.

(** No sample of [x] lies within [window] of a rest wavelength of the catalog. *)
Definition out_of_coverage (x : list Q) (window : Q) (items : Catalog) : Prop :=
  forall item rest others w,
    In item items -> wavelength (snd item) = Some rest :: others -> In w x ->
    ~ (rest - window <= w /\ w <= rest + window).

(** A fit that returns its initial guess, to run the set-up on examples. *)
Module ReferenceFit.

Definition curve_fit (xdata ydata p0 : list Q) : option (list Q) := Some p0.

(** The example spectrum as rows (wavelength, flux, flux error), with two rows
    outside the range 5000 to 5010. *)
Definition spectrum : list (Q * Q * Q) :=
  [(4990, 3, 1); (5000, 0, 1); (5001, 0, 1); (5002, 0, 1); (5003, 0, 1);
   (5004, 0, 1); (5005, 0, 1); (5006, 1, 1); (5007, 4, 1); (5008, 8, 1);
   (5009, 4, 1); (5010, 1, 1); (5020, 2, 1)].

End ReferenceFit.

(** Every catalog entry names one of the three line models. *)
Definition line_models_only (items : Catalog) : bool :=
  forallb (fun item => line_model (components (snd item))) items.

(** The rows of a spectrum within a wavelength range. *)
Definition restricted (spectrum : list (Q * Q * Q)) (wavelength_range : Q * Q)
  : list (Q * Q * Q) :=
  select (between (fst wavelength_range) (snd wavelength_range)
                  (map Setup.col0 spectrum)) spectrum.

(** A local maximum of the window that the detector's call of [find_peaks]
    keeps: its prominence is at least the threshold 0.5. *)
Definition prominent (window_flux : list Q) (p : nat) : Prop :=
  In p (Reference.local_maxima window_flux) /\
  0.5 <= Reference.prominence window_flux p.

(** The invariant of the loop over the peaks with their order: the peaks seen
    before [closest_peak_idx] are farther from the rest wavelength, those seen
    after it are not nearer. *)
Definition first_best (window_wavelengths : list Q) (rest_wavelength : Q)
    (seen : list nat) (st : option nat * bound) : Prop :=
  match fst st with
  | None => snd st = PosInf /\ seen = []
  | Some p =>
      exists ow before after,
        seen = before ++ p :: after /\
        nth_error window_wavelengths p = Some ow /\
        snd st = Fin (distance rest_wavelength ow) /\
        (forall q oq, In q before -> nth_error window_wavelengths q = Some oq ->
                      distance rest_wavelength ow < distance rest_wavelength oq) /\
        (forall q oq, In q after -> nth_error window_wavelengths q = Some oq ->
                      distance rest_wavelength ow <= distance rest_wavelength oq)
  end.

(** * Properties of the parameter table *)

Ltac break_if :=
  match goal with
  | |- context [if ?c then _ else _] => destruct c eqn:?
  | H : context [if ?c then _ else _] |- _ => destruct c eqn:?
  end.

(** ** initial_dataframe *)

Lemma component_vectors_assigned line n m old :
  line_model m = true ->
  exists p mx mn, component_vectors line n m old = mkLocals (Some p) (Some mx) (Some mn).
Proof.
  unfold line_model, component_vectors. intros H.
  destruct (String.eqb m "Voigt"); [eauto|].
  destruct (String.eqb m "Gaussian"); [eauto|].
  destruct (String.eqb m "Lorentzian"); [eauto|discriminate].
Qed.

Lemma line_loop_rows d lines : forall st,
  catalog_covers d lines = true ->
  exists loc rows,
    line_loop d lines st = Ok (loc, snd st ++ rows) /\
    Forall2 (fun l r => Line_Name r = name l /\ Component r = 1%Z) lines rows.
Proof.
  induction lines as [|l lines IH]; intros st Hc; simpl.
  - exists (fst st), []. rewrite app_nil_r. destruct st; auto.
  - simpl in Hc. apply andb_true_iff in Hc as [Hl Hc].
    unfold dict_get. destruct (lookup (name l) d) as [e|]; [|discriminate]. simpl.
    destruct (component_vectors_assigned l 1 (components e) (fst st) Hl)
      as (p & mx & mn & E).
    rewrite E. simpl.
    destruct (IH (mkLocals (Some p) (Some mx) (Some mn),
                  snd st ++ [mkRow (name l) (components e) 1 p (Some mx) (Some mn) None]) Hc)
      as (loc & rows & E2 & F).
    simpl in E2. exists loc, (mkRow (name l) (components e) 1 p (Some mx) (Some mn) None :: rows).
    split.
    + rewrite E2. rewrite <- app_assoc. reflexivity.
    + constructor; auto.
Qed.

Lemma ncomponents_sum d lines :
  catalog_covers d lines = true ->
  list_sum (map (ncomponents d) lines) = List.length lines.
Proof.
  induction lines as [|l lines IH]; simpl; intros H; [reflexivity|].
  apply andb_true_iff in H as [Hl H]. rewrite (IH H).
  unfold ncomponents. destruct (lookup (name l) d); [reflexivity|discriminate].
Qed.

(** C2: [initial_dataframe] emits one row with component 1 per filtered line, in
    order, and after them one continuum row (component 0, bounds [0,0,0] and
    [inf,inf,inf]) exactly when continuum parameters are given; the row count
    is the sum of the lines' component counts plus one for the continuum, and
    with no line the table is the continuum row alone. *)
Theorem C2_initial_dataframe_rows (d : Catalog) (lines : list FilteredLine)
    (continuum_pars : option (list Q)) :
  catalog_covers d lines = true ->
  exists df line_rows,
    initial_dataframe d lines continuum_pars = Ok df /\
    df_rows df = line_rows ++ continuum_rows continuum_pars /\
    Forall2 (fun l r => Line_Name r = name l /\ Component r = 1%Z) lines line_rows /\
    List.length (df_rows df) =
      (list_sum (map (ncomponents d) lines)
       + match continuum_pars with Some _ => 1 | None => 0 end)%nat /\
    (lines = [] -> df_rows df = continuum_rows continuum_pars).
Proof.
  intros Hc. unfold initial_dataframe.
  destruct (line_loop_rows d lines (no_locals, []) Hc) as (loc & rows & E & F).
  rewrite E. simpl.
  assert (L : List.length rows = List.length lines)
    by (symmetry; eapply Forall2_length; eauto).
  rewrite (ncomponents_sum d lines Hc).
  destruct continuum_pars as [pars|]; simpl.
  - exists (mkDataFrame initial_columns (rows ++ [continuum_row pars])), rows.
    simpl. repeat split; auto.
    + rewrite length_app. simpl. lia.
    + intros ->. inversion F. reflexivity.
  - exists (mkDataFrame initial_columns rows), rows.
    simpl. rewrite app_nil_r. repeat split; auto.
    + lia.
    + intros ->. inversion F. reflexivity.
Qed.

Lemma C2_initial_dataframe_rows_witness :
  exists df line_rows,
    initial_dataframe Examples.oiii_catalog
      [Examples.narrow_line; Examples.wide_line] (Some [1; 4000; 1]) = Ok df /\
    df_rows df = line_rows ++ continuum_rows (Some [1; 4000; 1]) /\
    Forall2 (fun l r => Line_Name r = name l /\ Component r = 1%Z)
      [Examples.narrow_line; Examples.wide_line] line_rows /\
    List.length (df_rows df) =
      (list_sum (map (ncomponents Examples.oiii_catalog)
                     [Examples.narrow_line; Examples.wide_line]) + 1)%nat /\
    ([Examples.narrow_line; Examples.wide_line] = [] ->
     df_rows df = continuum_rows (Some [1; 4000; 1])).
Proof.
  apply (C2_initial_dataframe_rows Examples.oiii_catalog
           [Examples.narrow_line; Examples.wide_line] (Some [1; 4000; 1])).
  reflexivity.
Defined.

(** ** The bounds invariant *)

(** C1: the invariant min <= parameter <= max fails for a line narrower than
    the fixed lower width bound.  For the one-sigma line [narrow_line] the row
    built by [initial_dataframe], and the bounds recomputed by [minmaxlim] for
    that row, put the width 1 under the lower bound 2.0 and over the upper
    bound 1.5. *)
Theorem C1_narrow_line_breaks_bounds :
  initial_dataframe Examples.oiii_catalog [Examples.narrow_line] None
  = Ok (mkDataFrame initial_columns
          [mkRow "OIII" "Gaussian" 1 [5007; 50; 1]
                 (Some [Fin 5009; Fin 50; Fin 1.5])
                 (Some [Fin 5005; Fin 0; Fin 2.0]) None]) /\
  row_invariant (mkRow "OIII" "Gaussian" 1 [5007; 50; 1]
                       (Some [Fin 5009; Fin 50; Fin 1.5])
                       (Some [Fin 5005; Fin 0; Fin 2.0]) None) = false /\
  within (Fin 2.0) 1 (Fin 1.5) = false /\
  minmaxlim (mkDataFrame initial_columns
               [mkRow "OIII" "Gaussian" 1 [5007; 50; 1] None None None])
  = ([], Ok ([[Fin 5005; Fin 0; Fin 2.0]], [[Fin 5009; Fin 50; Fin 1.5]])) /\
  bounds_hold [Fin 5005; Fin 0; Fin 2.0] [5007; 50; 1] [Fin 5009; Fin 50; Fin 1.5]
  = false.
Proof. repeat split; vm_compute; reflexivity. Qed.

(** ** minmaxlim on an unknown model *)

(** C9: when the first row of the table has a model outside Gaussian,
    Lorentzian, Voigt and Continuum, [minmaxlim] prints its message and then
    reads the unassigned local [min_i]: it raises and returns no bound vector
    for any row. *)
Theorem C9_unknown_first_row_raises (columns : list string) (row : Row)
    (others : list Row) :
  known_model (Model row) = false ->
  (3 <= List.length (Parameters row))%nat ->
  minmaxlim (mkDataFrame columns (row :: others))
  = (["Model not defined."], Raise (UnboundLocalError "min_i")).
Proof.
  intros Hm Hp. unfold known_model in Hm.
  repeat (apply orb_false_iff in Hm as [Hm ?]).
  destruct row as [ln m c ps mx mn pe]; simpl in *.
  destruct ps as [|p0 [|p1 [|p2 ps]]]; simpl in Hp; try lia.
  unfold minmaxlim; simpl. unfold limits_body; simpl.
  rewrite Hm, H1, H0, H. reflexivity.
Qed.

Lemma C9_unknown_first_row_raises_witness :
  minmaxlim Examples.asymmetric_table
  = (["Model not defined."], Raise (UnboundLocalError "min_i")).
Proof.
  apply (C9_unknown_first_row_raises
           (df_columns Examples.asymmetric_table)
           (mkRow "Halpha" "Asymmetric Gaussian" 1 [6563; 50; 3; 1] None None
                  (Some [0.1; 0.5; 0.1; 0.1]))
           [mkRow "Hbeta" "Gaussian" 1 [4861; 20; 3] None None (Some [0.1; 0.5; 0.1])]).
  - reflexivity.
  - simpl. lia.
Defined.

(** The same table through [update_components]: no expanded table comes back. *)
Example update_components_unknown_first_row :
  update_components Examples.asymmetric_table []
  = (["Model not defined."], Raise (UnboundLocalError "min_i")).
Proof. reflexivity. Qed.

(** An unknown model further down receives the bounds of the row before it. *)
Example minmaxlim_unknown_second_row :
  minmaxlim (mkDataFrame initial_columns
               [mkRow "Hbeta" "Gaussian" 1 [4861; 20; 3] None None None;
                mkRow "Halpha" "Asymmetric Gaussian" 1 [6563; 50; 3; 1] None None None])
  = (["Model not defined."],
     Ok ([[Fin 4855; Fin 0; Fin 2.0]; [Fin 4855; Fin 0; Fin 2.0]],
         [[Fin 4867; Fin 20; Fin 4.5]; [Fin 4867; Fin 20; Fin 4.5]])).
Proof. vm_compute. reflexivity. Qed.

(** ** update_components *)

Lemma initial_dataframe_columns d lines c df :
  initial_dataframe d lines c = Ok df -> df_columns df = initial_columns.
Proof.
  unfold initial_dataframe.
  destruct (line_loop d lines (no_locals, [])) as [st|e]; simpl; [|discriminate].
  destruct c; intros H; inversion H; reflexivity.
Qed.

(** C10: [update_components] drops the column 'Parameter Errors' before
    anything else, so on a table without that column it raises a [KeyError] and
    returns no table; the table that [initial_dataframe] builds is such a
    table. *)
Theorem C10_update_needs_errors_column :
  (forall df additions,
      has_column "Parameter Errors" df = false ->
      update_components df additions = no_errors_column) /\
  (forall d lines continuum_pars df additions,
      initial_dataframe d lines continuum_pars = Ok df ->
      update_components df additions = no_errors_column).
Proof.
  assert (A : forall df additions,
             has_column "Parameter Errors" df = false ->
             update_components df additions = no_errors_column).
  { intros df additions H. unfold update_components, drop_parameter_errors.
    unfold has_column in H. rewrite H. reflexivity. }
  split; [exact A|].
  intros d lines c df additions H. apply A.
  unfold has_column. rewrite (initial_dataframe_columns _ _ _ _ H). reflexivity.
Qed.

Lemma C10_update_needs_errors_column_witness :
  update_components
    (mkDataFrame initial_columns
       [mkRow "OIII" "Gaussian" 1 [5007; 50; 1]
              (Some [Fin 5009; Fin 50; Fin 1.5])
              (Some [Fin 5005; Fin 0; Fin 2.0]) None])
    [("OIII", ["Lorentzian"])]
  = no_errors_column.
Proof.
  apply (proj2 C10_update_needs_errors_column
           Examples.oiii_catalog [Examples.narrow_line] None).
  vm_compute. reflexivity.
Defined.

(** C5: the new row takes three parameters from the last row of its line,
    whatever their number.  Adding a Voigt component to the Voigt line of
    [fitted_table] gives a row with three parameters after a row with four,
    under bound vectors of four entries. *)
Theorem C5_voigt_parameter_dropped :
  exists log out previous added,
    update_components Examples.fitted_table [("Hbeta", ["Voigt"])] = (log, Ok out) /\
    nth_error (df_rows out) 1 = Some previous /\
    nth_error (df_rows out) 2 = Some added /\
    Line_Name added = "Hbeta" /\ Model added = "Voigt" /\ Component added = 2%Z /\
    Parameters previous = [4861; 20; 3; 3.33] /\
    Parameters added = [4861; 20 / 2; 3] /\
    option_map (@List.length bound) (Max_Limits added) = Some 4%nat /\
    option_map (@List.length bound) (Min_Limits added) = Some 4%nat.
Proof.
  eexists _, _, _, _. split; [vm_compute; reflexivity|].
  repeat split; reflexivity.
Qed.

(** ** The bounds recomputed after the insertions *)

Lemma bind_lift_ok {A B} (a : A) (k : A -> Py B) : bind (lift (Ok a)) k = k a.
Proof. unfold bind, lift. destruct (k a). reflexivity. Qed.

Lemma bind_ret {A B} (a : A) (k : A -> Py B) : bind (ret a) k = k a.
Proof. apply bind_lift_ok. Qed.

Lemma count_name_app a b n : count_name (a ++ b) n = (count_name a n + count_name b n)%nat.
Proof. unfold count_name. rewrite filter_app, length_app. reflexivity. Qed.

Lemma count_name_map (f : Row -> Row) rows n :
  (forall r, Line_Name (f r) = Line_Name r) ->
  count_name (map f rows) n = count_name rows n.
Proof.
  intros H. unfold count_name. induction rows as [|r rows IH]; simpl; [reflexivity|].
  rewrite H. destruct (String.eqb (Line_Name r) n); simpl; rewrite IH; reflexivity.
Qed.

Lemma count_name_in rows r : In r rows -> (1 <= count_name rows (Line_Name r))%nat.
Proof.
  intros H. unfold count_name.
  assert (I : In r (filter (fun r0 => String.eqb (Line_Name r0) (Line_Name r)) rows))
    by (apply filter_In; split; [exact H|apply String.eqb_refl]).
  destruct (filter _ rows); [destruct I|simpl; lia].
Qed.

Lemma count_name_present rows line :
  existsb (fun r => String.eqb (Line_Name r) line) rows = true ->
  (1 <= count_name rows line)%nat.
Proof.
  intros H. apply existsb_exists in H as (r & I & E).
  apply String.eqb_eq in E. subst line. apply count_name_in, I.
Qed.

Lemma matching_positions_range line rows : forall k i,
  In i (matching_positions line rows k) -> (k <= i < k + List.length rows)%nat.
Proof.
  induction rows as [|r rows IH]; simpl; intros k i H; [destruct H|].
  apply in_app_or in H as [H|H].
  - destruct (String.eqb (Line_Name r) line); simpl in H; [|destruct H].
    destruct H as [<-|[]]. lia.
  - apply IH in H. lia.
Qed.

Lemma matching_positions_present line rows : forall k,
  existsb (fun r => String.eqb (Line_Name r) line) rows = true ->
  matching_positions line rows k <> [].
Proof.
  induction rows as [|r rows IH]; simpl; intros k H; [discriminate|].
  destruct (String.eqb (Line_Name r) line); simpl; [discriminate|].
  apply IH, H.
Qed.

Lemma last_position_in positions :
  positions <> [] -> exists i, last_position positions = Ok i /\ In i positions.
Proof.
  intros H. unfold last_position.
  destruct (rev positions) as [|i l] eqn:E.
  - apply (f_equal (@rev nat)) in E. rewrite rev_involutive in E. contradiction.
  - exists i. split; [reflexivity|]. apply in_rev. rewrite E. left. reflexivity.
Qed.

Lemma getitem_in {A} (l : list A) i :
  (i < List.length l)%nat -> exists a, getitem l i = Ok a /\ In a l.
Proof.
  intros H. unfold getitem. destruct (nth_error l i) as [a|] eqn:E.
  - exists a. split; [reflexivity|]. eapply nth_error_In; eauto.
  - apply nth_error_None in E. lia.
Qed.

Lemma well_formed_rows_ok rows : well_formed_rows rows = true -> table_ok rows.
Proof.
  unfold well_formed_rows, table_ok. intros H r I.
  rewrite forallb_forall in H. specialize (H r I). unfold row_ok in H.
  apply andb_true_iff in H as [H H3]. apply andb_true_iff in H as [H1 H2].
  split; [exact H1|]. split; [apply Nat.leb_le, H2|].
  intros M C. rewrite M, C in H3. simpl in H3. apply Z.eqb_eq, H3.
Qed.

Lemma drop_parameter_errors_ok df :
  has_column "Parameter Errors" df = true ->
  table_ok (df_rows df) ->
  exists dropped, drop_parameter_errors df = Ok dropped /\ table_ok (df_rows dropped).
Proof.
  intros H T. unfold drop_parameter_errors. unfold has_column in H. rewrite H.
  eexists. split; [reflexivity|]. simpl.
  intros r I. apply in_map_iff in I as (r0 & <- & I0). simpl.
  rewrite count_name_map by reflexivity. apply (T r0 I0).
Qed.

Lemma insert_in (rows : list Row) i new r :
  In r (firstn i rows ++ [new] ++ skipn i rows) <-> In r rows \/ r = new.
Proof.
  rewrite <- (firstn_skipn i rows) at 3.
  rewrite !in_app_iff. simpl. intuition auto.
Qed.

Lemma count_name_insert rows i new n :
  count_name (firstn i rows ++ [new] ++ skipn i rows) n
  = (count_name rows n + count_name [new] n)%nat.
Proof.
  rewrite <- (firstn_skipn i rows) at 3.
  rewrite !count_name_app. lia.
Qed.

Lemma add_component_ok df line comps m more :
  comps = m :: more -> known_model m = true ->
  table_ok (df_rows df) ->
  exists log df', add_component df line comps = (log, Ok df') /\
                  table_ok (df_rows df').
Proof.
  intros -> Hm T. unfold add_component.
  destruct (existsb (fun r => String.eqb (Line_Name r) line) (df_rows df)) eqn:P.
  2:{ eexists _, df. split; [reflexivity|exact T]. }
  destruct (last_position_in _ (matching_positions_present line (df_rows df) 0 P))
    as (i & Ei & Ii).
  apply matching_positions_range in Ii. simpl in Ii.
  destruct (getitem_in (df_rows df) i) as (last_row & El & Il); [lia|].
  destruct (T last_row Il) as (_ & L3 & _).
  destruct (Parameters last_row) as [|p0 [|p1 [|p2 ps]]] eqn:EP; simpl in L3; try lia.
  change (getitem (m :: more) 0) with (Ok m). rewrite bind_lift_ok.
  unfold bind at 1, print.
  rewrite Ei, bind_lift_ok, El, bind_lift_ok, EP.
  change (getitem (p0 :: p1 :: p2 :: ps) 0) with (Ok p0).
  change (getitem (p0 :: p1 :: p2 :: ps) 1) with (Ok p1).
  change (getitem (p0 :: p1 :: p2 :: ps) 2) with (Ok p2).
  rewrite !bind_lift_ok. unfold ret.
  eexists _, _. split; [reflexivity|]. cbn [df_rows].
  set (new := mkRow line m (Component last_row + 1) [p0; p1 / 2; p2] None None None).
  intros r I.
  change (firstn (S i) (df_rows df) ++ new :: skipn (S i) (df_rows df))
    with (firstn (S i) (df_rows df) ++ [new] ++ skipn (S i) (df_rows df)) in *.
  rewrite count_name_insert. apply insert_in in I as [I| ->].
  - destruct (T r I) as (K & L & C). split; [exact K|]. split; [exact L|].
    intros M E. apply (C M). pose proof (count_name_in _ _ I). lia.
  - simpl. split; [exact Hm|]. split; [lia|].
    intros _ E. apply count_name_present in P.
    unfold count_name at 2 in E. simpl in E. rewrite String.eqb_refl in E.
    simpl in E. lia.
Qed.

Lemma additions_loop_ok additions : forall df,
  well_formed_additions additions = true ->
  table_ok (df_rows df) ->
  exists log df', additions_loop df additions = (log, Ok df') /\
                  table_ok (df_rows df').
Proof.
  induction additions as [|[line comps] additions IH]; intros df W T; simpl.
  - eexists _, df. split; [reflexivity|exact T].
  - simpl in W. apply andb_true_iff in W as [Wc W].
    destruct comps as [|m more]; [discriminate|].
    destruct (add_component_ok df line (m :: more) m more eq_refl Wc T)
      as (log1 & df1 & E1 & T1).
    destruct (IH df1 W T1) as (log2 & df2 & E2 & T2).
    rewrite E1. unfold bind. rewrite E2. eexists _, _. split; [reflexivity|exact T2].
Qed.

Lemma limits_body_known rows r st :
  known_model (Model r) = true ->
  (3 <= List.length (Parameters r))%nat ->
  limits_body rows r st
  = ([], Ok (mkLimState (Some (row_min r)) (Some (row_max rows r))
                        (min_limits st ++ [row_min r])
                        (max_limits st ++ [row_max rows r]))).
Proof.
  intros K L. unfold limits_body, row_min, row_max, unified_min, unified_max.
  destruct (Parameters r) as [|p0 [|p1 [|p2 ps]]]; simpl in L; try lia.
  change (getitem (p0 :: p1 :: p2 :: ps) 0) with (Ok p0).
  change (getitem (p0 :: p1 :: p2 :: ps) 1) with (Ok p1).
  change (getitem (p0 :: p1 :: p2 :: ps) 2) with (Ok p2).
  rewrite !bind_lift_ok. unfold known_model in K.
  destruct (String.eqb (Model r) "Gaussian"); [reflexivity|].
  destruct (String.eqb (Model r) "Lorentzian"); [reflexivity|].
  destruct (String.eqb (Model r) "Voigt"); [reflexivity|].
  destruct (String.eqb (Model r) "Continuum"); [reflexivity|discriminate].
Qed.

Lemma limits_loop_known rows todo : forall st,
  (forall r, In r todo ->
             known_model (Model r) = true /\ (3 <= List.length (Parameters r))%nat) ->
  exists cm cx,
    limits_loop rows todo st
    = ([], Ok (mkLimState cm cx
                 (min_limits st ++ map row_min todo)
                 (max_limits st ++ map (row_max rows) todo))).
Proof.
  induction todo as [|r todo IH]; intros st H; simpl.
  - exists (cur_min st), (cur_max st). rewrite !app_nil_r. destruct st; reflexivity.
  - destruct (H r (or_introl eq_refl)) as [K L].
    rewrite (limits_body_known rows r st K L).
    destruct (IH (mkLimState (Some (row_min r)) (Some (row_max rows r))
                    (min_limits st ++ [row_min r])
                    (max_limits st ++ [row_max rows r])))
      as (cm & cx & E).
    { intros r' I. apply H. right. exact I. }
    unfold bind. rewrite E. simpl. rewrite <- !app_assoc. eauto.
Qed.

Lemma assign_series_map {A} (set : Row -> option A -> Row) (g : Row -> Row)
    (f : Row -> A) rows :
  assign_series set (map g rows) (map f rows)
  = map (fun r => set (g r) (Some (f r))) rows.
Proof. induction rows as [|r rows IH]; simpl; [|rewrite IH]; reflexivity. Qed.

Lemma factor_rule_holds rows r :
  (count_name rows (Line_Name r) = 1%nat -> Component r = 1%Z) ->
  factor_rule (count_name rows (Line_Name r)) (Component r) (amplitude_factor rows r).
Proof.
  intros S. unfold factor_rule, amplitude_factor. repeat split.
  - intros E. rewrite (S E), E. reflexivity.
  - intros N [E|E]; rewrite E; simpl; [|reflexivity].
    apply Nat.ltb_lt in N. rewrite N. reflexivity.
  - intros G.
    destruct (Component r =? 1)%Z eqn:E1; [apply Z.eqb_eq in E1; lia|].
    destruct (Component r =? 2)%Z eqn:E2; [apply Z.eqb_eq in E2; lia|].
    reflexivity.
Qed.

Lemma amplitude_factor_with_limits rows r :
  amplitude_factor (map (with_limits rows) rows) (with_limits rows r)
  = amplitude_factor rows r.
Proof.
  unfold amplitude_factor. simpl.
  rewrite count_name_map by reflexivity. reflexivity.
Qed.

(** C6: on a well-formed fitted table, [update_components] returns the table
    with the additions inserted, and every row of it, old or new, carries
    bounds recomputed by the unified rule: min_sd 2.0, max_sd 1.5 sigma,
    location centroid -/+ 2 sigma, amplitude ceiling amplitude times the
    factor, where the factor of a line row is 1 for the sole row of a line, 2
    for component 1 or 2 of a line with several rows and 2^(component-1) from
    component 3 on; a continuum row receives [-inf, 0, -inf] and
    [inf, inf, inf]. *)
Theorem C6_bounds_recomputed (df : DataFrame)
    (additions : list (string * list string)) :
  has_column "Parameter Errors" df = true ->
  well_formed_rows (df_rows df) = true ->
  well_formed_additions additions = true ->
  exists log dropped inserted out,
    drop_parameter_errors df = Ok dropped /\
    additions_loop dropped additions = (log, Ok inserted) /\
    update_components df additions = (log, Ok out) /\
    List.length (df_rows out) = List.length (df_rows inserted) /\
    forall i r,
      nth_error (df_rows out) i = Some r ->
      (exists r0, nth_error (df_rows inserted) i = Some r0 /\ same_line r r0) /\
      known_model (Model r) = true /\
      unified_bounds r (amplitude_factor (df_rows out) r) /\
      (String.eqb (Model r) "Continuum" = false ->
       factor_rule (count_name (df_rows out) (Line_Name r)) (Component r)
                   (amplitude_factor (df_rows out) r)).
Proof.
  intros Hc Hr Ha.
  destruct (drop_parameter_errors_ok df Hc (well_formed_rows_ok _ Hr))
    as (dropped & Ed & Td).
  destruct (additions_loop_ok additions dropped Ha Td) as (log & ins & Ei & Ti).
  destruct (limits_loop_known (df_rows ins) (df_rows ins) (mkLimState None None [] []))
    as (cm & cx & El).
  { intros r I. destruct (Ti r I) as (K & L & _). auto. }
  exists log, dropped, ins.
  eexists. split; [exact Ed|]. split; [exact Ei|].
  unfold update_components. rewrite Ed, bind_lift_ok.
  unfold bind at 1. rewrite Ei.
  unfold minmaxlim. rewrite El. simpl.
  rewrite <- (map_id (df_rows ins)) at 1.
  rewrite 2!assign_series_map. rewrite app_nil_r.
  split; [reflexivity|]. cbn [df_rows].
  split; [apply length_map|].
  intros i r N.
  rewrite nth_error_map in N.
  destruct (nth_error (df_rows ins) i) as [r0|] eqn:N0; [|discriminate].
  simpl in N. injection N as <-.
  destruct (Ti r0 (nth_error_In _ _ N0)) as (K & L & S).
  split; [exists r0; split; [reflexivity|repeat split]|].
  split; [exact K|].
  change (set_min (set_max r0 (Some (row_max (df_rows ins) r0))) (Some (row_min r0)))
    with (with_limits (df_rows ins) r0).
  change (fun r => set_min (set_max r (Some (row_max (df_rows ins) r))) (Some (row_min r)))
    with (with_limits (df_rows ins)).
  rewrite (amplitude_factor_with_limits (df_rows ins) r0). split.
  - unfold unified_bounds, with_limits, row_min, row_max. simpl.
    destruct (Parameters r0) as [|p0 [|p1 [|p2 ps]]]; simpl in L; try lia.
    exists p0, p1, p2, ps. repeat split.
  - simpl. intros M. rewrite count_name_map by reflexivity.
    apply factor_rule_holds, S, M.
Qed.

Lemma C6_bounds_recomputed_witness :
  exists log dropped inserted out,
    drop_parameter_errors Examples.fitted_table = Ok dropped /\
    additions_loop dropped [("Halpha", ["Lorentzian"])] = (log, Ok inserted) /\
    update_components Examples.fitted_table [("Halpha", ["Lorentzian"])]
    = (log, Ok out) /\
    List.length (df_rows out) = List.length (df_rows inserted) /\
    forall i r,
      nth_error (df_rows out) i = Some r ->
      (exists r0, nth_error (df_rows inserted) i = Some r0 /\ same_line r r0) /\
      known_model (Model r) = true /\
      unified_bounds r (amplitude_factor (df_rows out) r) /\
      (String.eqb (Model r) "Continuum" = false ->
       factor_rule (count_name (df_rows out) (Line_Name r)) (Component r)
                   (amplitude_factor (df_rows out) r)).
Proof.
  apply (C6_bounds_recomputed Examples.fitted_table [("Halpha", ["Lorentzian"])]);
    reflexivity.
Defined.

(** * Properties of the detector *)

Lemma select_in {A} (a : A) : forall mask l, In a (select mask l) -> In a l.
Proof.
  induction mask as [|b mask IH]; intros [|h l] H; simpl in H; try contradiction.
  destruct b; simpl in *; [destruct H as [H|H]; auto|auto].
Qed.

Lemma select_length {A B} : forall mask (l : list A) (l' : list B),
  List.length l = List.length l' ->
  List.length (select mask l) = List.length (select mask l').
Proof.
  induction mask as [|b mask IH]; intros [|a l] [|a' l'] H; simpl in *;
    try reflexivity; try discriminate.
  injection H as H. destruct b; simpl; rewrite (IH l l' H); reflexivity.
Qed.

Lemma np_where_eq_first v : forall l k,
  In v l ->
  exists idx others u,
    np_where_eq l v k = idx :: others /\ (k <= idx)%nat /\
    nth_error l (idx - k) = Some u /\ u == v.
Proof.
  induction l as [|a l IH]; intros k H; [destruct H|]. simpl.
  destruct (Qeq_bool a v) eqn:E.
  - exists k, (np_where_eq l v (S k)), a. simpl. rewrite Nat.sub_diag.
    repeat split; auto. apply Qeq_bool_iff, E.
  - destruct H as [->|H].
    + rewrite (proj2 (Qeq_bool_iff v v) (Qeq_refl v)) in E. discriminate.
    + destruct (IH (S k) H) as (idx & others & u & E1 & L & N & Q).
      exists idx, others, u. simpl. repeat split; auto; [lia|].
      replace (idx - k)%nat with (S (idx - S k)) by lia. exact N.
Qed.

Lemma Qlt_bool_iff a b : Qlt_bool a b = true <-> a < b.
Proof.
  unfold Qlt_bool. rewrite negb_true_iff. split.
  - intros H. apply Qnot_le_lt. intros L. apply Qle_bool_iff in L. congruence.
  - intros H. destruct (Qle_bool b a) eqn:E; [|reflexivity].
    apply Qle_bool_iff in E. exfalso. exact (Qlt_not_le _ _ H E).
Qed.

Lemma Qlt_bool_false a b : Qlt_bool a b = false -> b <= a.
Proof.
  unfold Qlt_bool. rewrite negb_false_iff. apply Qle_bool_iff.
Qed.

Lemma plateau_length v : forall rest k next,
  Reference.plateau v rest = (k, Some next) -> (k < List.length rest)%nat.
Proof.
  induction rest as [|w rest IH]; intros k next H; simpl in H; [discriminate|].
  destruct (Qeq_bool w v).
  - destruct (Reference.plateau v rest) as [k' nx] eqn:E. injection H as <- ->.
    specialize (IH k' next eq_refl). simpl. lia.
  - injection H as <- _. simpl. lia.
Qed.

Lemma maxima_from_range : forall l prev i p,
  In p (Reference.maxima_from prev l i) -> (i <= p < i + List.length l)%nat.
Proof.
  induction l as [|v rest IH]; intros prev i p H; [destruct H|].
  cbn [Reference.maxima_from] in H. apply in_app_or in H as [H|H].
  - destruct (Qlt_bool prev v); [|destruct H].
    destruct (Reference.plateau v rest) as [k [next|]] eqn:E; [|destruct H].
    destruct (Qlt_bool next v); [|destruct H].
    destruct H as [<-|[]]. apply plateau_length in E.
    assert (k / 2 <= k)%nat by (apply Nat.Div0.div_le_upper_bound; lia).
    cbn [List.length]. lia.
  - apply IH in H. simpl. lia.
Qed.

Lemma local_maxima_range flux p :
  In p (Reference.local_maxima flux) -> (0 < p < List.length flux)%nat.
Proof.
  destruct flux as [|v rest]; [intros []|]. intros H.
  apply maxima_from_range in H. simpl. lia.
Qed.

(** ** The peaks in scipy's order *)

Lemma plateau_compat v w : v == w -> forall rest,
  Reference.plateau v rest = Reference.plateau w rest.
Proof.
  intros E. induction rest as [|a rest IH]; [reflexivity|]. simpl. rewrite IH.
  assert (B : Qeq_bool a v = Qeq_bool a w).
  { destruct (Qeq_bool a v) eqn:A, (Qeq_bool a w) eqn:B; try reflexivity.
    - apply Qeq_bool_iff in A. rewrite E in A. apply Qeq_bool_iff in A. congruence.
    - apply Qeq_bool_iff in B. rewrite <- E in B. apply Qeq_bool_iff in B. congruence. }
  rewrite B. reflexivity.
Qed.

(** No maximum lies on the run of equal samples that follows a sample. *)
Lemma maxima_from_skip : forall rest v j k next p,
  Reference.plateau v rest = (k, next) ->
  In p (Reference.maxima_from v rest j) -> (j + k <= p)%nat.
Proof.
  induction rest as [|w more IH]; intros v j k next p E H; [destruct H|].
  simpl in E. destruct (Qeq_bool w v) eqn:A.
  - destruct (Reference.plateau v more) as [k' nx] eqn:P. injection E as <- <-.
    apply Qeq_bool_iff in A. cbn [Reference.maxima_from] in H.
    assert (L : Qlt_bool v w = false).
    { destruct (Qlt_bool v w) eqn:L; [|reflexivity].
      apply Qlt_bool_iff in L. rewrite A in L. exfalso. exact (Qlt_irrefl _ L). }
    rewrite L in H. cbn [app] in H.
    rewrite (plateau_compat v w (Qeq_sym _ _ A)) in P.
    specialize (IH w (S j) k' nx p P H). lia.
  - injection E as <- _. apply maxima_from_range in H. lia.
Qed.

Lemma maxima_from_sorted : forall l prev i,
  StronglySorted lt (Reference.maxima_from prev l i).
Proof.
  induction l as [|v rest IH]; intros prev i; [constructor|].
  cbn [Reference.maxima_from].
  destruct (Qlt_bool prev v); [|apply IH].
  destruct (Reference.plateau v rest) as [k [next|]] eqn:E; [|apply IH].
  destruct (Qlt_bool next v); [|apply IH].
  cbn [app]. constructor; [apply IH|].
  apply Forall_forall. intros p H.
  pose proof (maxima_from_skip rest v (S i) k (Some next) p E H).
  assert (k / 2 <= k)%nat by (apply Nat.Div0.div_le_upper_bound; lia).
  lia.
Qed.

Lemma filter_sorted (f : nat -> bool) : forall l,
  StronglySorted lt l -> StronglySorted lt (filter f l).
Proof.
  induction l as [|a l IH]; intros S; [constructor|].
  inversion S as [|? ? S' F]; subst. simpl.
  destruct (f a); [|apply IH, S'].
  constructor; [apply IH, S'|].
  apply Forall_forall. intros q I. apply filter_In in I as [I _].
  rewrite Forall_forall in F. apply F, I.
Qed.

Lemma find_peaks_sorted flux threshold :
  StronglySorted lt (Reference.find_peaks flux threshold).
Proof.
  unfold Reference.find_peaks. apply filter_sorted.
  destruct flux as [|v rest]; [constructor|apply maxima_from_sorted].
Qed.

Lemma sorted_split : forall (before : list nat) p after,
  StronglySorted lt (before ++ p :: after) ->
  (forall q, In q before -> (q < p)%nat) /\ (forall q, In q after -> (p < q)%nat).
Proof.
  induction before as [|a before IH]; intros p after S; simpl in S;
    inversion S as [|? ? S' F]; subst.
  - split; [intros q []|]. rewrite Forall_forall in F. exact F.
  - destruct (IH p after S') as [B A]. split; [|exact A].
    intros q [<-|I]; [|apply B, I].
    rewrite Forall_forall in F. apply F, in_or_app. right. left. reflexivity.
Qed.

Lemma prominent_iff flux p :
  In p (Reference.find_peaks flux 0.5) <-> prominent flux p.
Proof.
  unfold Reference.find_peaks, prominent. rewrite filter_In, Qle_bool_iff.
  reflexivity.
Qed.

Section ClosestPeak.

Variable window_wavelengths : list Q.
Variable rest_wavelength : Q.

Local Abbreviation distance := (distance rest_wavelength).
Local Abbreviation best := (best window_wavelengths rest_wavelength).

Lemma closest_loop_best : forall peaks seen st,
  (forall p, In p peaks -> (p < List.length window_wavelengths)%nat) ->
  best seen st ->
  exists st', closest_loop window_wavelengths rest_wavelength peaks st = Ok st' /\
              best (seen ++ peaks) st'.
Proof.
  induction peaks as [|p peaks IH]; intros seen st R B; cbn [closest_loop].
  - exists st. rewrite app_nil_r. auto.
  - destruct (getitem_in window_wavelengths p (R p (or_introl eq_refl)))
      as (ow & E & _).
    rewrite E. cbn [rbind].
    assert (N : nth_error window_wavelengths p = Some ow).
    { unfold getitem in E. destruct (nth_error window_wavelengths p); congruence. }
    assert (R' : forall q, In q peaks -> (q < List.length window_wavelengths)%nat)
      by (intros q I; apply R; right; exact I).
    replace (seen ++ p :: peaks) with ((seen ++ [p]) ++ peaks)
      by (rewrite <- app_assoc; reflexivity).
    fold (distance ow).
    destruct (lt_bound (distance ow) (snd st)) eqn:L; apply IH; auto.
    + unfold best. simpl. exists ow. repeat split; auto.
      * apply in_or_app. right. left. reflexivity.
      * intros q oq I Nq. apply in_app_or in I as [I|[<-|[]]].
        -- unfold best in B. destruct (fst st) as [b|].
           ++ destruct B as (bw & _ & _ & M & Bq). rewrite M in L. simpl in L.
              apply Qlt_bool_iff in L. apply Qlt_le_weak.
              eapply Qlt_le_trans; [exact L|]. apply (Bq q oq I Nq).
           ++ destruct B as [_ ->]. destruct I.
        -- rewrite N in Nq. injection Nq as <-. apply Qle_refl.
    + unfold best in *. destruct (fst st) as [b|].
      * destruct B as (bw & Ib & Nb & M & Bq). exists bw. repeat split; auto.
        -- apply in_or_app. left. exact Ib.
        -- intros q oq I Nq. apply in_app_or in I as [I|[<-|[]]].
           ++ apply (Bq q oq I Nq).
           ++ rewrite N in Nq. injection Nq as <-. rewrite M in L. simpl in L.
              apply Qlt_bool_false, L.
      * destruct B as [M _]. rewrite M in L. discriminate.
Qed.

(** The loop with the order of the peaks: a peak seen before the one it keeps
    is farther from the rest wavelength. *)
Lemma closest_loop_first : forall peaks seen st,
  (forall p, In p peaks -> (p < List.length window_wavelengths)%nat) ->
  first_best window_wavelengths rest_wavelength seen st ->
  exists st', closest_loop window_wavelengths rest_wavelength peaks st = Ok st' /\
              first_best window_wavelengths rest_wavelength (seen ++ peaks) st'.
Proof.
  induction peaks as [|p peaks IH]; intros seen st R B; cbn [closest_loop].
  - exists st. rewrite app_nil_r. auto.
  - destruct (getitem_in window_wavelengths p (R p (or_introl eq_refl)))
      as (ow & E & _).
    rewrite E. cbn [rbind].
    assert (N : nth_error window_wavelengths p = Some ow).
    { unfold getitem in E. destruct (nth_error window_wavelengths p); congruence. }
    assert (R' : forall q, In q peaks -> (q < List.length window_wavelengths)%nat)
      by (intros q I; apply R; right; exact I).
    replace (seen ++ p :: peaks) with ((seen ++ [p]) ++ peaks)
      by (rewrite <- app_assoc; reflexivity).
    fold (distance ow).
    destruct (lt_bound (distance ow) (snd st)) eqn:L; apply IH; auto.
    + unfold first_best. simpl. exists ow, seen, []. repeat split; auto.
      * intros q oq I Nq. unfold first_best in B. destruct (fst st) as [b|].
        -- destruct B as (bw & before & after & Es & Nb & M & Bf & Af).
           rewrite M in L. simpl in L. apply Qlt_bool_iff in L.
           rewrite Es in I. apply in_app_or in I as [I|[<-|I]].
           ++ eapply Qlt_trans; [exact L|]. apply (Bf q oq I Nq).
           ++ rewrite Nb in Nq. injection Nq as <-. exact L.
           ++ eapply Qlt_le_trans; [exact L|]. apply (Af q oq I Nq).
        -- destruct B as [_ ->]. destruct I.
      * intros q oq [].
    + unfold first_best in *. destruct (fst st) as [b|].
      * destruct B as (bw & before & after & Es & Nb & M & Bf & Af).
        exists bw, before, (after ++ [p]). repeat split; auto.
        -- rewrite Es, <- app_assoc. reflexivity.
        -- intros q oq I Nq. apply in_app_or in I as [I|[<-|[]]].
           ++ apply (Af q oq I Nq).
           ++ rewrite N in Nq. injection Nq as <-. rewrite M in L. simpl in L.
              apply Qlt_bool_false, L.
      * destruct B as [M _]. rewrite M in L. discriminate.
Qed.

End ClosestPeak.

Section DetectorFacts.

Variable find_peaks : list Q -> Q -> list nat.
Variable peak_widths : list Q -> nat -> Q -> Q * Q * Q * Q.
Variable np_interp : Q -> list Q -> list Q -> Q.
Variable np_sqrt : Q -> Q.
Variable np_random_normal : nat -> Q -> Q -> Q.

(** C3 as the code has it: for a catalog entry with a rest wavelength, the
    detector skips the entry without error when no sample lies within the
    window.  Otherwise it looks at the local maxima of the window whose
    prominence is at least 0.5, the threshold included: it records no line when
    there is none, and else records exactly one line, at the maximum whose
    wavelength is nearest to the rest wavelength, the one of lowest index when
    several are equally near.  [find_peaks] is scipy's: on the window it
    answers as [Reference.find_peaks] does. *)
Theorem C3_closest_prominent_peak (x y : list Q) (window : Q) (name : string)
    (params : CatalogEntry) (rest : Q) (others : list (option Q))
    (matched : list MatchedLine) :
  wavelength params = Some rest :: others ->
  List.length x = List.length y ->
  let mask := between (rest - window) (rest + window) x in
  let window_wavelengths := select mask x in
  let window_flux := select mask y in
  find_peaks window_flux 0.5 = Reference.find_peaks window_flux 0.5 ->
  (window_wavelengths = [] ->
   match_entry find_peaks x y window (name, params) matched = Ok matched) /\
  (window_wavelengths <> [] -> (forall p, ~ prominent window_flux p) ->
   match_entry find_peaks x y window (name, params) matched = Ok matched) /\
  (window_wavelengths <> [] -> (exists p, prominent window_flux p) ->
   exists p observed flux_at_peak idx u,
     prominent window_flux p /\
     nth_error window_wavelengths p = Some observed /\
     nth_error window_flux p = Some flux_at_peak /\
     (forall q oq, prominent window_flux q ->
                   nth_error window_wavelengths q = Some oq ->
                   Qabs (observed - rest) <= Qabs (oq - rest)) /\
     (forall q oq, prominent window_flux q -> (q < p)%nat ->
                   nth_error window_wavelengths q = Some oq ->
                   Qabs (observed - rest) < Qabs (oq - rest)) /\
     nth_error x idx = Some u /\ u == observed /\
     match_entry find_peaks x y window (name, params) matched
     = Ok (matched ++ [mkMatched name rest observed flux_at_peak idx])).
Proof.
  intros W Len mask ww wf Fp.
  assert (Lw : List.length ww = List.length wf) by (apply select_length, Len).
  unfold match_entry. rewrite W.
  change (getitem (Some rest :: others) 0) with (Ok (Some rest)).
  cbn [rbind]. fold mask. fold ww. fold wf. rewrite Fp.
  split; [intros ->; reflexivity|].
  pose proof (find_peaks_sorted wf 0.5) as Sorted.
  assert (P : forall p, In p (Reference.find_peaks wf 0.5) <-> prominent wf p)
    by (intros p; apply prominent_iff).
  assert (R : forall p, In p (Reference.find_peaks wf 0.5) ->
                        (p < List.length wf)%nat).
  { intros p I. apply P in I as [I _]. apply local_maxima_range in I. lia. }
  set (peaks := Reference.find_peaks wf 0.5) in *. clearbody peaks.
  destruct (closest_loop_first ww rest peaks [] (None, PosInf)) as (st & E & B).
  { intros p I. rewrite Lw. apply R, I. }
  { unfold first_best. simpl. auto. }
  simpl in B. split.
  - intros Hw Hp. destruct ww as [|w0 ww']; [contradiction|].
    destruct peaks as [|p peaks]; [reflexivity|].
    exfalso. apply (Hp p), P. left. reflexivity.
  - intros Hw (p0 & Hp0). destruct ww as [|w0 ww'] eqn:Eww; [contradiction|].
    rewrite <- Eww in *. rewrite E. cbn [rbind].
    unfold first_best in B. destruct (fst st) as [p|].
    2:{ destruct B as [_ B]. apply P in Hp0. rewrite B in Hp0. destruct Hp0. }
    destruct B as (ow & before & after & Es & Np & _ & Bf & Af).
    assert (Ip : In p peaks).
    { rewrite Es. apply in_or_app. right. left. reflexivity. }
    rewrite Es in Sorted. destruct (sorted_split before p after Sorted) as [Sb Sa].
    destruct (getitem_in wf p (R p Ip)) as (pf & Ef & _).
    assert (Nf : nth_error wf p = Some pf).
    { unfold getitem in Ef. destruct (nth_error wf p); congruence. }
    rewrite Ef. cbn [rbind]. unfold getitem at 1. rewrite Np. cbn [rbind].
    destruct (np_where_eq_first ow x 0) as (idx & more & u & E1 & _ & N1 & Q1).
    { apply (select_in ow mask x). unfold ww in Np. eapply nth_error_In, Np. }
    rewrite E1. change (getitem (idx :: more) 0) with (Ok idx). cbn [rbind].
    rewrite Nat.sub_0_r in N1.
    exists p, ow, pf, idx, u.
    split; [apply P, Ip|]. split; [exact Np|]. split; [exact Nf|].
    split; [|split; [|repeat split; auto]].
    + intros q oq Hq Nq. apply P in Hq. rewrite Es in Hq.
      apply in_app_or in Hq as [I|[<-|I]].
      * apply Qlt_le_weak. apply (Bf q oq I Nq).
      * rewrite Np in Nq. injection Nq as <-. apply Qle_refl.
      * apply (Af q oq I Nq).
    + intros q oq Hq Lt Nq. apply P in Hq. rewrite Es in Hq.
      apply in_app_or in Hq as [I|[<-|I]].
      * apply (Bf q oq I Nq).
      * lia.
      * specialize (Sa q I). lia.
Qed.

End DetectorFacts.

(** Two peaks in the window: the detector records the nearer one, at 5008,
    not the higher one, at 5002. *)
Lemma C3_closest_prominent_peak_witness :
  exists p observed flux_at_peak idx u,
    prominent Examples.two_peaks_y p /\
    nth_error Examples.spectrum_x p = Some observed /\
    nth_error Examples.two_peaks_y p = Some flux_at_peak /\
    (forall q oq, prominent Examples.two_peaks_y q ->
                  nth_error Examples.spectrum_x q = Some oq ->
                  Qabs (observed - 5007) <= Qabs (oq - 5007)) /\
    (forall q oq, prominent Examples.two_peaks_y q -> (q < p)%nat ->
                  nth_error Examples.spectrum_x q = Some oq ->
                  Qabs (observed - 5007) < Qabs (oq - 5007)) /\
    nth_error Examples.spectrum_x idx = Some u /\ u == observed /\
    match_entry Reference.find_peaks Examples.spectrum_x Examples.two_peaks_y 20
                ("OIII", Examples.oiii_entry) []
    = Ok ([] ++ [mkMatched "OIII" 5007 observed flux_at_peak idx]).
Proof.
  destruct (C3_closest_prominent_peak Reference.find_peaks
              Examples.spectrum_x Examples.two_peaks_y 20 "OIII"
              Examples.oiii_entry 5007 [] [] eq_refl eq_refl eq_refl)
    as (_ & _ & H).
  apply H.
  - vm_compute. discriminate.
  - exists 8%nat. split.
    + vm_compute. right. left. reflexivity.
    + vm_compute. discriminate.
Defined.

Example nearer_peak_not_higher_peak :
  Reference.find_peaks Examples.two_peaks_y 0.5 = [2%nat; 8%nat] /\
  match_entry Reference.find_peaks Examples.spectrum_x Examples.two_peaks_y 20
              ("OIII", Examples.oiii_entry) []
  = Ok [mkMatched "OIII" 5007 5008 8 8].
Proof. split; vm_compute; reflexivity. Qed.

Example equally_near_peaks :
  match_entry Reference.find_peaks Examples.spectrum_x Examples.two_peaks_y 20
              ("OIII", mkEntry [Some 5005] "Gaussian") []
  = Ok [mkMatched "OIII" 5005 5002 9 2].
Proof. vm_compute. reflexivity. Qed.

(** A run of equal samples has its maximum in the middle, rounded down; a run
    that reaches the end of the array has none. *)
Example maxima_of_flat_tops :
  Reference.local_maxima [0; 2; 2; 2; 0] = [2%nat] /\
  Reference.local_maxima [0; 2; 2; 0; 1; 1] = [1%nat].
Proof. split; vm_compute; reflexivity. Qed.

(** C3 as stated fails at the threshold: the one local maximum of
    [threshold_y] has the prominence 0.5, which does not exceed 0.5, and the
    detector records a line at it. *)
Lemma C3_peak_at_threshold_recorded :
  Reference.local_maxima Examples.threshold_y = [1%nat] /\
  Reference.prominence Examples.threshold_y 1 == 0.5 /\
  (forall p, In p (Reference.local_maxima Examples.threshold_y) ->
             ~ 0.5 < Reference.prominence Examples.threshold_y p) /\
  match_entry Reference.find_peaks Examples.threshold_x Examples.threshold_y 20
              ("OIII", Examples.oiii_entry) []
  = Ok [mkMatched "OIII" 5007 5007 0.5 1].
Proof.
  split; [vm_compute; reflexivity|]. split; [vm_compute; reflexivity|].
  split; [|vm_compute; reflexivity].
  intros p [<-|[]]. vm_compute. discriminate.
Qed.

(** ** The continuum mask *)

Lemma and_not_nth : forall a m i,
  nth_error (and_not a m) i
  = match nth_error a i, nth_error m i with
    | Some p, Some q => Some (p && negb q)
    | _, _ => None
    end.
Proof.
  induction a as [|p a IH]; intros [|q m] [|i]; simpl; try reflexivity.
  - destruct (nth_error a i); reflexivity.
  - apply IH.
Qed.

Lemma and_not_length : forall a m,
  List.length a = List.length m -> List.length (and_not a m) = List.length a.
Proof.
  induction a as [|p a IH]; intros [|q m] H; simpl in *; try reflexivity;
    try discriminate.
  injection H as H. rewrite (IH m H). reflexivity.
Qed.

Lemma between_nth lo hi x i :
  nth_error (between lo hi x) i
  = option_map (fun w => Qle_bool lo w && Qle_bool w hi) (nth_error x i).
Proof. unfold between. apply nth_error_map. Qed.

Lemma between_length lo hi x : List.length (between lo hi x) = List.length x.
Proof. unfold between. apply length_map. Qed.

Section MaskFacts.

Variable peak_widths : list Q -> nat -> Q -> Q * Q * Q * Q.
Variable np_interp : Q -> list Q -> list Q -> Q.
Variable np_sqrt : Q -> Q.
Variable np_random_normal : nat -> Q -> Q -> Q.

Local Abbreviation measure := (Detector.measure peak_widths np_interp).
Local Abbreviation mask_line :=
  (Detector.mask_line peak_widths np_interp np_sqrt np_random_normal).
Local Abbreviation mask_loop :=
  (Detector.mask_loop peak_widths np_interp np_sqrt np_random_normal).

Lemma measure_sigma x flux l :
  w_sigma (measure x flux l) = w_fwhm (measure x flux l) / 2.355 /\
  line_start (measure x flux l)
  = observed_wavelength l - w_fwhm (measure x flux l) / 2
    - 3 * w_sigma (measure x flux l) /\
  line_end (measure x flux l)
  = observed_wavelength l + w_fwhm (measure x flux l) / 2
    + 3 * w_sigma (measure x flux l).
Proof.
  unfold Detector.measure.
  destruct (peak_widths flux (peak_idx l) 0.5) as [[[widths heights] left_ips] right_ips].
  simpl. repeat split.
Qed.

Lemma mask_line_results x flux l st :
  results (mask_line x flux l st)
  = results st ++
      [mkResult (line l) (restframe_wavelength l) (observed_wavelength l)
                (w_fwhm (measure x flux l)) (peak_flux l)].
Proof.
  unfold Detector.mask_line.
  destruct (existsb _ _); [destruct (np_std _ _)|]; reflexivity.
Qed.

Lemma mask_line_continuum x flux l st :
  continuum_mask (mask_line x flux l st)
  = and_not (continuum_mask st)
            (between (line_start (measure x flux l)) (line_end (measure x flux l)) x).
Proof.
  unfold Detector.mask_line.
  destruct (existsb _ _); [destruct (np_std _ _)|]; reflexivity.
Qed.

Lemma mask_line_masked x flux l st : masked x st -> masked x (mask_line x flux l st).
Proof.
  intros [Len M]. unfold masked.
  rewrite mask_line_results, mask_line_continuum. split.
  - rewrite and_not_length; [exact Len|]. rewrite between_length. exact Len.
  - intros r i w I N Win. rewrite and_not_nth, between_nth, N. simpl.
    assert (Hi : (i < List.length (continuum_mask st))%nat).
    { rewrite Len. apply nth_error_Some. congruence. }
    destruct (nth_error (continuum_mask st) i) as [c|] eqn:C.
    2:{ apply nth_error_None in C. lia. }
    apply in_app_or in I as [I|[<-|[]]].
    + specialize (M r i w I N Win). rewrite C in M. injection M as ->. reflexivity.
    + destruct Win as [Lo Hi']. simpl in Lo, Hi'.
      destruct (measure_sigma x flux l) as (Es & E1 & E2).
      rewrite E1, E2, Es.
      rewrite (proj2 (Qle_bool_iff _ _) Lo), (proj2 (Qle_bool_iff _ _) Hi').
      simpl. rewrite andb_false_r. reflexivity.
Qed.

Lemma mask_loop_masked x flux : forall matched st,
  masked x st -> masked x (mask_loop x flux matched st).
Proof.
  induction matched as [|l matched IH]; intros st M; simpl; [exact M|].
  apply IH, mask_line_masked, M.
Qed.

(** C7 as the code has it: after the second loop the continuum mask is off on
    every sample whose wavelength lies within [observed - fwhm/2 - 3 sigma,
    observed + fwhm/2 + 3 sigma] of a line in the results, where sigma is the
    detector's own fwhm / 2.355, not the fwhm / 2.3548 of the specification;
    this holds for the matched lines of any spectrum and catalog. *)
Theorem C7_lines_excluded_from_continuum (x flux : list Q) :
  List.length x = List.length flux ->
  (forall matched r i w,
      In r (results (mask_loop x flux matched (initial_state flux))) ->
      nth_error x i = Some w -> in_line_window r w ->
      nth_error (continuum_mask (mask_loop x flux matched (initial_state flux))) i
      = Some false) /\
  (forall find_peaks lines_dict window st r i w,
      analyze_state find_peaks peak_widths np_interp np_sqrt np_random_normal
                    x flux lines_dict window = Ok st ->
      In r (results st) -> nth_error x i = Some w -> in_line_window r w ->
      nth_error (continuum_mask st) i = Some false).
Proof.
  intros Len.
  assert (A : forall matched, masked x (mask_loop x flux matched (initial_state flux))).
  { intros matched. apply mask_loop_masked. split.
    - simpl. rewrite length_map. symmetry. exact Len.
    - intros r i w []. }
  split.
  - intros matched r i w. apply (A matched).
  - intros find_peaks lines_dict window st r i w E. unfold analyze_state in E.
    destruct (match_loop find_peaks x flux window lines_dict []) as [matched|e];
      [|discriminate].
    simpl in E. injection E as <-. apply (A matched).
Qed.

(** C8 as the code has it: the sigma of the masking step is the width at half
    maximum over 2.355, the width being the difference of the two
    interpolated wavelengths at [left_ips + widths] and [left_ips]; the line is
    recorded with that width and masked over that sigma. *)
Theorem C8_sigma_is_fwhm_over_2355 (x flux : list Q) (l : MatchedLine)
    (st : MaskState) :
  let w := measure x flux l in
  let '(widths, _, left_ips, _) := peak_widths flux (peak_idx l) 0.5 in
  w_fwhm w = np_interp (left_ips + widths) (np_arange (List.length flux)) x
             - np_interp left_ips (np_arange (List.length flux)) x /\
  w_sigma w = w_fwhm w / 2.355 /\
  results (mask_line x flux l st)
  = results st ++ [mkResult (line l) (restframe_wavelength l)
                            (observed_wavelength l) (w_fwhm w) (peak_flux l)] /\
  continuum_mask (mask_line x flux l st)
  = and_not (continuum_mask st)
            (between (observed_wavelength l - w_fwhm w / 2 - 3 * (w_fwhm w / 2.355))
                     (observed_wavelength l + w_fwhm w / 2 + 3 * (w_fwhm w / 2.355))
                     x).
Proof.
  pose proof (mask_line_results x flux l st) as R.
  pose proof (mask_line_continuum x flux l st) as C.
  destruct (measure_sigma x flux l) as (Es & E1 & E2).
  rewrite E1, E2, Es in C. clear E1 E2.
  unfold Detector.measure in *.
  destruct (peak_widths flux (peak_idx l) 0.5) as [[[widths heights] left_ips] right_ips].
  simpl in *. repeat split; assumption.
Qed.

End MaskFacts.

Lemma C7_lines_excluded_from_continuum_witness :
  nth_error
    (continuum_mask
       (mask_loop Reference.peak_widths Reference.interp Reference.sqrt
                  Reference.random_normal Examples.spectrum_x Examples.spectrum_y
                  [Examples.oiii_matched] (initial_state Examples.spectrum_y)))
    8
  = Some false.
Proof.
  eapply (proj1 (C7_lines_excluded_from_continuum
                   Reference.peak_widths Reference.interp Reference.sqrt
                   Reference.random_normal Examples.spectrum_x Examples.spectrum_y
                   eq_refl)
                [Examples.oiii_matched] _ 8%nat 5008).
  - vm_compute. left. reflexivity.
  - reflexivity.
  - split; vm_compute; discriminate.
Defined.

(** C7 as stated fails: with the sigma of the specification, the width over
    2.3548, the interval of the line at 5008 ends at 5011.10448..; the
    detector masks up to 5011.10429.. and keeps the sample at 5011.1044, which
    lies between the two, as continuum. *)
Lemma C7_sample_in_stated_window_kept :
  exists st r,
    analyze_state Reference.find_peaks Reference.peak_widths Reference.interp
                  Reference.sqrt Reference.random_normal
                  Examples.sliver_x Examples.sliver_y
                  [("OIII", Examples.oiii_entry)] 20 = Ok st /\
    results st = [r] /\
    fwhm r == 1.75 /\
    nth_error Examples.sliver_x 11 = Some 5011.1044 /\
    stated_line_window r 5011.1044 /\
    ~ in_line_window r 5011.1044 /\
    nth_error (continuum_mask st) 11 = Some true.
Proof.
  eexists _, _. split; [vm_compute; reflexivity|].
  split; [reflexivity|]. split; [vm_compute; reflexivity|].
  split; [reflexivity|]. split; [split; vm_compute; discriminate|].
  split; [|reflexivity].
  intros [_ H]. vm_compute in H. apply H. reflexivity.
Qed.

(** On the example spectrum the width at half maximum is 1.75 samples, that is
    1.75 Angstrom. *)
Example spectrum_fwhm :
  w_fwhm (measure Reference.peak_widths Reference.interp
                  Examples.spectrum_x Examples.spectrum_y Examples.oiii_matched)
  == 1.75.
Proof. vm_compute. reflexivity. Qed.

(** C8 as stated fails: on the example spectrum the sigma of the masking step
    is not the width over 2.3548. *)
Lemma C8_sigma_differs_from_fwhm_over_23548 :
  ~ (w_sigma (measure Reference.peak_widths Reference.interp
                      Examples.spectrum_x Examples.spectrum_y Examples.oiii_matched)
     == w_fwhm (measure Reference.peak_widths Reference.interp
                        Examples.spectrum_x Examples.spectrum_y
                        Examples.oiii_matched) / 2.3548).
Proof. vm_compute. discriminate. Qed.

(** * Properties of the filter *)

Section FilterFacts.

Variable np_sqrt : Q -> Q.
Variable np_log : Q -> Q.

Local Abbreviation snr_of := (Filter.snr_of np_sqrt np_log).
Local Abbreviation local_std := (Filter.local_std np_sqrt np_log).
Local Abbreviation local_mean := (Filter.local_mean np_sqrt np_log).
Local Abbreviation line_details := (Filter.line_details np_sqrt np_log).
Local Abbreviation keeps := (passes np_sqrt np_log).
Local Abbreviation stated_keeps := (stated_passes np_sqrt np_log).

Lemma filter_loop_spec spec range thr ww : forall lines acc,
  filter_loop np_sqrt np_log spec range thr ww lines acc
  = acc ++ map (fun l => line_details l (snr_of spec thr ww l))
               (filter (fun l => in_range range l && keeps spec thr ww l) lines).
Proof.
  induction lines as [|l lines IH]; intros acc; simpl; [rewrite app_nil_r; reflexivity|].
  rewrite IH. unfold filter_line, in_range, passes. destruct range as [lo hi].
  simpl fst. simpl snd.
  destruct (Qle_bool lo (res_observed_wavelength l)
            && Qle_bool (res_observed_wavelength l) hi); simpl; [|reflexivity].
  destruct (ge_opt (snr_of spec thr ww l) thr || Qlt_bool (3 * thr) (res_peak_flux l));
    simpl; [rewrite <- app_assoc|]; reflexivity.
Qed.

Lemma Qle_bool_refl a : Qle_bool a a = true.
Proof. apply Qle_bool_iff, Qle_refl. Qed.

(** C4 as the code has it: the output holds, in order, the details of the
    lines that lie in the wavelength range and have SNR >= threshold or
    peak_flux > 3 threshold, where the SNR is the ratio
    (peak_flux - local_mean) / local_std when local_std is greater than zero
    and is the threshold itself otherwise, that is when local_std is zero or
    undefined; in the latter case the line passes.  With local_std defined and
    not negative this is the test as the specification words it. *)
Theorem C4_filter_keeps_significant_lines (lines : list LineResult)
    (continuum_spec0 : list (Q * Q)) (wavelength_range : Q * Q)
    (noise_threshold window_width : Q) :
  filter_and_prepare_linelist np_sqrt np_log lines continuum_spec0
                              wavelength_range noise_threshold window_width
  = map (fun l => line_details l (snr_of continuum_spec0 noise_threshold window_width l))
        (filter (fun l => in_range wavelength_range l
                          && keeps continuum_spec0 noise_threshold window_width l)
                lines) /\
  (forall l s,
      local_std continuum_spec0 window_width l = Some s -> 0 < s ->
      snr_of continuum_spec0 noise_threshold window_width l
      = ratio (res_peak_flux l) (local_mean continuum_spec0 window_width l) (Some s)) /\
  (forall l,
      positive (local_std continuum_spec0 window_width l) = false ->
      snr_of continuum_spec0 noise_threshold window_width l = Some noise_threshold /\
      keeps continuum_spec0 noise_threshold window_width l = true) /\
  (forall l s,
      local_std continuum_spec0 window_width l = Some s -> 0 <= s ->
      keeps continuum_spec0 noise_threshold window_width l
      = stated_keeps continuum_spec0 noise_threshold window_width l).
Proof.
  split; [unfold filter_and_prepare_linelist; apply filter_loop_spec|].
  split; [|split].
  - intros l s E P. unfold Filter.snr_of. rewrite E. simpl.
    rewrite (proj2 (Qlt_bool_iff 0 s) P). reflexivity.
  - intros l P. unfold passes, Filter.snr_of. rewrite P. simpl.
    rewrite Qle_bool_refl. auto.
  - intros l s E P. unfold passes, stated_passes, stated_snr, Filter.snr_of.
    rewrite E. simpl. destruct (Qeq_bool s 0) eqn:Z.
    + apply Qeq_bool_iff in Z.
      destruct (Qlt_bool 0 s) eqn:L; [|reflexivity].
      apply Qlt_bool_iff in L. rewrite Z in L. discriminate.
    + destruct (Qlt_bool 0 s) eqn:L; [reflexivity|].
      apply Qlt_bool_false in L.
      assert (s == 0) by (apply Qle_antisym; assumption).
      apply Qeq_bool_iff in H. congruence.
Qed.

End FilterFacts.

(** On the flat continuum the line in the middle has a local_std of zero, takes
    the threshold for its SNR and passes. *)
Lemma C4_filter_keeps_significant_lines_witness :
  snr_of Reference.sqrt Reference.log Examples.flat_continuum 1 10
         Examples.middle_line = Some 1 /\
  passes Reference.sqrt Reference.log Examples.flat_continuum 1 10
         Examples.middle_line = true.
Proof.
  apply (proj1 (proj2 (proj2 (C4_filter_keeps_significant_lines
                                Reference.sqrt Reference.log
                                [Examples.middle_line] Examples.flat_continuum
                                (4900, 5100) 1 10)))
               Examples.middle_line).
  vm_compute. reflexivity.
Defined.

(** C4 as stated fails: the right side window of [edge_line] holds no sample,
    its local_std is undefined, not zero, and its peak flux is under three
    times the threshold; the stated test rejects the line, the filter keeps
    it. *)
Lemma C4_edge_line_kept_without_statistics :
  in_range (4900, 5100) Examples.edge_line = true /\
  local_std Reference.sqrt Reference.log Examples.flat_continuum 10
            Examples.edge_line = None /\
  stated_passes Reference.sqrt Reference.log Examples.flat_continuum 1 10
                Examples.edge_line = false /\
  List.length (filter_and_prepare_linelist Reference.sqrt Reference.log
                 [Examples.edge_line] Examples.flat_continuum (4900, 5100) 1 10)
  = 1%nat.
Proof. repeat split; vm_compute; reflexivity. Qed.

(** * Where the bounds invariant holds *)

Lemma within_fin lo p hi :
  within (Fin lo) p (Fin hi) = true <-> lo <= p /\ p <= hi.
Proof.
  unfold within. simpl. rewrite andb_true_iff, !Qle_bool_iff. reflexivity.
Qed.

(** For a line as the filter emits it (bounds two sigma around the wavelength,
    widths between 2.0 and 1.5 sigma) and one component, the vectors that
    [initial_dataframe] builds satisfy the bounds invariant exactly when sigma
    is at least 2.0 and the peak flux is not negative. *)
Lemma initial_bounds_hold_iff (l : FilteredLine) (m : string) (old : Locals) :
  line_model m = true ->
  min_loc l == fl_wavelength l - 2 * sigma l ->
  max_loc l == fl_wavelength l + 2 * sigma l ->
  min_sd l == 2.0 ->
  max_sd l == 1.5 * sigma l ->
  exists p mx mn,
    component_vectors l 1 m old = mkLocals (Some p) (Some mx) (Some mn) /\
    (bounds_hold mn p mx = true <-> 2 <= sigma l /\ 0 <= max_flux l).
Proof.
  intros Hm E1 E2 E3 E4. unfold line_model in Hm. unfold component_vectors.
  change (inject_Z (Z.of_nat 1)) with 1.
  assert (D : max_flux l / 1 == max_flux l)
    by (unfold Qdiv; change (/ 1) with 1; apply Qmult_1_r).
  destruct (String.eqb m "Voigt");
    [|destruct (String.eqb m "Gaussian");
      [|destruct (String.eqb m "Lorentzian"); [|discriminate]]];
    eexists _, _, _; (split; [reflexivity|]);
    cbn [bounds_hold]; rewrite ?andb_true_iff, ?within_fin, D, E1, E2, E3, E4;
    split; intros H; repeat split; lra.
Qed.

Lemma initial_bounds_hold_iff_witness :
  exists p mx mn,
    component_vectors Examples.wide_line 1 "Voigt" no_locals
    = mkLocals (Some p) (Some mx) (Some mn) /\
    (bounds_hold mn p mx = true <->
     2 <= sigma Examples.wide_line /\ 0 <= max_flux Examples.wide_line).
Proof.
  apply (initial_bounds_hold_iff Examples.wide_line "Voigt" no_locals);
    reflexivity.
Defined.

(** The whole chain on the example spectrum: the detector finds the peak at
    5008 with a width of 1.75, the filter keeps it with a sigma under one, and
    the row that [initial_dataframe] builds for it breaks the invariant. *)
Example narrow_peak_through_the_pipeline :
  match analyze_emission_lines Reference.find_peaks Reference.peak_widths
          Reference.interp Reference.sqrt Reference.random_normal
          Examples.spectrum_x Examples.spectrum_y
          [("OIII", Examples.oiii_entry)] 20 with
  | Ok (line_results, Some std_cont, continuum) =>
      match initial_dataframe [("OIII", Examples.oiii_entry)]
              (filter_and_prepare_linelist Reference.sqrt Reference.log
                 line_results continuum (4900, 5100) std_cont 10) None with
      | Ok df => map row_invariant (df_rows df)
      | Raise _ => []
      end
  | _ => []
  end = [false].
Proof. vm_compute. reflexivity. Qed.

(** * Where the new component goes *)

Lemma matching_positions_app line a b : forall k,
  matching_positions line (a ++ b) k
  = matching_positions line a k ++ matching_positions line b (k + List.length a).
Proof.
  induction a as [|r a IH]; intros k; simpl.
  - rewrite Nat.add_0_r. reflexivity.
  - rewrite IH, <- app_assoc. replace (S k + List.length a)%nat
      with (k + S (List.length a))%nat by lia. reflexivity.
Qed.

Lemma last_position_snoc l i : last_position (l ++ [i]) = Ok i.
Proof. unfold last_position. rewrite rev_app_distr. reflexivity. Qed.

(** The index that [update_components] takes for a line is that of the last
    row of the line: a row of the line sits there and none sits further down. *)
Lemma last_position_is_last line : forall rows i,
  last_position (matching_positions line rows 0) = Ok i ->
  (exists r, nth_error rows i = Some r /\ Line_Name r = line) /\
  (forall j r, (i < j)%nat -> nth_error rows j = Some r -> Line_Name r <> line).
Proof.
  induction rows as [|r rows IH] using rev_ind; intros i H; [discriminate|].
  rewrite matching_positions_app in H. simpl in H.
  destruct (String.eqb (Line_Name r) line) eqn:E.
  - simpl in H. rewrite last_position_snoc in H. injection H as <-. split.
    + exists r. rewrite nth_error_app2, Nat.sub_diag by lia.
      split; [reflexivity|apply String.eqb_eq, E].
    + intros j r' L N.
      assert (nth_error (rows ++ [r]) j = None)
        by (apply nth_error_None; rewrite length_app; simpl; lia).
      congruence.
  - simpl in H. rewrite app_nil_r in H. destruct (IH i H) as ((r0 & N0 & L0) & After).
    assert (Hi : (i < List.length rows)%nat) by (apply nth_error_Some; congruence).
    split.
    + exists r0. rewrite nth_error_app1 by exact Hi. auto.
    + intros j r' L N. destruct (Nat.lt_ge_cases j (List.length rows)) as [J|J].
      * rewrite nth_error_app1 in N by exact J. apply (After j r' L N).
      * rewrite nth_error_app2 in N by exact J.
        destruct (j - List.length rows)%nat as [|n]; simpl in N.
        -- injection N as <-. apply String.eqb_neq, E.
        -- destruct n; discriminate.
Qed.

(** An addition for a line of the table inserts one row right after the last
    row of that line: the component number is one greater, the model is the
    requested one, and the parameters are the first three of that last row
    with the second halved. *)
Lemma add_component_inserts df line m more :
  existsb (fun r => String.eqb (Line_Name r) line) (df_rows df) = true ->
  (forall r, In r (df_rows df) -> (3 <= List.length (Parameters r))%nat) ->
  exists i last_row p0 p1 p2 ps,
    nth_error (df_rows df) i = Some last_row /\
    Line_Name last_row = line /\
    (forall j r, (i < j)%nat -> nth_error (df_rows df) j = Some r ->
                 Line_Name r <> line) /\
    Parameters last_row = p0 :: p1 :: p2 :: ps /\
    add_component df line (m :: more)
    = ([("Adding a " ++ m ++ " component for " ++ line)%string],
       Ok (mkDataFrame (df_columns df)
             (firstn (S i) (df_rows df)
              ++ [mkRow line m (Component last_row + 1) [p0; p1 / 2; p2]
                        None None None]
              ++ skipn (S i) (df_rows df)))).
Proof.
  intros P L3. unfold add_component. rewrite P.
  destruct (last_position_in _ (matching_positions_present line (df_rows df) 0 P))
    as (i & Ei & _).
  destruct (last_position_is_last line (df_rows df) i Ei) as ((last_row & N & Ln) & After).
  specialize (L3 last_row (nth_error_In _ _ N)).
  destruct (Parameters last_row) as [|p0 [|p1 [|p2 ps]]] eqn:EP; simpl in L3; try lia.
  exists i, last_row, p0, p1, p2, ps. repeat split; auto.
  change (getitem (m :: more) 0) with (Ok m). rewrite bind_lift_ok.
  unfold bind at 1, print. rewrite Ei, bind_lift_ok.
  unfold getitem at 1. rewrite N, bind_lift_ok, EP.
  change (getitem (p0 :: p1 :: p2 :: ps) 0) with (Ok p0).
  change (getitem (p0 :: p1 :: p2 :: ps) 1) with (Ok p1).
  change (getitem (p0 :: p1 :: p2 :: ps) 2) with (Ok p2).
  rewrite !bind_lift_ok. reflexivity.
Qed.

(** * Further properties of minmaxlim *)

Lemma bind_eq {A B} (out : list string) (a : A) (k : A -> Py B) :
  bind (out, Ok a) k = (out ++ fst (k a), snd (k a)).
Proof. unfold bind. destruct (k a). reflexivity. Qed.

Lemma bind_raise {A B} (out : list string) (e : exn) (k : A -> Py B) :
  bind (out, @Raise A e) k = (out, Raise e).
Proof. reflexivity. Qed.

Lemma limits_loop_app rows a : forall b st,
  limits_loop rows (a ++ b) st
  = bind (limits_loop rows a st) (fun st' => limits_loop rows b st').
Proof.
  induction a as [|r a IH]; intros b st; cbn [limits_loop app].
  - unfold ret. rewrite bind_eq. simpl. destruct (limits_loop rows b st); reflexivity.
  - destruct (limits_body rows r st) as [out [st1|e]].
    + rewrite !bind_eq, IH.
      destruct (limits_loop rows a st1) as [out1 [st2|e]].
      * rewrite !bind_eq. cbn [fst snd]. rewrite !bind_eq. cbn [fst snd].
        rewrite app_assoc. reflexivity.
      * reflexivity.
    + reflexivity.
Qed.

(** One turn of the loop on a row with an unknown model, the locals assigned. *)
Lemma limits_body_unknown rows r st mn mx :
  known_model (Model r) = false ->
  long_enough r = true ->
  cur_min st = Some mn -> cur_max st = Some mx ->
  limits_body rows r st
  = (["Model not defined."],
     Ok (mkLimState (Some mn) (Some mx)
                    (min_limits st ++ [mn]) (max_limits st ++ [mx]))).
Proof.
  intros K L Emn Emx. unfold limits_body. unfold long_enough in L.
  apply Nat.leb_le in L.
  destruct (Parameters r) as [|p0 [|p1 [|p2 ps]]]; simpl in L; try lia.
  change (getitem (p0 :: p1 :: p2 :: ps) 0) with (Ok p0).
  change (getitem (p0 :: p1 :: p2 :: ps) 1) with (Ok p1).
  change (getitem (p0 :: p1 :: p2 :: ps) 2) with (Ok p2).
  rewrite !bind_lift_ok. unfold known_model in K.
  repeat (apply orb_false_iff in K as [K ?]).
  rewrite K, H1, H0, H.
  change (bind (print "Model not defined.") (fun _ : unit => ret st))
    with (["Model not defined."], @Ok LimState st).
  rewrite bind_eq, Emn, Emx. reflexivity.
Qed.

Lemma limits_loop_carried rows : forall todo st mn mx,
  forallb long_enough todo = true ->
  cur_min st = Some mn -> cur_max st = Some mx ->
  exists cm cx,
    limits_loop rows todo st
    = (model_messages todo,
       Ok (mkLimState cm cx
             (min_limits st ++ map fst (carried rows todo (mn, mx)))
             (max_limits st ++ map snd (carried rows todo (mn, mx))))).
Proof.
  induction todo as [|r todo IH]; intros st mn mx L Emn Emx; simpl.
  - exists (cur_min st), (cur_max st). rewrite !app_nil_r. destruct st; reflexivity.
  - simpl in L. apply andb_true_iff in L as [Lr L].
    destruct (known_model (Model r)) eqn:K.
    + rewrite (limits_body_known rows r st K (proj1 (Nat.leb_le _ _) Lr)).
      destruct (IH (mkLimState (Some (row_min r)) (Some (row_max rows r))
                      (min_limits st ++ [row_min r])
                      (max_limits st ++ [row_max rows r]))
                   (row_min r) (row_max rows r) L eq_refl eq_refl)
        as (cm & cx & E).
      rewrite bind_eq, E. simpl. rewrite <- !app_assoc. eauto.
    + rewrite (limits_body_unknown rows r st mn mx K Lr Emn Emx).
      destruct (IH (mkLimState (Some mn) (Some mx)
                      (min_limits st ++ [mn]) (max_limits st ++ [mx]))
                   mn mx L eq_refl eq_refl)
        as (cm & cx & E).
      rewrite bind_eq, E. simpl. rewrite <- !app_assoc. eauto.
Qed.

(** The vectors carried through a table do not depend on the start when the
    first row has a known model. *)
Lemma carried_known_head rows r rest cur cur' :
  known_model (Model r) = true ->
  carried rows (r :: rest) cur = carried rows (r :: rest) cur'.
Proof. intros K. simpl. rewrite K. reflexivity. Qed.

Lemma carried_length rows : forall todo cur,
  List.length (carried rows todo cur) = List.length todo.
Proof. induction todo as [|r todo IH]; intros cur; simpl; [|rewrite IH]; reflexivity. Qed.

Lemma carried_nth rows : forall todo cur i r,
  nth_error todo i = Some r ->
  (known_model (Model r) = true ->
   nth_error (carried rows todo cur) i = Some (row_min r, row_max rows r)) /\
  (known_model (Model r) = false ->
   nth_error (carried rows todo cur) i
   = match i with
     | O => Some cur
     | S j => nth_error (carried rows todo cur) j
     end).
Proof.
  induction todo as [|r0 todo IH]; intros cur [|i] r N; simpl in N; try discriminate.
  - injection N as ->. simpl. split; intros K; rewrite K; reflexivity.
  - simpl.
    destruct (IH (if known_model (Model r0) then (row_min r0, row_max rows r0) else cur)
                 i r N) as [A B].
    split; [exact A|].
    intros K. rewrite (B K). destruct i; reflexivity.
Qed.

(** X1: [minmaxlim] returns as soon as every row has three parameters and the
    first row has a known model.  It then gives one min and one max vector per
    row, prints one message per row with an unknown model, gives a row with a
    known model the vectors of the rule and a row with an unknown model the
    very vectors of the row above it. *)
Theorem minmaxlim_returns_and_carries (columns : list string) (first : Row)
    (others : list Row) :
  let rows := first :: others in
  known_model (Model first) = true ->
  forallb long_enough rows = true ->
  exists mins maxs,
    minmaxlim (mkDataFrame columns rows)
    = (model_messages rows, Ok (mins, maxs)) /\
    List.length mins = List.length rows /\
    List.length maxs = List.length rows /\
    (forall i r, nth_error rows i = Some r -> known_model (Model r) = true ->
                 nth_error mins i = Some (row_min r) /\
                 nth_error maxs i = Some (row_max rows r)) /\
    (forall i r, nth_error rows (S i) = Some r -> known_model (Model r) = false ->
                 nth_error mins (S i) = nth_error mins i /\
                 nth_error maxs (S i) = nth_error maxs i).
Proof.
  intros rows K L. unfold minmaxlim. cbn [df_rows].
  pose proof L as L'. simpl in L'. apply andb_true_iff in L' as [Lf Lo].
  set (cur := (row_min first, row_max rows first)).
  assert (E : exists cm cx,
             limits_loop rows rows (mkLimState None None [] [])
             = (model_messages rows,
                Ok (mkLimState cm cx (map fst (carried rows rows cur))
                               (map snd (carried rows rows cur))))).
  { unfold rows at 2 4. cbn [limits_loop].
    rewrite (limits_body_known rows first _ K (proj1 (Nat.leb_le _ _) Lf)).
    cbn [min_limits max_limits].
    destruct (limits_loop_carried rows others
                (mkLimState (Some (row_min first)) (Some (row_max rows first))
                            ([] ++ [row_min first]) ([] ++ [row_max rows first]))
                (row_min first) (row_max rows first) Lo eq_refl eq_refl)
      as (cm & cx & E).
    rewrite bind_eq, E. exists cm, cx. unfold model_messages, rows. simpl.
    rewrite K. reflexivity. }
  destruct E as (cm & cx & E). clearbody cur. clearbody rows.
  rewrite E, bind_eq. unfold ret. cbn [fst snd min_limits max_limits].
  rewrite app_nil_r.
  eexists _, _. split; [reflexivity|].
  rewrite !length_map, carried_length.
  split; [reflexivity|]. split; [reflexivity|]. split.
  - intros i r N Kr. rewrite !nth_error_map.
    rewrite (proj1 (carried_nth rows rows cur i r N) Kr). split; reflexivity.
  - intros i r N Kr. rewrite !nth_error_map.
    rewrite (proj2 (carried_nth rows rows cur (S i) r N) Kr). split; reflexivity.
Qed.

Lemma minmaxlim_returns_and_carries_witness :
  exists mins maxs,
    minmaxlim (mkDataFrame initial_columns
                 [mkRow "Hbeta" "Gaussian" 1 [4861; 20; 3] None None None;
                  mkRow "Halpha" "Asymmetric Gaussian" 1 [6563; 50; 3; 1]
                        None None None])
    = (["Model not defined."], Ok (mins, maxs)) /\
    nth_error mins 1 = nth_error mins 0 /\ nth_error maxs 1 = nth_error maxs 0.
Proof.
  destruct (minmaxlim_returns_and_carries initial_columns
              (mkRow "Hbeta" "Gaussian" 1 [4861; 20; 3] None None None)
              [mkRow "Halpha" "Asymmetric Gaussian" 1 [6563; 50; 3; 1]
                     None None None] eq_refl eq_refl)
    as (mins & maxs & E & _ & _ & _ & S).
  exists mins, maxs. split; [exact E|].
  apply (S 0%nat (mkRow "Halpha" "Asymmetric Gaussian" 1 [6563; 50; 3; 1]
                        None None None)); reflexivity.
Defined.

(** X2: a row with fewer than three parameters stops [minmaxlim] with an
    [IndexError], wherever it stands below rows that are in order; the
    messages of the rows above it have been printed. *)
Theorem minmaxlim_short_row_raises (columns : list string) (above : list Row)
    (short : Row) (below : list Row) :
  match above with
  | first :: _ => known_model (Model first) = true
  | [] => True
  end ->
  forallb long_enough above = true ->
  long_enough short = false ->
  minmaxlim (mkDataFrame columns (above ++ short :: below))
  = (model_messages above, Raise IndexError).
Proof.
  intros K L S. unfold minmaxlim. cbn [df_rows].
  set (rows := above ++ short :: below).
  assert (B : forall st, limits_body rows short st = ([], Raise IndexError)).
  { intros st. unfold limits_body, long_enough in *.
    apply Nat.leb_gt in S.
    destruct (Parameters short) as [|p0 [|p1 [|p2 ps]]]; simpl in S; try lia;
      reflexivity. }
  unfold rows at 2. rewrite limits_loop_app. clearbody rows.
  destruct above as [|first above].
  - simpl. rewrite B. reflexivity.
  - simpl in L. apply andb_true_iff in L as [Lf Lo]. cbn [limits_loop].
    rewrite (limits_body_known rows first _ K (proj1 (Nat.leb_le _ _) Lf)).
    cbn [min_limits max_limits].
    destruct (limits_loop_carried rows above
                (mkLimState (Some (row_min first)) (Some (row_max rows first))
                            ([] ++ [row_min first]) ([] ++ [row_max rows first]))
                (row_min first) (row_max rows first) Lo eq_refl eq_refl)
      as (cm & cx & E).
    rewrite bind_eq, E. cbn [fst snd]. rewrite bind_eq. cbn [limits_loop].
    rewrite B. simpl. unfold model_messages. simpl. rewrite K.
    rewrite !app_nil_r. reflexivity.
Qed.

Lemma minmaxlim_short_row_raises_witness :
  minmaxlim (mkDataFrame initial_columns
               ([mkRow "Hbeta" "Gaussian" 1 [4861; 20; 3] None None None]
                ++ mkRow "Halpha" "Gaussian" 1 [6563; 50] None None None :: []))
  = ([], Raise IndexError).
Proof.
  apply (minmaxlim_short_row_raises initial_columns
           [mkRow "Hbeta" "Gaussian" 1 [4861; 20; 3] None None None]
           (mkRow "Halpha" "Gaussian" 1 [6563; 50] None None None) []);
    reflexivity.
Defined.

(** * Where the recomputed bounds hold *)

Lemma amplitude_factor_ge_1 rows r :
  (1 <= Component r)%Z -> 1 <= amplitude_factor rows r.
Proof.
  intros C. unfold amplitude_factor.
  destruct (Component r =? 1)%Z eqn:E1.
  - destruct (1 <? count_name rows (Line_Name r))%nat; lra.
  - destruct (Component r =? 2)%Z eqn:E2; [lra|].
    apply Z.eqb_neq in E1, E2. apply Qpower_1_le; [lra|lia].
Qed.

Lemma ceiling_holds a f : 1 <= f -> (0 <= a /\ a <= a * f <-> 0 <= a).
Proof. intros F. split; [tauto|]. intros A. split; [exact A|nra]. Qed.

(** The closed form of what [minmaxlim] returns on a table in order. *)
Lemma limits_loop_from_start rows first others :
  known_model (Model first) = true ->
  forallb long_enough (first :: others) = true ->
  exists cm cx,
    limits_loop rows (first :: others) (mkLimState None None [] [])
    = (model_messages (first :: others),
       Ok (mkLimState cm cx
             (map fst (carried rows (first :: others) ([], [])))
             (map snd (carried rows (first :: others) ([], []))))).
Proof.
  intros K L. simpl in L. apply andb_true_iff in L as [Lf Lo].
  cbn [limits_loop carried]. rewrite K.
  rewrite (limits_body_known rows first _ K (proj1 (Nat.leb_le _ _) Lf)).
  cbn [min_limits max_limits].
  destruct (limits_loop_carried rows others
              (mkLimState (Some (row_min first)) (Some (row_max rows first))
                          ([] ++ [row_min first]) ([] ++ [row_max rows first]))
              (row_min first) (row_max rows first) Lo eq_refl eq_refl)
    as (cm & cx & E).
  rewrite bind_eq, E. exists cm, cx.
  unfold model_messages. cbn [flat_map fst snd min_limits max_limits map app].
  rewrite K. reflexivity.
Qed.

Lemma minmaxlim_carried columns first others :
  known_model (Model first) = true ->
  forallb long_enough (first :: others) = true ->
  minmaxlim (mkDataFrame columns (first :: others))
  = (model_messages (first :: others),
     Ok (map fst (carried (first :: others) (first :: others) ([], [])),
         map snd (carried (first :: others) (first :: others) ([], [])))).
Proof.
  intros K L. unfold minmaxlim. cbn [df_rows].
  destruct (limits_loop_from_start (first :: others) first others K L)
    as (cm & cx & E).
  rewrite E, bind_eq. unfold ret. cbn [fst snd min_limits max_limits].
  rewrite app_nil_r. reflexivity.
Qed.

(** X3: on a table in order, the bounds that [minmaxlim] returns for a row of
    component 1 or more hold around its parameters exactly in these cases: a
    Gaussian row [centroid, amplitude, sigma] when sigma >= 2.0 and the
    amplitude is not negative; a Lorentzian row when its width is at least
    1.11 * 2.0; a Voigt row [centroid, amplitude, sigma, gamma] when moreover
    gamma lies between 1.11 * 2.0 and 1.11 * 1.5 sigma. *)
Theorem recomputed_bounds_hold_iff (columns : list string) (first : Row)
    (others : list Row) (i : nat) (r : Row) (mins maxs : list (list bound))
    (log : list string) (mn mx : list bound) :
  known_model (Model first) = true ->
  forallb long_enough (first :: others) = true ->
  minmaxlim (mkDataFrame columns (first :: others)) = (log, Ok (mins, maxs)) ->
  nth_error (first :: others) i = Some r ->
  nth_error mins i = Some mn -> nth_error maxs i = Some mx ->
  (1 <= Component r)%Z ->
  (forall c a s, Model r = "Gaussian" -> Parameters r = [c; a; s] ->
     (bounds_hold mn (Parameters r) mx = true <-> 2 <= s /\ 0 <= a)) /\
  (forall c a g, Model r = "Lorentzian" -> Parameters r = [c; a; g] ->
     (bounds_hold mn (Parameters r) mx = true <-> 1.11 * 2.0 <= g /\ 0 <= a)) /\
  (forall c a s g, Model r = "Voigt" -> Parameters r = [c; a; s; g] ->
     (bounds_hold mn (Parameters r) mx = true
      <-> 2 <= s /\ 1.11 * 2.0 <= g /\ g <= 1.11 * (1.5 * s) /\ 0 <= a)).
Proof.
  intros K L E N Nmn Nmx C.
  rewrite (minmaxlim_carried columns first others K L) in E.
  assert (Hm : mins = map fst (carried (first :: others) (first :: others) ([], [])))
    by congruence.
  assert (Hx : maxs = map snd (carried (first :: others) (first :: others) ([], [])))
    by congruence.
  subst mins maxs. clear E.
  rewrite nth_error_map in Nmn, Nmx.
  pose proof (amplitude_factor_ge_1 (first :: others) r C) as F.
  split; [|split]; intros; (
    assert (Kr : known_model (Model r) = true)
      by (unfold known_model; rewrite H; reflexivity);
    rewrite (proj1 (carried_nth _ _ ([], []) i r N) Kr) in Nmn, Nmx;
    simpl in Nmn, Nmx; injection Nmn as <-; injection Nmx as <-;
    unfold row_min, row_max, unified_min, unified_max;
    rewrite H0, H; cbn [String.eqb Ascii.eqb Bool.eqb bounds_hold];
    rewrite ?andb_true_iff, ?within_fin;
    pose proof (ceiling_holds a _ F) as Ce;
    split; intros H1;
    [ decompose [and] H1; repeat split; lra
    | destruct (proj2 Ce) as [_ A']; [lra|];
      decompose [and] H1; repeat split; lra ]).
Qed.

Lemma recomputed_bounds_hold_iff_witness :
  bounds_hold [Fin (6563 - 2 * 3); Fin 0; Fin 2.0] [6563; 50; 3]
              [Fin (6563 + 2 * 3); Fin (50 * 1); Fin (1.5 * 3)] = true
  <-> 2 <= 3 /\ 0 <= 50.
Proof.
  apply (proj1 (recomputed_bounds_hold_iff initial_columns
                  (mkRow "Halpha" "Gaussian" 1 [6563; 50; 3] None None None) []
                  0%nat (mkRow "Halpha" "Gaussian" 1 [6563; 50; 3] None None None)
                  [[Fin (6563 - 2 * 3); Fin 0; Fin 2.0]]
                  [[Fin (6563 + 2 * 3); Fin (50 * 1); Fin (1.5 * 3)]] []
                  [Fin (6563 - 2 * 3); Fin 0; Fin 2.0]
                  [Fin (6563 + 2 * 3); Fin (50 * 1); Fin (1.5 * 3)]
                  eq_refl eq_refl eq_refl eq_refl eq_refl eq_refl
                  ltac:(simpl; lia))
               6563 50 3 eq_refl eq_refl).
Defined.

(** * Further properties of update_components *)

Lemma bind_ok_inv {A B} (c : Py A) (k : A -> Py B) log b :
  bind c k = (log, Ok b) ->
  exists l1 a l2, c = (l1, Ok a) /\ k a = (l2, Ok b) /\ log = l1 ++ l2.
Proof.
  destruct c as [l1 [a|e]]; simpl; [|discriminate].
  destruct (k a) as [l2 r] eqn:E. intros H. injection H as <- ->.
  exists l1, a, l2. auto.
Qed.

Lemma lift_ok_inv {A} (c : result A) l a : lift c = (l, Ok a) -> c = Ok a /\ l = [].
Proof. unfold lift. intros H. injection H as <- ->. auto. Qed.

Lemma getitem_ok_inv {A} (l : list A) i a : getitem l i = Ok a -> nth_error l i = Some a.
Proof. unfold getitem. destruct (nth_error l i); congruence. Qed.

Lemma add_component_run df line m more i last_row p0 p1 p2 ps :
  present (df_rows df) line = true ->
  last_position (matching_positions line (df_rows df) 0) = Ok i ->
  nth_error (df_rows df) i = Some last_row ->
  Parameters last_row = p0 :: p1 :: p2 :: ps ->
  add_component df line (m :: more)
  = ([("Adding a " ++ m ++ " component for " ++ line)%string],
     Ok (mkDataFrame (df_columns df)
           (firstn (S i) (df_rows df)
            ++ [mkRow line m (Component last_row + 1) [p0; p1 / 2; p2]
                      None None None]
            ++ skipn (S i) (df_rows df)))).
Proof.
  intros P Ei N EP. unfold add_component. unfold present in P. rewrite P.
  change (getitem (m :: more) 0) with (Ok m). rewrite bind_lift_ok.
  unfold bind at 1, print. rewrite Ei, bind_lift_ok.
  unfold getitem at 1. rewrite N, bind_lift_ok, EP.
  change (getitem (p0 :: p1 :: p2 :: ps) 0) with (Ok p0).
  change (getitem (p0 :: p1 :: p2 :: ps) 1) with (Ok p1).
  change (getitem (p0 :: p1 :: p2 :: ps) 2) with (Ok p2).
  rewrite !bind_lift_ok. reflexivity.
Qed.

(** What a successful turn of the loop over the additions has done. *)
Lemma add_component_inv df line comps log df' :
  add_component df line comps = (log, Ok df') ->
  log = [report (df_rows df) (line, comps)] /\
  ((present (df_rows df) line = false /\ df' = df) \/
   (present (df_rows df) line = true /\
    exists m more i last_row p0 p1 p2 ps,
      comps = m :: more /\
      nth_error (df_rows df) i = Some last_row /\
      Line_Name last_row = line /\
      (forall j r, (i < j)%nat -> nth_error (df_rows df) j = Some r ->
                   Line_Name r <> line) /\
      Parameters last_row = p0 :: p1 :: p2 :: ps /\
      df' = mkDataFrame (df_columns df)
              (firstn (S i) (df_rows df)
               ++ [mkRow line m (Component last_row + 1) [p0; p1 / 2; p2]
                         None None None]
               ++ skipn (S i) (df_rows df)))).
Proof.
  intros H. unfold report. cbn [fst snd].
  destruct (present (df_rows df) line) eqn:P.
  2:{ unfold add_component in H. unfold present in P. rewrite P in H.
      simpl in H. injection H as <- <-. auto. }
  pose proof H as H0. unfold add_component in H. pose proof P as P'.
  unfold present in P'. rewrite P' in H.
  apply bind_ok_inv in H as (l1 & c0 & l2 & E0 & H & _).
  apply lift_ok_inv in E0 as [E0 _]. apply getitem_ok_inv in E0.
  destruct comps as [|m more]; [discriminate|]. simpl in E0. injection E0 as ->.
  apply bind_ok_inv in H as (l3 & [] & l4 & _ & H & _).
  apply bind_ok_inv in H as (l5 & i & l6 & Ei & H & _).
  apply lift_ok_inv in Ei as [Ei _].
  apply bind_ok_inv in H as (l7 & last_row & l8 & El & H & _).
  apply lift_ok_inv in El as [El _]. apply getitem_ok_inv in El.
  apply bind_ok_inv in H as (l9 & p0 & l10 & E0 & H & _).
  apply lift_ok_inv in E0 as [E0 _]. apply getitem_ok_inv in E0.
  apply bind_ok_inv in H as (l11 & p1 & l12 & E1 & H & _).
  apply lift_ok_inv in E1 as [E1 _]. apply getitem_ok_inv in E1.
  apply bind_ok_inv in H as (l13 & p2 & l14 & E2 & _ & _).
  apply lift_ok_inv in E2 as [E2 _]. apply getitem_ok_inv in E2.
  destruct (last_position_is_last line (df_rows df) i Ei) as ((r & N & Ln) & After).
  rewrite El in N. injection N as <-.
  destruct (Parameters last_row) as [|q0 [|q1 [|q2 ps]]] eqn:EP; try discriminate.
  simpl in E0, E1, E2. injection E0 as ->. injection E1 as ->. injection E2 as ->.
  rewrite (add_component_run df line c0 more i last_row p0 p1 p2 ps P Ei El EP) in H0.
  injection H0 as <- <-. split; [reflexivity|]. right. split; [reflexivity|].
  exists c0, more, i, last_row, p0, p1, p2, ps. repeat split; auto.
Qed.

Lemma present_insert rows i new line :
  present rows (Line_Name new) = true ->
  present (firstn i rows ++ [new] ++ skipn i rows) line = present rows line.
Proof.
  intros P. unfold present in *.
  rewrite <- (firstn_skipn i rows) at 3.
  rewrite !existsb_app. simpl.
  destruct (String.eqb (Line_Name new) line) eqn:E; [|rewrite orb_false_l; reflexivity].
  apply String.eqb_eq in E. subst line.
  rewrite <- (firstn_skipn i rows), existsb_app in P.
  destruct (existsb _ (firstn i rows)); [reflexivity|].
  simpl in *. rewrite P. reflexivity.
Qed.

Lemma insert_length (rows : list Row) i new :
  List.length (firstn i rows ++ [new] ++ skipn i rows) = S (List.length rows).
Proof.
  rewrite <- (firstn_skipn i rows) at 3. rewrite !length_app. simpl. lia.
Qed.

(** The loop over the additions: one row more per addition that names a line
    of the table, one printed line per addition, the columns as they were. *)
Lemma additions_loop_inv additions : forall df log df',
  additions_loop df additions = (log, Ok df') ->
  df_columns df' = df_columns df /\
  List.length (df_rows df')
  = (List.length (df_rows df)
     + List.length (filter (fun a => present (df_rows df) (fst a)) additions))%nat /\
  log = map (report (df_rows df)) additions /\
  (forall line, present (df_rows df') line = present (df_rows df) line).
Proof.
  induction additions as [|[line comps] additions IH]; intros df log df' H.
  - simpl in H. unfold ret in H. injection H as <- <-. simpl.
    repeat split; auto.
  - cbn [additions_loop] in H.
    apply bind_ok_inv in H as (l1 & df1 & l2 & E1 & H & ->).
    destruct (IH df1 l2 df' H) as (C & Len & Lg & Pr).
    apply add_component_inv in E1 as [-> E1].
    assert (Same : forall l, present (df_rows df1) l = present (df_rows df) l).
    { intros l. destruct E1 as [[_ ->]|[P E1]]; [reflexivity|].
      destruct E1 as (m & more & i & last & p0 & p1 & p2 & ps & _ & _ & _ & _ & _ & ->).
      cbn [df_rows]. apply present_insert. exact P. }
    assert (F : filter (fun a => present (df_rows df1) (fst a)) additions
                = filter (fun a => present (df_rows df) (fst a)) additions).
    { apply filter_ext. intros a. apply Same. }
    assert (R : map (report (df_rows df1)) additions
                = map (report (df_rows df)) additions).
    { apply map_ext. intros a. unfold report. rewrite Same. reflexivity. }
    rewrite F in Len. rewrite R in Lg. subst l2.
    cbn [filter fst map app].
    split; [|split; [|split; [reflexivity|]]].
    + rewrite C. destruct E1 as [[_ ->]|[_ E1]]; [reflexivity|].
      destruct E1 as (m & more & i & last & p0 & p1 & p2 & ps & _ & _ & _ & _ & _ & ->).
      reflexivity.
    + rewrite Len. destruct E1 as [[P ->]|[P E1]]; rewrite P; [reflexivity|].
      destruct E1 as (m & more & i & last & p0 & p1 & p2 & ps & _ & _ & _ & _ & _ & ->).
      cbn [df_rows]. rewrite insert_length. simpl. lia.
    + intros l. rewrite Pr. apply Same.
Qed.

(** What a successful call of [update_components] went through. *)
Lemma update_components_inv df additions log out :
  update_components df additions = (log, Ok out) ->
  exists dropped inserted mins maxs log2,
    drop_parameter_errors df = Ok dropped /\
    additions_loop dropped additions
    = (map (report (df_rows dropped)) additions, Ok inserted) /\
    minmaxlim inserted = (log2, Ok (mins, maxs)) /\
    log = map (report (df_rows dropped)) additions ++ log2 /\
    out = mkDataFrame
            (with_column "Min Limits" (with_column "Max Limits" (df_columns inserted)))
            (assign_series set_min
               (assign_series set_max (df_rows inserted) maxs) mins).
Proof.
  intros H. unfold update_components in H.
  apply bind_ok_inv in H as (l1 & dropped & l2 & Ed & H & ->).
  apply lift_ok_inv in Ed as [Ed ->].
  apply bind_ok_inv in H as (l3 & inserted & l4 & Ei & H & ->).
  apply bind_ok_inv in H as (l5 & [mins maxs] & l6 & Em & H & ->).
  unfold ret in H. injection H as <- <-.
  pose proof (additions_loop_inv _ _ _ _ Ei) as (_ & _ & -> & _).
  exists dropped, inserted, mins, maxs, l5. rewrite app_nil_r. simpl.
  repeat split; auto.
Qed.

Lemma assign_series_core {A} (set : Row -> option A -> Row) :
  (forall r v, core (set r v) = core r) ->
  forall rows values, map core (assign_series set rows values) = map core rows.
Proof.
  intros S. induction rows as [|r rows IH]; intros values; simpl; [reflexivity|].
  destruct values; simpl; rewrite S, IH; reflexivity.
Qed.

Lemma existsb_filter_out (name : string) (l : list string) :
  existsb (String.eqb name) (filter (fun c => negb (String.eqb name c)) l) = false.
Proof.
  induction l as [|c l IH]; [reflexivity|]. simpl.
  destruct (String.eqb name c) eqn:E; simpl; [exact IH|].
  rewrite E. exact IH.
Qed.

Lemma drop_parameter_errors_inv df dropped :
  drop_parameter_errors df = Ok dropped ->
  has_column "Parameter Errors" df = true /\
  has_column "Parameter Errors" dropped = false /\
  map core (df_rows dropped) = map core (df_rows df).
Proof.
  unfold drop_parameter_errors, has_column.
  destruct (existsb (String.eqb "Parameter Errors") (df_columns df)) eqn:E;
    [|discriminate].
  intros H. injection H as <-. cbn [df_columns df_rows].
  split; [reflexivity|]. split; [apply existsb_filter_out|].
  rewrite map_map. reflexivity.
Qed.

Lemma with_column_has other column columns :
  String.eqb other column = false ->
  existsb (String.eqb other) (with_column column columns)
  = existsb (String.eqb other) columns.
Proof.
  intros N. unfold with_column.
  destruct (existsb (String.eqb column) columns); [reflexivity|].
  rewrite existsb_app. simpl. rewrite N. rewrite !orb_false_r. reflexivity.
Qed.

Lemma with_column_in column columns :
  existsb (String.eqb column) (with_column column columns) = true.
Proof.
  unfold with_column.
  destruct (existsb (String.eqb column) columns) eqn:E; [exact E|].
  rewrite existsb_app. simpl. rewrite String.eqb_refl. apply orb_true_r.
Qed.

(** X4: a table that [update_components] returns has the two bound columns and
    no column 'Parameter Errors'; handed to [update_components] again as it is,
    it raises the [KeyError].  It holds one row more than the input per
    addition that names a line of the input, and one line was printed per
    addition, applied or not, before the messages of [minmaxlim]. *)
Theorem update_components_output (df : DataFrame)
    (additions : list (string * list string)) (log : list string)
    (out : DataFrame) :
  update_components df additions = (log, Ok out) ->
  has_column "Parameter Errors" out = false /\
  has_column "Max Limits" out = true /\
  has_column "Min Limits" out = true /\
  (forall more, update_components out more = no_errors_column) /\
  List.length (df_rows out)
  = (List.length (df_rows df)
     + List.length (filter (fun a => present (df_rows df) (fst a)) additions))%nat /\
  firstn (List.length additions) log = map (report (df_rows df)) additions.
Proof.
  intros H.
  apply update_components_inv in H
    as (dropped & ins & mins & maxs & log2 & Ed & Ei & Em & -> & ->).
  apply drop_parameter_errors_inv in Ed as (_ & Hd & Cd).
  destruct (additions_loop_inv _ _ _ _ Ei) as (C & Len & _ & _).
  assert (Pd : forall l, present (df_rows dropped) l = present (df_rows df) l).
  { intros l. unfold present.
    rewrite <- (map_id (df_rows dropped)), <- (map_id (df_rows df)).
    transitivity (existsb (fun c => String.eqb (fst (fst (fst c))) l)
                          (map core (df_rows dropped))).
    - rewrite map_id. clear. induction (df_rows dropped) as [|r rs IH];
        [reflexivity|]. simpl. rewrite IH. reflexivity.
    - rewrite Cd, map_id. clear. induction (df_rows df) as [|r rs IH];
        [reflexivity|]. simpl. rewrite IH. reflexivity. }
  assert (NoErr : has_column "Parameter Errors"
                    (mkDataFrame
                       (with_column "Min Limits"
                          (with_column "Max Limits" (df_columns ins)))
                       (assign_series set_min
                          (assign_series set_max (df_rows ins) maxs) mins))
                  = false).
  { unfold has_column. cbn [df_columns].
    rewrite !with_column_has by reflexivity. rewrite C. exact Hd. }
  split; [exact NoErr|]. unfold has_column. cbn [df_columns df_rows].
  split; [rewrite with_column_has by reflexivity; apply with_column_in|].
  split; [apply with_column_in|].
  split.
  { intros more. unfold update_components, drop_parameter_errors.
    unfold has_column in NoErr. rewrite NoErr. reflexivity. }
  split.
  - assert (L : forall (rows : list Row) A (set : Row -> option A -> Row) values,
               List.length (assign_series set rows values) = List.length rows).
    { clear. intros rows A set. induction rows as [|r rows IH]; intros values;
        simpl; [reflexivity|]. destruct values; simpl; rewrite IH; reflexivity. }
    rewrite !L, Len.
    rewrite <- (length_map core (df_rows dropped)), Cd, length_map.
    f_equal. f_equal. apply filter_ext. intros a. apply Pd.
  - rewrite <- (length_map (report (df_rows dropped)) additions).
    rewrite firstn_app, Nat.sub_diag, firstn_all. simpl. rewrite app_nil_r.
    apply map_ext. intros a. unfold report. rewrite Pd. reflexivity.
Qed.

Lemma update_components_output_witness :
  exists log out,
    update_components Examples.fitted_table
      [("Halpha", ["Lorentzian"]); ("Hgamma", ["Gaussian"])] = (log, Ok out) /\
    List.length (df_rows out) = 4%nat /\
    update_components out [] = no_errors_column /\
    firstn 2 log = ["Adding a Lorentzian component for Halpha";
                    "Hgamma not found in the Spectrum."].
Proof.
  eexists _, _. split; [vm_compute; reflexivity|].
  match goal with
  | |- context [df_rows ?o] =>
      destruct (update_components_output Examples.fitted_table
                  [("Halpha", ["Lorentzian"]); ("Hgamma", ["Gaussian"])]
                  _ o eq_refl) as (_ & _ & _ & Again & Len & Log)
  end.
  split; [exact Len|]. split; [apply Again|exact Log].
Defined.

(** * The rows of a line through update_components *)

Lemma line_rows_app a b n : line_rows (a ++ b) n = line_rows a n ++ line_rows b n.
Proof. unfold line_rows. apply filter_app. Qed.

Lemma line_rows_none rows n :
  (forall r, In r rows -> Line_Name r <> n) -> line_rows rows n = [].
Proof.
  induction rows as [|r rows IH]; intros H; [reflexivity|]. simpl.
  destruct (String.eqb (Line_Name r) n) eqn:E.
  - apply String.eqb_eq in E. exfalso. apply (H r); [left; reflexivity|exact E].
  - apply IH. intros r' I. apply H. right. exact I.
Qed.

(** A table cut at the last row of a line. *)
Lemma split_at_last (rows : list Row) i last_row line :
  nth_error rows i = Some last_row ->
  (forall j r, (i < j)%nat -> nth_error rows j = Some r -> Line_Name r <> line) ->
  exists above below,
    rows = above ++ last_row :: below /\
    firstn (S i) rows = above ++ [last_row] /\
    skipn (S i) rows = below /\
    line_rows below line = [].
Proof.
  intros N After.
  destruct (nth_error_split rows i N) as (above & below & E & L).
  exists above, below. subst rows. split; [reflexivity|].
  assert (F : firstn (S i) (above ++ last_row :: below) = above ++ [last_row]).
  { replace (above ++ last_row :: below) with ((above ++ [last_row]) ++ below)
      by (rewrite <- app_assoc; reflexivity).
    rewrite firstn_app.
    replace (S i - List.length (above ++ [last_row]))%nat with 0%nat
      by (rewrite length_app; cbn [List.length]; lia).
    rewrite firstn_all2 by (rewrite length_app; cbn [List.length]; lia).
    simpl. apply app_nil_r. }
  assert (S' : skipn (S i) (above ++ last_row :: below) = below).
  { replace (above ++ last_row :: below) with ((above ++ [last_row]) ++ below)
      by (rewrite <- app_assoc; reflexivity).
    rewrite skipn_app.
    replace (S i - List.length (above ++ [last_row]))%nat with 0%nat
      by (rewrite length_app; cbn [List.length]; lia).
    rewrite skipn_all2 by (rewrite length_app; cbn [List.length]; lia). reflexivity. }
  split; [exact F|]. split; [exact S'|].
  apply line_rows_none. intros r I.
  apply In_nth_error in I as (k & Nk).
  apply (After (S i + k)%nat r); [lia|].
  rewrite nth_error_app2 by lia.
  replace (S i + k - List.length above)%nat with (S k) by lia. exact Nk.
Qed.

Lemma line_rows_single r n :
  line_rows [r] n = if String.eqb (Line_Name r) n then [r] else [].
Proof. reflexivity. Qed.

Lemma line_rows_insert above last_row below new n :
  line_rows below (Line_Name new) = [] ->
  line_rows ((above ++ [last_row]) ++ [new] ++ below) n
  = line_rows (above ++ last_row :: below) n
    ++ (if String.eqb (Line_Name new) n then [new] else []).
Proof.
  intros B.
  change (above ++ last_row :: below) with (above ++ [last_row] ++ below).
  rewrite !line_rows_app, (line_rows_single new).
  destruct (String.eqb (Line_Name new) n) eqn:E.
  - apply String.eqb_eq in E. subst n. rewrite B, !app_nil_r.
    rewrite <- !app_assoc. reflexivity.
  - rewrite app_nil_r, <- !app_assoc. reflexivity.
Qed.

(** One turn of the loop, seen from one line: the rows of the line stay as
    they are and in place, and the new row, if the line is the one added to,
    comes after them with the next component number. *)
Lemma add_component_line df line comps log df' n :
  add_component df line comps = (log, Ok df') ->
  (line_rows (df_rows df') n = line_rows (df_rows df) n /\
   (String.eqb line n && present (df_rows df) n) = false) \/
  (exists m more before last_row p0 p1 p2 ps,
     line = n /\ present (df_rows df) n = true /\ comps = m :: more /\
     line_rows (df_rows df) n = before ++ [last_row] /\
     Parameters last_row = p0 :: p1 :: p2 :: ps /\
     line_rows (df_rows df') n
     = line_rows (df_rows df) n
       ++ [mkRow n m (Component last_row + 1) [p0; p1 / 2; p2] None None None]).
Proof.
  intros H. apply add_component_inv in H as [_ [[P ->]|[P H]]].
  - left. split; [reflexivity|].
    destruct (String.eqb line n) eqn:E; [|reflexivity].
    apply String.eqb_eq in E. subst n. rewrite P. reflexivity.
  - destruct H as (m & more & i & last & p0 & p1 & p2 & ps & -> & N & Ln & After & EP & ->).
    destruct (split_at_last _ _ _ _ N After) as (above & below & E & F & S' & B).
    cbn [df_rows]. rewrite F, S'.
    set (new := mkRow line m (Component last + 1) [p0; p1 / 2; p2] None None None).
    rewrite (line_rows_insert above last below new n B), <- E.
    cbn [Line_Name new].
    destruct (String.eqb line n) eqn:En.
    + right. apply String.eqb_eq in En. subst n.
      exists m, more, (line_rows above line), last, p0, p1, p2, ps.
      repeat split; auto.
      rewrite E. change (above ++ last :: below) with (above ++ [last] ++ below).
      rewrite !line_rows_app, B, app_nil_r, line_rows_single, Ln, String.eqb_refl.
      reflexivity.
    + left. split; [apply app_nil_r|reflexivity].
Qed.

Lemma add_component_present df line comps log df' :
  add_component df line comps = (log, Ok df') ->
  forall l, present (df_rows df') l = present (df_rows df) l.
Proof.
  intros H l. apply add_component_inv in H as [_ [[_ ->]|[P H]]]; [reflexivity|].
  destruct H as (m & more & i & last & p0 & p1 & p2 & ps & _ & _ & _ & _ & _ & ->).
  cbn [df_rows]. apply present_insert. exact P.
Qed.

Lemma additions_for_ext rows rows' n additions :
  present rows' n = present rows n ->
  additions_for rows' n additions = additions_for rows n additions.
Proof. intros E. unfold additions_for. rewrite E. reflexivity. Qed.

Lemma additions_for_cons rows n a additions :
  additions_for rows n (a :: additions)
  = if String.eqb (fst a) n && present rows n
    then a :: additions_for rows n additions
    else additions_for rows n additions.
Proof. reflexivity. Qed.

Lemma additions_loop_lines additions : forall df log df' n,
  additions_loop df additions = (log, Ok df') ->
  exists added,
    line_rows (df_rows df') n = line_rows (df_rows df) n ++ added /\
    List.length added = List.length (additions_for (df_rows df) n additions) /\
    (forall r, In r added ->
               Line_Name r = n /\
               exists a, In a additions /\ fst a = n /\ hd "" (snd a) = Model r).
Proof.
  induction additions as [|[line comps] additions IH]; intros df log df' n H.
  - simpl in H. unfold ret in H. injection H as _ <-. exists [].
    rewrite app_nil_r. split; [reflexivity|]. split; [reflexivity|]. intros r [].
  - cbn [additions_loop] in H.
    apply bind_ok_inv in H as (l1 & df1 & l2 & E1 & H & _).
    destruct (IH df1 l2 df' n H) as (added1 & L1 & Len1 & In1).
    rewrite (additions_for_ext (df_rows df) (df_rows df1) n additions
               (add_component_present _ _ _ _ _ E1 n)) in Len1.
    destruct (add_component_line df line comps l1 df1 n E1)
      as [[Same Off]|(m & more & before & last & p0 & p1 & p2 & ps & -> & P & -> & _ & _ & New)].
    + exists added1. rewrite L1, Same. split; [reflexivity|]. split.
      * rewrite additions_for_cons. cbn [fst]. rewrite Off. exact Len1.
      * intros r I. destruct (In1 r I) as (Ln & a & Ia & Fa & Ma).
        split; [exact Ln|]. exists a. split; [right; exact Ia|auto].
    + exists (mkRow n m (Component last + 1) [p0; p1 / 2; p2] None None None
              :: added1).
      rewrite L1, New, <- app_assoc. split; [reflexivity|]. split.
      * rewrite additions_for_cons. cbn [fst].
        assert (C : String.eqb n n && present (df_rows df) n = true)
          by (rewrite String.eqb_refl, P; reflexivity).
        rewrite C. simpl. rewrite Len1. reflexivity.
      * intros r [<-|I].
        -- split; [reflexivity|]. exists (n, m :: more).
           split; [left; reflexivity|]. split; reflexivity.
        -- destruct (In1 r I) as (Ln & a & Ia & Fa & Ma).
           split; [exact Ln|]. exists a. split; [right; exact Ia|auto].
Qed.

Lemma line_rows_core a : forall b n,
  map core a = map core b ->
  map core (line_rows a n) = map core (line_rows b n).
Proof.
  induction a as [|r a IH]; intros [|r' b] n H; try discriminate; [reflexivity|].
  simpl in H. injection H as E Hm Hc Hp Hab. simpl.
  assert (Hr : core r = core r') by (unfold core; congruence).
  rewrite E. destruct (String.eqb (Line_Name r') n); simpl;
    rewrite (IH b n Hab); [rewrite Hr|]; reflexivity.
Qed.

Lemma present_line_rows rows n : present rows n = true <-> line_rows rows n <> [].
Proof.
  unfold present, line_rows. induction rows as [|r rows IH]; simpl.
  - split; [discriminate|congruence].
  - destruct (String.eqb (Line_Name r) n); simpl;
      [split; [discriminate|auto]|exact IH].
Qed.

Lemma present_core a b n : map core a = map core b -> present a n = present b n.
Proof.
  intros H. apply (line_rows_core a b n) in H.
  pose proof (present_line_rows a n) as Pa.
  pose proof (present_line_rows b n) as Pb.
  destruct (line_rows a n) as [|ra la], (line_rows b n) as [|rb lb];
    try discriminate.
  - destruct (present a n); [destruct (proj1 Pa eq_refl); reflexivity|].
    destruct (present b n); [destruct (proj1 Pb eq_refl); reflexivity|reflexivity].
  - rewrite (proj2 Pa) by discriminate. rewrite (proj2 Pb) by discriminate.
    reflexivity.
Qed.

(** The rows of a table that [update_components] returns are, apart from the
    bound and error cells, those that the loop over the additions left. *)
Lemma update_components_cores df additions log out :
  update_components df additions = (log, Ok out) ->
  exists dropped inserted log1,
    map core (df_rows dropped) = map core (df_rows df) /\
    additions_loop dropped additions = (log1, Ok inserted) /\
    map core (df_rows out) = map core (df_rows inserted).
Proof.
  intros H. apply update_components_inv in H
    as (dropped & ins & mins & maxs & log2 & Ed & Ei & _ & _ & ->).
  apply drop_parameter_errors_inv in Ed as (_ & _ & Cd).
  exists dropped, ins, (map (report (df_rows dropped)) additions).
  split; [exact Cd|]. split; [exact Ei|]. cbn [df_rows].
  rewrite !assign_series_core by reflexivity. reflexivity.
Qed.

(** X5: through [update_components] every line keeps its rows, unchanged in
    name, model, component and parameters and in their order, and receives
    after them one row per addition that names it, with the model that the
    addition asks for; no other row appears. *)
Theorem update_components_keeps_lines (df : DataFrame)
    (additions : list (string * list string)) (log : list string)
    (out : DataFrame) (n : string) :
  update_components df additions = (log, Ok out) ->
  exists added,
    map core (line_rows (df_rows out) n)
    = map core (line_rows (df_rows df) n) ++ map core added /\
    List.length added = List.length (additions_for (df_rows df) n additions) /\
    (forall r, In r added ->
               Line_Name r = n /\
               exists a, In a additions /\ fst a = n /\ hd "" (snd a) = Model r).
Proof.
  intros H. apply update_components_cores in H as (dropped & ins & log1 & Cd & Ei & Co).
  destruct (additions_loop_lines additions dropped log1 ins n Ei)
    as (added & L & Len & Ia).
  exists added.
  rewrite (line_rows_core _ _ n Co), L, map_app, (line_rows_core _ _ n Cd).
  split; [reflexivity|]. split; [|exact Ia].
  rewrite Len. apply f_equal, additions_for_ext. apply present_core, Cd.
Qed.

Lemma update_components_keeps_lines_witness :
  exists added,
    map core (line_rows
                (df_rows (mkDataFrame initial_columns
                   [mkRow "Halpha" "Gaussian" 1 [6563; 50; 3]
                          (Some [Fin (6563 + 2 * 3); Fin (50 * 1); Fin (1.5 * 3)])
                          (Some [Fin (6563 - 2 * 3); Fin 0; Fin 2.0]) None]))
                "Halpha")
    = map core (line_rows
                  (df_rows (mkDataFrame (initial_columns ++ ["Parameter Errors"])
                     [mkRow "Halpha" "Gaussian" 1 [6563; 50; 3] None None None]))
                  "Halpha")
      ++ map core added /\
    List.length added = 0%nat.
Proof.
  destruct (update_components_keeps_lines
              (mkDataFrame (initial_columns ++ ["Parameter Errors"])
                 [mkRow "Halpha" "Gaussian" 1 [6563; 50; 3] None None None])
              [("Hgamma", ["Voigt"])] ["Hgamma not found in the Spectrum."]
              (mkDataFrame initial_columns
                 [mkRow "Halpha" "Gaussian" 1 [6563; 50; 3]
                        (Some [Fin (6563 + 2 * 3); Fin (50 * 1); Fin (1.5 * 3)])
                        (Some [Fin (6563 - 2 * 3); Fin 0; Fin 2.0]) None])
              "Halpha" eq_refl) as (added & A & B & _).
  exists added. split; [exact A|exact B].
Defined.

(** * The numbering of the components *)

Lemma Z_list_eqb_eq a : forall b, Z_list_eqb a b = true <-> a = b.
Proof.
  induction a as [|x a IH]; intros [|y b]; simpl; split; try congruence;
    try discriminate.
  - intros H. apply andb_true_iff in H as [H1 H2].
    apply Z.eqb_eq in H1. apply IH in H2. congruence.
  - intros H. injection H as -> ->. rewrite Z.eqb_refl. apply IH. reflexivity.
Qed.

Lemma numbered_iff rows : numbered rows = true <-> numbered_prop rows.
Proof.
  unfold numbered, numbered_prop, numbered_line. rewrite forallb_forall. split.
  - intros H n NC P. unfold present in P.
    apply existsb_exists in P as (r & I & E). apply String.eqb_eq in E. subst n.
    specialize (H r I). rewrite NC in H. apply Z_list_eqb_eq, H.
  - intros H r I. destruct (String.eqb (Line_Name r) "Continuum") eqn:NC;
      [reflexivity|].
    apply Z_list_eqb_eq, H; [exact NC|].
    unfold present. apply existsb_exists. exists r.
    split; [exact I|apply String.eqb_refl].
Qed.

Lemma count_name_line_rows rows n : count_name rows n = List.length (line_rows rows n).
Proof. reflexivity. Qed.

Lemma add_component_numbered df line comps log df' :
  add_component df line comps = (log, Ok df') ->
  numbered_prop (df_rows df) -> numbered_prop (df_rows df').
Proof.
  intros H Nb n NC P.
  rewrite (add_component_present _ _ _ _ _ H n) in P.
  specialize (Nb n NC P). unfold numbered_line in *.
  rewrite count_name_line_rows in *.
  destruct (add_component_line df line comps log df' n H)
    as [[Same _]|(m & more & before & last & p0 & p1 & p2 & ps & _ & _ & _ & Lr & _ & New)].
  - rewrite Same. exact Nb.
  - rewrite New, Lr in *. rewrite !map_app, !length_app in *.
    cbn [map List.length Component] in *.
    replace (List.length before + 1 + 1)%nat with (S (List.length before + 1)) by lia.
    rewrite seq_S, map_app. cbn [map].
    replace (List.length before + 1)%nat with (S (List.length before)) in Nb by lia.
    rewrite seq_S, map_app in Nb. cbn [map] in Nb.
    apply app_inj_tail in Nb as [Nb Cl].
    replace (List.length before + 1)%nat with (S (List.length before)) by lia.
    rewrite seq_S, map_app, Nb, Cl. cbn [map]. rewrite <- !app_assoc. cbn [app].
    do 3 f_equal. lia.
Qed.

Lemma additions_loop_numbered additions : forall df log df',
  additions_loop df additions = (log, Ok df') ->
  numbered_prop (df_rows df) -> numbered_prop (df_rows df').
Proof.
  induction additions as [|[line comps] additions IH]; intros df log df' H Nb.
  - simpl in H. unfold ret in H. injection H as _ <-. exact Nb.
  - cbn [additions_loop] in H.
    apply bind_ok_inv in H as (l1 & df1 & l2 & E1 & H & _).
    apply (IH df1 l2 df' H). apply (add_component_numbered _ _ _ _ _ E1 Nb).
Qed.

Lemma component_of_core r : Component r = snd (fst (core r)).
Proof. reflexivity. Qed.

Lemma numbered_prop_core a b :
  map core a = map core b -> numbered_prop a -> numbered_prop b.
Proof.
  intros C Nb n NC P. rewrite <- (present_core a b n C) in P.
  specialize (Nb n NC P). unfold numbered_line in *.
  rewrite count_name_line_rows in *.
  pose proof (line_rows_core a b n C) as L.
  rewrite <- (length_map core (line_rows b n)), <- L, length_map.
  rewrite (map_ext _ _ component_of_core) in *.
  rewrite <- (map_map core (fun c => snd (fst c))) in *.
  rewrite <- L. exact Nb.
Qed.

(** X6: [update_components] keeps the numbering of the components: when in the
    input the rows of every line but the continuum carry the components
    1, 2, ... in table order, they do so in the output, the added rows
    included. *)
Theorem update_components_keeps_numbering (df : DataFrame)
    (additions : list (string * list string)) (log : list string)
    (out : DataFrame) :
  numbered (df_rows df) = true ->
  update_components df additions = (log, Ok out) ->
  numbered (df_rows out) = true.
Proof.
  intros Nb H. apply numbered_iff. apply numbered_iff in Nb.
  apply update_components_cores in H as (dropped & ins & log1 & Cd & Ei & Co).
  apply (numbered_prop_core (df_rows ins)); [symmetry; exact Co|].
  apply (additions_loop_numbered additions dropped log1 ins Ei).
  apply (numbered_prop_core (df_rows df)); [symmetry; exact Cd|exact Nb].
Qed.

Lemma update_components_keeps_numbering_witness :
  exists log out,
    update_components Examples.fitted_table
      [("Halpha", ["Lorentzian"]); ("Hbeta", ["Voigt"])] = (log, Ok out) /\
    numbered (df_rows out) = true.
Proof.
  eexists _, _. split; [vm_compute; reflexivity|].
  refine (update_components_keeps_numbering Examples.fitted_table
            [("Halpha", ["Lorentzian"]); ("Hbeta", ["Voigt"])] _ _ eq_refl _).
  vm_compute. reflexivity.
Defined.

Lemma snd_bind {A B} (c : Py A) (k : A -> Py B) :
  snd (bind c k) = match snd c with
                   | Ok a => snd (k a)
                   | Raise e => Raise e
                   end.
Proof. destruct c as [out [a|e]]; simpl; [destruct (k a)|]; reflexivity. Qed.

Lemma add_component_absent df line comps :
  present (df_rows df) line = false ->
  add_component df line comps
  = ([(line ++ " not found in the Spectrum.")%string], Ok df).
Proof. unfold add_component, present. intros ->. reflexivity. Qed.

(** An addition for a line that the table does not have leaves the loop over
    the additions with the table that it would have left without it. *)
Lemma additions_loop_absent line comps post : forall pre df,
  present (df_rows df) line = false ->
  snd (additions_loop df (pre ++ (line, comps) :: post))
  = snd (additions_loop df (pre ++ post)).
Proof.
  induction pre as [|[l c] pre IH]; intros df P.
  - cbn [app additions_loop]. rewrite (add_component_absent df line comps P).
    rewrite bind_eq. reflexivity.
  - cbn [app additions_loop]. rewrite !snd_bind.
    destruct (add_component df l c) as [lg [df'|e]] eqn:E; [|reflexivity].
    cbn [snd]. apply IH.
    rewrite (add_component_present _ _ _ _ _ E). exact P.
Qed.

(** X7: an addition without a model.  [update_components] returns no table
    when an addition names a line of the input table and gives an empty list
    of models for it.  An addition for a line that the table does not have
    does no harm, whatever list it gives: the call ends as it would without
    the addition, with the same table or the same exception, and when it
    returns it has printed that the line was not found. *)
Theorem update_components_needs_model (df : DataFrame) :
  (forall additions line,
      In (line, []) additions ->
      present (df_rows df) line = true ->
      forall log out, update_components df additions <> (log, Ok out)) /\
  (forall pre post line comps,
      present (df_rows df) line = false ->
      snd (update_components df (pre ++ (line, comps) :: post))
      = snd (update_components df (pre ++ post)) /\
      forall log out,
        update_components df (pre ++ (line, comps) :: post) = (log, Ok out) ->
        In (line ++ " not found in the Spectrum.")%string log).
Proof.
  split.
  - intros additions line I P log out H.
    apply update_components_cores in H as (dropped & ins & log1 & Cd & Ei & _).
    rewrite <- (present_core _ _ line Cd) in P. clear Cd.
    revert dropped log1 P Ei.
    induction additions as [|[l c] additions IH]; intros d log1 P H; [destruct I|].
    cbn [additions_loop] in H.
    apply bind_ok_inv in H as (l1 & df1 & l2 & E1 & H & _).
    destruct I as [E|I].
    + injection E as -> ->.
      apply add_component_inv in E1 as [_ [[P' _]|[_ E1]]]; [congruence|].
      destruct E1 as (m & more & _ & _ & _ & _ & _ & _ & E & _). discriminate.
    + apply (IH I df1 l2); [|exact H].
      rewrite (add_component_present _ _ _ _ _ E1). exact P.
  - intros pre post line comps P. split.
    + unfold update_components. rewrite !snd_bind.
      destruct (drop_parameter_errors df) as [dropped|e] eqn:Ed; [|reflexivity].
      cbn [lift snd]. rewrite !snd_bind.
      apply drop_parameter_errors_inv in Ed as (_ & _ & Cd).
      rewrite (additions_loop_absent line comps post pre dropped); [reflexivity|].
      rewrite (present_core _ _ line Cd). exact P.
    + intros log out H.
      apply update_components_inv in H
        as (dropped & ins & mins & maxs & log2 & Ed & _ & _ & -> & _).
      apply drop_parameter_errors_inv in Ed as (_ & _ & Cd).
      apply in_or_app. left. apply in_map_iff. exists (line, comps).
      split; [|apply in_or_app; right; left; reflexivity].
      unfold report. cbn [fst snd].
      rewrite (present_core _ _ line Cd), P. reflexivity.
Qed.

Lemma update_components_needs_model_witness :
  update_components Examples.fitted_table [("Halpha", [])]
  <> ([], Ok Examples.fitted_table) /\
  snd (update_components Examples.fitted_table
         ([("Halpha", ["Gaussian"])] ++ ("Hgamma", []) :: [("Hbeta", ["Voigt"])]))
  = snd (update_components Examples.fitted_table
           ([("Halpha", ["Gaussian"])] ++ [("Hbeta", ["Voigt"])])).
Proof.
  split.
  - apply (proj1 (update_components_needs_model Examples.fitted_table)
                 [("Halpha", [])] "Halpha").
    + left. reflexivity.
    + reflexivity.
  - apply (proj2 (update_components_needs_model Examples.fitted_table)
                 [("Halpha", ["Gaussian"])] [("Hbeta", ["Voigt"])] "Hgamma" []).
    reflexivity.
Defined.

(** * Further properties of initial_dataframe *)

Lemma line_loop_app d a : forall b st,
  line_loop d (a ++ b) st = rbind (line_loop d a st) (line_loop d b).
Proof.
  induction a as [|l a IH]; intros b st; [reflexivity|].
  cbn [line_loop app]. destruct (dict_get d (name l)) as [e|x]; [|reflexivity].
  cbn [rbind].
  destruct (component_loop l (List.length [components e]) 0 [components e] st)
    as [st'|x]; [|reflexivity].
  cbn [rbind]. apply IH.
Qed.

Lemma component_vectors_covered l n m old :
  line_model m = true ->
  component_vectors l n m old = component_vectors l n m no_locals.
Proof.
  unfold line_model, component_vectors. intros H.
  destruct (String.eqb m "Voigt"); [reflexivity|].
  destruct (String.eqb m "Gaussian"); [reflexivity|].
  destruct (String.eqb m "Lorentzian"); [reflexivity|discriminate].
Qed.

(** One turn of the loop over the filtered lines, for a line in order. *)
Lemma line_step_built d l st :
  catalog_covers d [l] = true ->
  exists p mx mn,
    line_loop d [l] st
    = Ok (mkLocals (Some p) (Some mx) (Some mn), snd st ++ [built_row d l]) /\
    built_row d l = mkRow (name l)
                          (match lookup (name l) d with
                           | Some e => components e
                           | None => ""
                           end) 1 p (Some mx) (Some mn) None.
Proof.
  intros C. simpl in C. rewrite andb_true_r in C.
  unfold built_row. cbn [line_loop]. unfold dict_get.
  destruct (lookup (name l) d) as [e|]; [|discriminate]. cbn [rbind].
  cbn [component_loop List.length fst].
  rewrite (component_vectors_covered l 1 (components e) (fst st) C).
  destruct (component_vectors_assigned l 1 (components e) no_locals C)
    as (p & mx & mn & E).
  rewrite E. cbn [local rbind params_i min_i max_i snd]. eauto.
Qed.

Lemma line_loop_built d lines : forall st,
  catalog_covers d lines = true ->
  exists loc, line_loop d lines st = Ok (loc, snd st ++ map (built_row d) lines).
Proof.
  induction lines as [|l lines IH]; intros st C.
  - exists (fst st). simpl. rewrite app_nil_r. destruct st; reflexivity.
  - change (l :: lines) with ([l] ++ lines). rewrite line_loop_app.
    simpl in C. apply andb_true_iff in C as [Cl C].
    destruct (line_step_built d l st) as (p & mx & mn & E & _).
    { simpl. rewrite Cl. reflexivity. }
    rewrite E. cbn [rbind].
    destruct (IH (mkLocals (Some p) (Some mx) (Some mn), snd st ++ [built_row d l]) C)
      as (loc & E2).
    rewrite E2. exists loc. cbn [snd map app]. rewrite <- app_assoc. reflexivity.
Qed.

(** X8: the shape of the initial table.  For filtered lines that the catalog
    covers, [initial_dataframe] returns the six columns and, line by line, a
    row of the catalog's model with no error cell whose three vectors have one
    length, four for a Voigt line and three otherwise; the row starts with the
    line's wavelength, its amplitude is the peak flux, and the amplitude is
    bounded by 0 and the peak flux. *)
Theorem initial_dataframe_shape (d : Catalog) (lines : list FilteredLine)
    (continuum_pars : option (list Q)) :
  catalog_covers d lines = true ->
  exists df,
    initial_dataframe d lines continuum_pars = Ok df /\
    df_columns df = initial_columns /\
    df_rows df = map (built_row d) lines ++ continuum_rows continuum_pars /\
    forall l, In l lines ->
      exists e p mx mn amplitude,
        lookup (name l) d = Some e /\
        built_row d l = mkRow (name l) (components e) 1 p (Some mx) (Some mn) None /\
        List.length p = arity (components e) /\
        List.length mx = arity (components e) /\
        List.length mn = arity (components e) /\
        nth_error p 0 = Some (fl_wavelength l) /\
        nth_error p 1 = Some amplitude /\ amplitude == max_flux l /\
        nth_error mn 1 = Some (Fin 0) /\
        nth_error mx 1 = Some (Fin (max_flux l)).
Proof.
  intros C. unfold initial_dataframe.
  destruct (line_loop_built d lines (no_locals, []) C) as (loc & E).
  rewrite E. cbn [rbind snd app df_rows].
  exists (mkDataFrame initial_columns
            (map (built_row d) lines ++ continuum_rows continuum_pars)).
  split; [destruct continuum_pars; [reflexivity|rewrite app_nil_r; reflexivity]|].
  split; [reflexivity|]. split; [reflexivity|].
  intros l I. unfold catalog_covers in C. rewrite forallb_forall in C.
  specialize (C l I). unfold built_row.
  destruct (lookup (name l) d) as [e|]; [|discriminate].
  assert (D : max_flux l / inject_Z (Z.of_nat 1) == max_flux l)
    by (change (inject_Z (Z.of_nat 1)) with 1; unfold Qdiv;
        change (/ 1) with 1; apply Qmult_1_r).
  exists e. unfold line_model in C. unfold component_vectors, arity.
  destruct (String.eqb (components e) "Voigt");
    [|destruct (String.eqb (components e) "Gaussian");
      [|destruct (String.eqb (components e) "Lorentzian"); [|discriminate]]];
    eexists _, _, _, _; cbn [params_i max_i min_i];
    repeat split; try reflexivity; exact D.
Qed.

Lemma initial_dataframe_shape_witness :
  exists df,
    initial_dataframe Examples.oiii_catalog [Examples.wide_line] None = Ok df /\
    df_rows df = map (built_row Examples.oiii_catalog) [Examples.wide_line] ++ [].
Proof.
  destruct (initial_dataframe_shape Examples.oiii_catalog [Examples.wide_line]
              None eq_refl) as (df & E & _ & R & _).
  exists df. split; [exact E|exact R].
Defined.

(** X9: a filtered line that the catalog does not list stops
    [initial_dataframe] with the [KeyError] of its name, wherever it stands
    after lines that the catalog covers. *)
Theorem initial_dataframe_missing_key (d : Catalog) (good : list FilteredLine)
    (missing : FilteredLine) (rest : list FilteredLine)
    (continuum_pars : option (list Q)) :
  catalog_covers d good = true ->
  lookup (name missing) d = None ->
  initial_dataframe d (good ++ missing :: rest) continuum_pars
  = Raise (KeyError (name missing)).
Proof.
  intros C M. unfold initial_dataframe. rewrite line_loop_app.
  destruct (line_loop_built d good (no_locals, []) C) as (loc & E).
  rewrite E. cbn [rbind line_loop]. unfold dict_get. rewrite M. reflexivity.
Qed.

Lemma initial_dataframe_missing_key_witness :
  initial_dataframe Examples.oiii_catalog
    ([Examples.wide_line]
     ++ mkLine "Halpha" 6563 3 6557 6569 2.0 4.5 50 (Some 10) :: [])
    None
  = Raise (KeyError "Halpha").
Proof.
  apply (initial_dataframe_missing_key Examples.oiii_catalog [Examples.wide_line]
           (mkLine "Halpha" 6563 3 6557 6569 2.0 4.5 50 (Some 10)) [] None);
    reflexivity.
Defined.

(** X10: a catalog model outside Voigt, Gaussian and Lorentzian.  On the
    first filtered line it stops [initial_dataframe] with an
    [UnboundLocalError]; on a line that follows a line in order it does not:
    the line then receives, under its own name and model, the parameters and
    the bounds of the line before it. *)
Theorem initial_dataframe_unknown_model (d : Catalog) (good : list FilteredLine)
    (previous odd : FilteredLine) (e : CatalogEntry) :
  lookup (name odd) d = Some e ->
  line_model (components e) = false ->
  catalog_covers d (good ++ [previous]) = true ->
  initial_dataframe d [odd] None = Raise (UnboundLocalError "params_i") /\
  initial_dataframe d (good ++ [previous; odd]) None
  = Ok (mkDataFrame initial_columns
          (map (built_row d) (good ++ [previous])
           ++ [mkRow (name odd) (components e) 1
                     (Parameters (built_row d previous))
                     (Max_Limits (built_row d previous))
                     (Min_Limits (built_row d previous)) None])).
Proof.
  intros Lk M C.
  assert (V : forall old, component_vectors odd 1 (components e) old = old).
  { intros old. unfold line_model in M. unfold component_vectors.
    repeat (apply orb_false_iff in M as [M ?]). rewrite M, H0, H. reflexivity. }
  split.
  - unfold initial_dataframe. cbn [line_loop]. unfold dict_get. rewrite Lk.
    cbn [rbind component_loop List.length fst]. rewrite V. reflexivity.
  - unfold initial_dataframe.
    replace (good ++ [previous; odd]) with (good ++ [previous] ++ [odd])
      by reflexivity.
    rewrite !line_loop_app.
    unfold catalog_covers in C. rewrite forallb_app in C.
    apply andb_true_iff in C as [Cg Cp]. fold (catalog_covers d good) in Cg.
    fold (catalog_covers d [previous]) in Cp.
    destruct (line_loop_built d good (no_locals, []) Cg) as (loc & E).
    rewrite E. cbn [rbind snd]. rewrite line_loop_app.
    destruct (line_step_built d previous (loc, [] ++ map (built_row d) good) Cp)
      as (p & mx & mn & E2 & B).
    rewrite E2. cbn [rbind line_loop snd]. unfold dict_get. rewrite Lk.
    cbn [rbind component_loop List.length fst snd]. rewrite V.
    cbn [params_i min_i max_i local rbind]. rewrite map_app. cbn [map app].
    rewrite B. cbn [Parameters Max_Limits Min_Limits].
    rewrite <- !app_assoc. reflexivity.
Qed.

Lemma initial_dataframe_unknown_model_witness :
  initial_dataframe [("OIII", mkEntry [Some 5007] "Gaussian");
                     ("Hbeta", mkEntry [Some 4861] "Asymmetric Gaussian")]
                    [Examples.wide_line] None
  = Raise (UnboundLocalError "params_i").
Proof.
  apply (proj1 (initial_dataframe_unknown_model
                  [("OIII", mkEntry [Some 5007] "Gaussian");
                   ("Hbeta", mkEntry [Some 4861] "Asymmetric Gaussian")]
                  [] Examples.narrow_line Examples.wide_line
                  (mkEntry [Some 4861] "Asymmetric Gaussian")
                  eq_refl eq_refl eq_refl)).
Defined.

(** * Further properties of the filter *)

Section FilterOutput.

Variable np_sqrt : Q -> Q.
Variable np_log : Q -> Q.

Local Abbreviation filter_lines := (filter_and_prepare_linelist np_sqrt np_log).

(** What the filter keeps. *)
Lemma filter_kept_hinted (lines : list LineResult)
    (continuum_spec0 : list (Q * Q)) (wavelength_range : Q * Q)
    (snr_ext window_width : Q) (f : FilteredLine) :
  In f (filter_lines lines continuum_spec0 wavelength_range snr_ext window_width) ->
  exists l,
    In l lines /\
    in_range wavelength_range l = true /\
    passes np_sqrt np_log continuum_spec0 snr_ext window_width l = true /\
    name f = res_line l /\
    fl_wavelength f = res_observed_wavelength l /\
    max_flux f = res_peak_flux l /\
    sigma f = sigma_of np_sqrt np_log (fwhm l) /\
    SNR f = snr_of np_sqrt np_log continuum_spec0 snr_ext window_width l /\
    hinted f /\
    fst wavelength_range <= fl_wavelength f /\
    fl_wavelength f <= snd wavelength_range.
Proof.
  unfold filter_and_prepare_linelist. rewrite filter_loop_spec. simpl.
  intros I. apply in_map_iff in I as (l & <- & I).
  apply filter_In in I as [I K]. apply andb_true_iff in K as [R P].
  exists l. unfold hinted. simpl. repeat split; auto.
  - unfold in_range in R. apply andb_true_iff in R as [R _].
    apply Qle_bool_iff, R.
  - unfold in_range in R. apply andb_true_iff in R as [_ R].
    apply Qle_bool_iff, R.
Qed.

(** X11: every entry of the filtered list stands for a resolved line of the
    input that lies in the wavelength range and passes the significance test;
    it carries that line's name, wavelength and peak flux, the sigma derived
    from its width, and the bound hints: locations two sigma either side of
    the wavelength, widths from 2.0 to 1.5 sigma. *)
Theorem filter_output_hinted (lines : list LineResult)
    (continuum_spec0 : list (Q * Q)) (wavelength_range : Q * Q)
    (snr_ext window_width : Q) (f : FilteredLine) :
  In f (filter_lines lines continuum_spec0 wavelength_range snr_ext window_width) ->
  exists l,
    In l lines /\
    in_range wavelength_range l = true /\
    passes np_sqrt np_log continuum_spec0 snr_ext window_width l = true /\
    name f = res_line l /\
    fl_wavelength f = res_observed_wavelength l /\
    max_flux f = res_peak_flux l /\
    sigma f = sigma_of np_sqrt np_log (fwhm l) /\
    SNR f = snr_of np_sqrt np_log continuum_spec0 snr_ext window_width l /\
    hinted f /\
    fst wavelength_range <= fl_wavelength f /\
    fl_wavelength f <= snd wavelength_range.
Proof. apply filter_kept_hinted. Qed.

(** X12: the filter judges every line by itself: the filtered list of two
    lists of lines one after the other is the filtered list of the first
    followed by that of the second, and it is never longer than the input. *)
Theorem filter_lines_app (a b : list LineResult) (continuum_spec0 : list (Q * Q))
    (wavelength_range : Q * Q) (snr_ext window_width : Q) :
  filter_lines (a ++ b) continuum_spec0 wavelength_range snr_ext window_width
  = filter_lines a continuum_spec0 wavelength_range snr_ext window_width
    ++ filter_lines b continuum_spec0 wavelength_range snr_ext window_width /\
  (List.length (filter_lines a continuum_spec0 wavelength_range snr_ext window_width)
   <= List.length a)%nat.
Proof.
  unfold filter_and_prepare_linelist. rewrite !filter_loop_spec. simpl.
  rewrite filter_app, map_app. split; [reflexivity|].
  rewrite length_map. apply filter_length_le.
Qed.

End FilterOutput.

Lemma filter_output_hinted_witness :
  exists l,
    In l [Examples.edge_line] /\
    in_range (4900, 5100) l = true /\
    passes Reference.sqrt Reference.log Examples.flat_continuum 1 10 l = true.
Proof.
  destruct (filter_output_hinted Reference.sqrt Reference.log
              [Examples.edge_line] Examples.flat_continuum (4900, 5100) 1 10
              (line_details Reference.sqrt Reference.log Examples.edge_line
                 (Some 1)))
    as (l & I & R & P & _).
  - vm_compute. left. reflexivity.
  - exists l. auto.
Defined.

(** * The filter and the table together *)

Lemma built_row_invariant d f e :
  lookup (name f) d = Some e ->
  line_model (components e) = true ->
  hinted f ->
  (row_invariant (built_row d f) = true <-> 2 <= sigma f /\ 0 <= max_flux f).
Proof.
  intros Lk M (H1 & H2 & H3 & H4).
  destruct (initial_bounds_hold_iff f (components e) no_locals M)
    as (p & mx & mn & E & Iff);
    try (rewrite H1; reflexivity); try (rewrite H2; reflexivity);
    try (rewrite H3; reflexivity); try (rewrite H4; reflexivity).
  unfold built_row, row_invariant. rewrite Lk. cbn [Min_Limits Max_Limits Parameters].
  rewrite E. cbn [params_i max_i min_i]. exact Iff.
Qed.

(** X13: the filter feeding the table.  For the lines that the filter keeps,
    all of them catalog lines, [initial_dataframe] returns and the row of a
    line satisfies the bounds invariant exactly when the sigma of the line is
    at least 2.0 and its peak flux is not negative. *)
Theorem filtered_rows_invariant (np_sqrt np_log : Q -> Q) (d : Catalog)
    (lines : list LineResult) (continuum_spec0 : list (Q * Q))
    (wavelength_range : Q * Q) (snr_ext window_width : Q)
    (continuum_pars : option (list Q)) :
  let kept := filter_and_prepare_linelist np_sqrt np_log lines continuum_spec0
                wavelength_range snr_ext window_width in
  catalog_covers d kept = true ->
  exists df,
    initial_dataframe d kept continuum_pars = Ok df /\
    df_rows df = map (built_row d) kept ++ continuum_rows continuum_pars /\
    forall f, In f kept ->
              (row_invariant (built_row d f) = true
               <-> 2 <= sigma f /\ 0 <= max_flux f).
Proof.
  intros kept C. unfold initial_dataframe.
  destruct (line_loop_built d kept (no_locals, []) C) as (loc & E).
  rewrite E. cbn [rbind snd app df_rows].
  exists (mkDataFrame initial_columns (map (built_row d) kept
                                       ++ continuum_rows continuum_pars)).
  split; [destruct continuum_pars; [reflexivity|rewrite app_nil_r; reflexivity]|].
  split; [reflexivity|].
  intros f I. unfold catalog_covers in C. rewrite forallb_forall in C.
  specialize (C f I). destruct (lookup (name f) d) as [e|] eqn:Lk; [|discriminate].
  apply (built_row_invariant d f e Lk C).
  destruct (filter_kept_hinted np_sqrt np_log lines continuum_spec0
              wavelength_range snr_ext window_width f I)
    as (l & _ & _ & _ & _ & _ & _ & _ & _ & H & _).
  exact H.
Qed.

Lemma filtered_rows_invariant_witness :
  exists df,
    initial_dataframe Examples.oiii_catalog
      (filter_and_prepare_linelist Reference.sqrt Reference.log
         [Examples.edge_line] Examples.flat_continuum (4900, 5100) 1 10) None
    = Ok df /\
    List.length (df_rows df) = 1%nat.
Proof.
  destruct (filtered_rows_invariant Reference.sqrt Reference.log
              Examples.oiii_catalog [Examples.edge_line] Examples.flat_continuum
              (4900, 5100) 1 10 None) as (df & E & R & _).
  - vm_compute. reflexivity.
  - exists df. split; [exact E|]. rewrite R, app_nil_r, length_map.
    vm_compute. reflexivity.
Defined.

(** * Further properties of the detector *)

Lemma select_pair {A B} : forall mask (x : list A) (y : list B) p a b,
  nth_error (select mask x) p = Some a ->
  nth_error (select mask y) p = Some b ->
  List.length x = List.length y ->
  In (a, b) (combine x y).
Proof.
  induction mask as [|k mask IH]; intros [|x0 x] [|y0 y] p a b Hx Hy L;
    simpl in *; try (destruct p; discriminate); try discriminate.
  injection L as L. destruct k.
  - destruct p as [|p]; simpl in *.
    + injection Hx as <-. injection Hy as <-. left. reflexivity.
    + right. apply (IH x y p a b Hx Hy L).
  - right. apply (IH x y p a b Hx Hy L).
Qed.

Lemma select_between lo hi : forall x w,
  In w (select (between lo hi x) x) -> lo <= w /\ w <= hi.
Proof.
  induction x as [|a x IH]; intros w H; [destruct H|]. simpl in H.
  destruct (Qle_bool lo a && Qle_bool a hi) eqn:E.
  - destruct H as [<-|H]; [|apply IH, H].
    apply andb_true_iff in E as [E1 E2]. split; apply Qle_bool_iff; assumption.
  - apply IH, H.
Qed.

Lemma select_none_between lo hi : forall x,
  (forall w, In w x -> ~ (lo <= w /\ w <= hi)) ->
  select (between lo hi x) x = [].
Proof.
  induction x as [|a x IH]; intros H; [reflexivity|]. simpl.
  destruct (Qle_bool lo a && Qle_bool a hi) eqn:E.
  - exfalso. apply (H a); [left; reflexivity|].
    apply andb_true_iff in E as [E1 E2]. split; apply Qle_bool_iff; assumption.
  - apply IH. intros w I. apply H. right. exact I.
Qed.

Section MatchFacts.

Variable find_peaks : list Q -> Q -> list nat.
Hypothesis find_peaks_indexes : indexes_its_input find_peaks.

Variables x y : list Q.
Hypothesis columns : List.length x = List.length y.

Variable window : Q.

Local Abbreviation match_entry := (Detector.match_entry find_peaks x y window).
Local Abbreviation match_loop := (Detector.match_loop find_peaks x y window).

(** One catalog item: nothing is recorded, or one line read off the spectrum. *)
Lemma match_entry_cases item matched :
  has_wavelengths [item] = true ->
  match_entry item matched = Ok matched \/
  exists m, match_entry item matched = Ok (matched ++ [m]) /\
            detected x y window item m.
Proof.
  destruct item as [name params]. intros W. simpl in W. rewrite andb_true_r in W.
  unfold Detector.match_entry.
  destruct (wavelength params) as [|[rest|] others] eqn:Ew; [discriminate| |].
  2:{ left. reflexivity. }
  change (getitem (Some rest :: others) 0) with (Ok (Some rest)). cbn [rbind].
  set (mask := between (rest - window) (rest + window) x).
  set (ww := select mask x). set (wf := select mask y).
  assert (Lw : List.length ww = List.length wf) by (apply select_length, columns).
  destruct ww as [|w0 ww'] eqn:Eww; [left; reflexivity|]. rewrite <- Eww in *.
  destruct (closest_loop_best ww rest (find_peaks wf 0.5) [] (None, PosInf))
    as (st & E & B).
  { intros p I. rewrite Lw. apply (find_peaks_indexes _ _ _ I). }
  { unfold best. simpl. auto. }
  rewrite E. cbn [rbind]. simpl in B. unfold best in B.
  destruct (fst st) as [p|]; [|left; reflexivity].
  destruct B as (ow & Ip & Np & _ & _).
  destruct (getitem_in wf p (find_peaks_indexes _ _ _ Ip)) as (pf & Ef & _).
  pose proof (getitem_ok_inv _ _ _ Ef) as Nf.
  assert (Eg : getitem ww p = Ok ow) by (unfold getitem; rewrite Np; reflexivity).
  rewrite Ef. cbn [rbind]. rewrite Eg. cbn [rbind].
  assert (Iw : In ow ww) by (eapply nth_error_In, Np).
  destruct (np_where_eq_first ow x 0) as (idx & more & u & E1 & _ & N1 & Q1).
  { apply (select_in ow mask x). exact Iw. }
  rewrite E1. change (getitem (idx :: more) 0) with (Ok idx). cbn [rbind].
  rewrite Nat.sub_0_r in N1.
  right. eexists. split; [reflexivity|].
  unfold detected. cbn [line restframe_wavelength observed_wavelength peak_flux
                         peak_idx fst snd].
  destruct (select_between (rest - window) (rest + window) x ow Iw) as [Lo Hi].
  repeat split; auto.
  - exists others. exact Ew.
  - apply (select_pair mask x y p ow pf Np Nf columns).
  - exists u. auto.
Qed.

(** What the first loop finds. *)
Lemma match_loop_found (items : Catalog) (matched : list MatchedLine) :
  has_wavelengths items = true ->
  exists flags found,
    match_loop items matched = Ok (matched ++ found) /\
    List.length flags = List.length items /\
    map line found = select flags (map fst items) /\
    (List.length found <= List.length items)%nat /\
    forall m, In m found -> exists item, In item items /\ detected x y window item m.
Proof.
  revert matched. induction items as [|item items IH]; intros matched W.
  - exists [], []. simpl. rewrite app_nil_r. repeat split; auto. intros m [].
  - simpl in W. apply andb_true_iff in W as [Wi W].
    cbn [Detector.match_loop].
    destruct (match_entry_cases item matched) as [E|(m & E & D)].
    { simpl. rewrite Wi. reflexivity. }
    + rewrite E. cbn [rbind].
      destruct (IH matched W) as (flags & found & E2 & Lf & Nm & Le & Dt).
      exists (false :: flags), found. rewrite E2. simpl. rewrite Lf.
      repeat split; auto.
      intros m I. destruct (Dt m I) as (it & Ii & D). exists it. auto.
    + rewrite E. cbn [rbind].
      destruct (IH (matched ++ [m]) W) as (flags & found & E2 & Lf & Nm & Le & Dt).
      exists (true :: flags), (m :: found). rewrite E2, <- app_assoc. simpl.
      rewrite Lf, Nm. destruct D as (Dn & D'). rewrite Dn.
      repeat split; auto; [lia|].
      intros m' [<-|I].
      * exists item. split; [left; reflexivity|]. split; assumption.
      * destruct (Dt m' I) as (it & Ii & D). exists it. auto.
Qed.

(** X14: the first loop of the detector never raises on a catalog whose
    entries have a wavelength list, whatever the spectrum.  It records at most
    one line per entry, in catalog order and under the entry's name, and each
    recorded line is a sample of the spectrum within the window of the entry's
    rest wavelength. *)
Theorem match_loop_total (items : Catalog) (matched : list MatchedLine) :
  has_wavelengths items = true ->
  exists flags found,
    match_loop items matched = Ok (matched ++ found) /\
    List.length flags = List.length items /\
    map line found = select flags (map fst items) /\
    (List.length found <= List.length items)%nat /\
    forall m, In m found -> exists item, In item items /\ detected x y window item m.
Proof. apply match_loop_found. Qed.

End MatchFacts.

Lemma reference_find_peaks_indexes : indexes_its_input Reference.find_peaks.
Proof.
  intros flux prominence p I. unfold Reference.find_peaks in I.
  apply filter_In in I as [I _]. apply local_maxima_range in I. lia.
Qed.

Lemma match_loop_total_witness :
  exists flags found,
    match_loop Reference.find_peaks Examples.spectrum_x Examples.spectrum_y 20
               Examples.oiii_catalog []
    = Ok ([] ++ found) /\
    List.length flags = List.length Examples.oiii_catalog /\
    map line found = select flags (map fst Examples.oiii_catalog).
Proof.
  destruct (match_loop_total Reference.find_peaks reference_find_peaks_indexes
              Examples.spectrum_x Examples.spectrum_y eq_refl 20
              Examples.oiii_catalog [] eq_refl)
    as (flags & found & E & L & N & _).
  exists flags, found. auto.
Defined.

(** * The second loop of the detector *)

Lemma assign_masked_length : forall mask values l,
  List.length (assign_masked mask values l) = List.length l.
Proof.
  induction mask as [|b mask IH]; intros values [|a l]; simpl; try reflexivity.
  destruct b; [destruct values|]; simpl; rewrite IH; reflexivity.
Qed.

Lemma assign_masked_off : forall mask values l i,
  nth_error mask i = Some false ->
  nth_error (assign_masked mask values l) i = nth_error l i.
Proof.
  induction mask as [|b mask IH]; intros values [|a l] [|i] H; simpl in *;
    try discriminate; try reflexivity.
  - injection H as ->. reflexivity.
  - destruct b; [destruct values|]; simpl; apply IH, H.
Qed.

Lemma and_not_map (f : Q -> bool) lo hi : forall x,
  and_not (map f x) (between lo hi x)
  = map (fun w => f w && negb (Qle_bool lo w && Qle_bool w hi)) x.
Proof.
  induction x as [|a x IH]; simpl; [reflexivity|]. rewrite <- IH. reflexivity.
Qed.

(** A flux without nan goes through lines 34 to 38 unchanged; a flux that is
    nan all over comes out as zeros. *)
Lemma synthetic_start_finite (flux : list Q) :
  synthetic_start (map Some flux) = map Some flux.
Proof. destruct flux; reflexivity. Qed.

Lemma synthetic_start_all_nan (n : nat) :
  synthetic_start (repeat None n) = repeat (Some 0) n.
Proof.
  unfold synthetic_start.
  assert (E : forallb (fun v : option Q => match v with
                                           | None => true
                                           | Some _ => false
                                           end) (repeat None n) = true).
  { induction n; simpl; auto. }
  rewrite E. clear E. induction n; simpl; [reflexivity|]. f_equal. assumption.
Qed.

Section SecondLoop.

Variable peak_widths : list Q -> nat -> Q -> Q * Q * Q * Q.
Variable np_interp : Q -> list Q -> list Q -> Q.
Variable np_sqrt : Q -> Q.
Variable np_random_normal : nat -> Q -> Q -> Q.

Local Abbreviation measure := (Detector.measure peak_widths np_interp).
Local Abbreviation mask_line :=
  (Detector.mask_line peak_widths np_interp np_sqrt np_random_normal).
Local Abbreviation mask_loop :=
  (Detector.mask_loop peak_widths np_interp np_sqrt np_random_normal).
Local Abbreviation result_of := (result_of peak_widths np_interp).

Lemma mask_line_synthetic x flux l st :
  let mask := between (line_start (measure x flux l)) (line_end (measure x flux l)) x in
  List.length (synthetic_flux (mask_line x flux l st))
  = List.length (synthetic_flux st) /\
  forall i, nth_error mask i = Some false ->
            nth_error (synthetic_flux (mask_line x flux l st)) i
            = nth_error (synthetic_flux st) i.
Proof.
  intros mask. unfold Detector.mask_line. fold mask.
  destruct (existsb (fun b => b) mask); [destruct (np_std _ _)|];
    cbn [synthetic_flux]; split; auto using assign_masked_length, assign_masked_off.
Qed.

Lemma in_window_b_measure x flux l w :
  in_window_b (result_of x flux l) w
  = Qle_bool (line_start (measure x flux l)) w
    && Qle_bool w (line_end (measure x flux l)).
Proof.
  destruct (measure_sigma peak_widths np_interp x flux l) as (Es & E1 & E2).
  rewrite E1, E2, Es. reflexivity.
Qed.

Lemma mask_line_exact x flux l st :
  mask_exact x flux st -> mask_exact x flux (mask_line x flux l st).
Proof.
  intros (M & Len & Keep). unfold mask_exact.
  rewrite (mask_line_results peak_widths np_interp np_sqrt np_random_normal),
          (mask_line_continuum peak_widths np_interp np_sqrt np_random_normal).
  destruct (mask_line_synthetic x flux l st) as [Ls Ks].
  split; [|split].
  - rewrite M, and_not_map. apply map_ext. intros w.
    rewrite existsb_app. cbn [existsb]. rewrite orb_false_r, negb_orb.
    fold (result_of x flux l). rewrite in_window_b_measure. reflexivity.
  - rewrite Ls. exact Len.
  - intros i H. rewrite and_not_nth, between_nth in H.
    destruct (nth_error (continuum_mask st) i) as [c|] eqn:C; [|discriminate].
    destruct (nth_error x i) as [w|] eqn:N; [|discriminate]. simpl in H.
    injection H as H. apply andb_true_iff in H as [-> H].
    apply negb_true_iff in H.
    rewrite Ks; [apply Keep; exact C|].
    rewrite between_nth, N. simpl. rewrite H. reflexivity.
Qed.

Lemma mask_loop_exact x flux : forall matched st,
  mask_exact x flux st -> mask_exact x flux (mask_loop x flux matched st).
Proof.
  induction matched as [|l matched IH]; intros st M; simpl; [exact M|].
  apply IH, mask_line_exact, M.
Qed.

Lemma mask_loop_results x flux : forall matched st,
  results (mask_loop x flux matched st) = results st ++ map (result_of x flux) matched.
Proof.
  induction matched as [|l matched IH]; intros st; simpl.
  - rewrite app_nil_r. reflexivity.
  - rewrite IH,
      (mask_line_results peak_widths np_interp np_sqrt np_random_normal),
      <- app_assoc. reflexivity.
Qed.

Lemma initial_state_exact x flux :
  List.length x = List.length flux -> mask_exact x flux (initial_state flux).
Proof.
  intros L. unfold mask_exact, initial_state. cbn. split; [|split; auto].
  revert flux L. induction x as [|a x IH]; intros [|b flux] L;
    try discriminate; [reflexivity|].
  simpl. injection L as L. rewrite (IH flux L). reflexivity.
Qed.

(** X15: the continuum mask, exactly.  After the second loop a sample is kept
    as continuum if and only if its wavelength lies in the window of no
    recorded line; one result is recorded per matched line, in order, under
    the same name, wavelengths and peak flux. *)
Theorem continuum_mask_exact (x flux : list Q) (matched : list MatchedLine) :
  List.length x = List.length flux ->
  let st := mask_loop x flux matched (initial_state flux) in
  results st = map (result_of x flux) matched /\
  List.length (continuum_mask st) = List.length x /\
  forall i w, nth_error x i = Some w ->
              (nth_error (continuum_mask st) i = Some true
               <-> forall r, In r (results st) -> ~ in_line_window r w).
Proof.
  intros L st.
  destruct (mask_loop_exact x flux matched _ (initial_state_exact x flux L))
    as (M & _ & _).
  fold st in M. split; [apply (mask_loop_results x flux matched (initial_state flux))|].
  rewrite M, length_map. split; [reflexivity|].
  intros i w N. rewrite nth_error_map, N. simpl. split.
  - intros H r I [Lo Hi]. injection H as H. apply negb_true_iff in H.
    assert (T : existsb (fun r0 => in_window_b r0 w) (results st) = true).
    { apply existsb_exists. exists r. split; [exact I|].
      unfold in_window_b. apply andb_true_iff. split; apply Qle_bool_iff; assumption. }
    congruence.
  - intros H. f_equal. apply negb_true_iff.
    destruct (existsb (fun r => in_window_b r w) (results st)) eqn:T; [|reflexivity].
    apply existsb_exists in T as (r & I & B). exfalso. apply (H r I).
    unfold in_window_b in B. apply andb_true_iff in B as [B1 B2].
    split; apply Qle_bool_iff; assumption.
Qed.

(** X16: the detector leaves the continuum alone.  On a flux without nan the
    reset of lines 37 and 38 leaves the synthetic flux a copy of the flux;
    after the second loop the synthetic flux has as many samples as the flux,
    and it differs from the flux only on samples that the continuum mask
    excludes. *)
Theorem synthetic_flux_off_lines (x flux : list Q) (matched : list MatchedLine) :
  List.length x = List.length flux ->
  let st := mask_loop x flux matched (initial_state flux) in
  synthetic_start (map Some flux) = map Some (synthetic_flux (initial_state flux)) /\
  List.length (synthetic_flux st) = List.length flux /\
  forall i, nth_error (continuum_mask st) i = Some true ->
            nth_error (synthetic_flux st) i = nth_error flux i.
Proof.
  intros L st.
  destruct (mask_loop_exact x flux matched _ (initial_state_exact x flux L))
    as (_ & Len & Keep).
  split; [apply synthetic_start_finite|]. split; [exact Len|exact Keep].
Qed.

End SecondLoop.

Lemma continuum_mask_exact_witness :
  nth_error
    (continuum_mask
       (mask_loop Reference.peak_widths Reference.interp Reference.sqrt
                  Reference.random_normal Examples.spectrum_x Examples.spectrum_y
                  [Examples.oiii_matched] (initial_state Examples.spectrum_y)))
    2 = Some true
  <-> forall r,
        In r (results
                (mask_loop Reference.peak_widths Reference.interp Reference.sqrt
                           Reference.random_normal Examples.spectrum_x
                           Examples.spectrum_y [Examples.oiii_matched]
                           (initial_state Examples.spectrum_y))) ->
        ~ in_line_window r 5002.
Proof.
  apply (proj2 (proj2 (continuum_mask_exact
                         Reference.peak_widths Reference.interp Reference.sqrt
                         Reference.random_normal Examples.spectrum_x
                         Examples.spectrum_y [Examples.oiii_matched] eq_refl))
               2%nat 5002).
  reflexivity.
Defined.

Lemma synthetic_flux_off_lines_witness :
  nth_error
    (synthetic_flux
       (mask_loop Reference.peak_widths Reference.interp Reference.sqrt
                  Reference.random_normal Examples.spectrum_x Examples.spectrum_y
                  [Examples.oiii_matched] (initial_state Examples.spectrum_y)))
    2 = nth_error Examples.spectrum_y 2.
Proof.
  apply (proj2 (proj2 (synthetic_flux_off_lines
                         Reference.peak_widths Reference.interp Reference.sqrt
                         Reference.random_normal Examples.spectrum_x
                         Examples.spectrum_y [Examples.oiii_matched] eq_refl))
               2%nat).
  vm_compute. reflexivity.
Defined.

(** * The detector as a whole *)

Lemma combine_fst {A B} : forall (a : list A) (b : list B),
  List.length a = List.length b -> map fst (combine a b) = a.
Proof.
  induction a as [|x a IH]; intros [|y b] L; simpl in *; try discriminate;
    [reflexivity|].
  injection L as L. rewrite (IH b L). reflexivity.
Qed.

Lemma combine_snd {A B} : forall (a : list A) (b : list B),
  List.length a = List.length b -> map snd (combine a b) = b.
Proof.
  induction a as [|x a IH]; intros [|y b] L; simpl in *; try discriminate;
    [reflexivity|].
  injection L as L. rewrite (IH b L). reflexivity.
Qed.

Section WholeDetector.

Variable find_peaks : list Q -> Q -> list nat.
Variable peak_widths : list Q -> nat -> Q -> Q * Q * Q * Q.
Variable np_interp : Q -> list Q -> list Q -> Q.
Variable np_sqrt : Q -> Q.
Variable np_random_normal : nat -> Q -> Q -> Q.

Local Abbreviation analyze :=
  (analyze_emission_lines find_peaks peak_widths np_interp np_sqrt np_random_normal).

Lemma match_loop_out_of_coverage (x y : list Q) (lines_dict : Catalog)
    (window : Q) :
  has_wavelengths lines_dict = true ->
  out_of_coverage x window lines_dict ->
  forall matched,
    match_loop find_peaks x y window lines_dict matched = Ok matched.
Proof.
  intros W O.
  induction lines_dict as [|[name params] items IH]; intros matched;
    [reflexivity|].
  simpl in W. apply andb_true_iff in W as [Wi W].
  cbn [match_loop]. unfold match_entry.
  destruct (wavelength params) as [|[rest|] others] eqn:Ew; [discriminate| |].
  - change (getitem (Some rest :: others) 0) with (Ok (Some rest)). cbn [rbind].
    rewrite (select_none_between (rest - window) (rest + window) x).
    + cbn [rbind]. apply IH; [exact W|].
      intros item r o w I. apply O. right. exact I.
    + intros w I. apply (O (name, params) rest others w); auto.
      left. reflexivity.
  - change (getitem (None :: others) 0) with (@Ok (option Q) None). cbn [rbind].
    apply IH; [exact W|]. intros item r o w I. apply O. right. exact I.
Qed.

(** X17: [analyze_emission_lines] returns for every spectrum and every catalog
    whose entries have a wavelength list.  The continuum spectrum it returns
    has the wavelengths of the input, and each result carries the name and the
    rest wavelength of a catalog entry and, as observed wavelength and peak
    flux, one sample of the spectrum within the window of that rest
    wavelength; there is at most one result per entry. *)
Theorem analyze_emission_lines_total (x y : list Q) (lines_dict : Catalog)
    (window : Q) :
  indexes_its_input find_peaks ->
  List.length x = List.length y ->
  has_wavelengths lines_dict = true ->
  exists line_results std_cont continuum,
    analyze x y lines_dict window = Ok (line_results, std_cont, continuum) /\
    map fst continuum = x /\
    (List.length line_results <= List.length lines_dict)%nat /\
    forall r, In r line_results ->
      exists item others,
        In item lines_dict /\ res_line r = fst item /\
        wavelength (snd item) = Some (res_restframe_wavelength r) :: others /\
        res_restframe_wavelength r - window <= res_observed_wavelength r /\
        res_observed_wavelength r <= res_restframe_wavelength r + window /\
        In (res_observed_wavelength r, res_peak_flux r) (combine x y).
Proof.
  intros Fp L W.
  destruct (match_loop_found find_peaks Fp x y L window lines_dict [] W)
    as (flags & found & E & _ & _ & Le & Dt).
  unfold analyze_emission_lines, analyze_state. rewrite E. cbn [rbind app].
  set (st := mask_loop peak_widths np_interp np_sqrt np_random_normal x y found
               (initial_state y)).
  destruct (mask_loop_exact peak_widths np_interp np_sqrt np_random_normal
              x y found _ (initial_state_exact x y L)) as (_ & Ls & _).
  fold st in Ls.
  pose proof (mask_loop_results peak_widths np_interp np_sqrt np_random_normal
                x y found (initial_state y)) as R.
  fold st in R. cbn [initial_state results app] in R.
  eexists _, _, _. split; [reflexivity|].
  split; [apply combine_fst; congruence|].
  rewrite R, length_map. split; [exact Le|].
  intros r I. apply in_map_iff in I as (m & <- & I).
  destruct (Dt m I) as (item & Ii & Dn & (others & Ew) & Lo & Hi & Pair & _).
  exists item, others. unfold result_of. simpl. repeat split; auto.
Qed.

(** X18: a catalog out of the coverage of the spectrum.  For a spectrum of as
    many wavelengths as flux samples, none of them nan, and a catalog whose
    entries have a wavelength list: when no sample lies within the window of
    any rest wavelength of the catalog, the detector returns without a result
    and gives back the spectrum as its continuum, the standard deviation of
    the flux as its noise. *)
Theorem analyze_out_of_coverage (x y : list Q) (lines_dict : Catalog)
    (window : Q) :
  List.length x = List.length y ->
  has_wavelengths lines_dict = true ->
  out_of_coverage x window lines_dict ->
  analyze x y lines_dict window = Ok ([], np_std np_sqrt y, combine x y).
Proof.
  intros L W O. unfold analyze_emission_lines, analyze_state.
  rewrite (match_loop_out_of_coverage x y lines_dict window W O).
  cbn [rbind mask_loop initial_state synthetic_flux results].
  rewrite (combine_snd x y L). reflexivity.
Qed.

End WholeDetector.

Lemma analyze_emission_lines_total_witness :
  exists line_results std_cont continuum,
    analyze_emission_lines Reference.find_peaks Reference.peak_widths
      Reference.interp Reference.sqrt Reference.random_normal
      Examples.spectrum_x Examples.spectrum_y Examples.oiii_catalog 20
    = Ok (line_results, std_cont, continuum) /\
    map fst continuum = Examples.spectrum_x.
Proof.
  destruct (analyze_emission_lines_total Reference.find_peaks
              Reference.peak_widths Reference.interp Reference.sqrt
              Reference.random_normal Examples.spectrum_x Examples.spectrum_y
              Examples.oiii_catalog 20 reference_find_peaks_indexes eq_refl eq_refl)
    as (rs & sd & ct & E & F & _).
  exists rs, sd, ct. auto.
Defined.

Lemma analyze_out_of_coverage_witness :
  analyze_emission_lines Reference.find_peaks Reference.peak_widths
    Reference.interp Reference.sqrt Reference.random_normal
    Examples.spectrum_x Examples.spectrum_y
    [("Halpha", mkEntry [Some 6563] "Gaussian")] 20
  = Ok ([], np_std Reference.sqrt Examples.spectrum_y,
        combine Examples.spectrum_x Examples.spectrum_y).
Proof.
  apply (analyze_out_of_coverage Reference.find_peaks Reference.peak_widths
           Reference.interp Reference.sqrt Reference.random_normal
           Examples.spectrum_x Examples.spectrum_y
           [("Halpha", mkEntry [Some 6563] "Gaussian")] 20 eq_refl eq_refl).
  intros item rest others w [<-|[]] E I [Lo Hi].
  simpl in E. injection E as <- _.
  vm_compute in I. vm_compute in Lo.
  repeat (destruct I as [<-|I]; [apply Lo; reflexivity|]). destruct I.
Defined.

(** * continuum_init and init_setup *)

Lemma np_min_from_spec : forall l m,
  let r := Setup.np_min_from m l in
  (r = m \/ In r l) /\ r <= m /\ forall w, In w l -> r <= w.
Proof.
  induction l as [|a l IH]; intros m; simpl.
  - split; [left; reflexivity|]. split; [apply Qle_refl|]. intros w [].
  - destruct (IH (if Qlt_bool a m then a else m)) as (O & Le & All).
    destruct (Qlt_bool a m) eqn:E.
    + apply Qlt_bool_iff in E. split; [|split].
      * destruct O as [->|O]; auto.
      * apply Qlt_le_weak in E. eapply Qle_trans; eauto.
      * intros w [<-|I]; auto.
    + apply Qlt_bool_false in E. split; [|split]; auto.
      * destruct O as [->|O]; auto.
      * intros w [<-|I]; auto. eapply Qle_trans; eauto.
Qed.

(** What [continuum_init] starts the fit from. *)
Lemma continuum_init_guess_aux
    (curve_fit : list Q -> list Q -> list Q -> option (list Q))
    (continuum_spec : list (Q * Q)) (g_init : Q) :
  (continuum_spec = [] ->
   Setup.continuum_init curve_fit continuum_spec g_init = Setup.RaisesValueError) /\
  (continuum_spec <> [] ->
   exists a loc,
     np_mean (map snd continuum_spec) = Some a /\
     In loc (map fst continuum_spec) /\
     (forall w, In w (map fst continuum_spec) -> loc <= w) /\
     Setup.continuum_init curve_fit continuum_spec g_init
     = match curve_fit (map fst continuum_spec) (map snd continuum_spec)
                       [a; loc; g_init] with
       | Some params => Setup.Returns params
       | None => Setup.RaisesRuntimeError
       end).
Proof.
  split; [intros ->; reflexivity|].
  intros N. destruct continuum_spec as [|[w0 f0] rest]; [contradiction|].
  unfold Setup.continuum_init. cbn [map fst snd Setup.np_min np_mean].
  destruct (np_min_from_spec (map fst rest) w0) as (O & Le & All).
  eexists _, _. split; [reflexivity|]. split; [|split; [|reflexivity]].
  - destruct O as [->|O]; [left; reflexivity|right; exact O].
  - intros w [<-|I]; auto.
Qed.

(** X19: the start of the continuum fit.  On an empty continuum
    [continuum_init] raises the ValueError of [np.min]; otherwise it hands
    [curve_fit] the two columns and the guess made of the mean flux, the
    smallest wavelength and [g_init], returns what the fit returns and lets
    the error of a failed fit through. *)
Theorem continuum_init_guess
    (curve_fit : list Q -> list Q -> list Q -> option (list Q))
    (continuum_spec : list (Q * Q)) (g_init : Q) :
  (continuum_spec = [] ->
   Setup.continuum_init curve_fit continuum_spec g_init = Setup.RaisesValueError) /\
  (continuum_spec <> [] ->
   exists a loc,
     np_mean (map snd continuum_spec) = Some a /\
     In loc (map fst continuum_spec) /\
     (forall w, In w (map fst continuum_spec) -> loc <= w) /\
     Setup.continuum_init curve_fit continuum_spec g_init
     = match curve_fit (map fst continuum_spec) (map snd continuum_spec)
                       [a; loc; g_init] with
       | Some params => Setup.Returns params
       | None => Setup.RaisesRuntimeError
       end).
Proof. apply continuum_init_guess_aux. Qed.

Lemma continuum_init_guess_witness :
  exists a loc,
    np_mean (map snd Examples.flat_continuum) = Some a /\
    In loc (map fst Examples.flat_continuum) /\
    (forall w, In w (map fst Examples.flat_continuum) -> loc <= w) /\
    Setup.continuum_init ReferenceFit.curve_fit Examples.flat_continuum 1
    = match ReferenceFit.curve_fit (map fst Examples.flat_continuum)
                                   (map snd Examples.flat_continuum) [a; loc; 1] with
      | Some params => Setup.Returns params
      | None => Setup.RaisesRuntimeError
      end.
Proof.
  apply (proj2 (continuum_init_guess ReferenceFit.curve_fit
                  Examples.flat_continuum 1)).
  discriminate.
Defined.

Lemma lookup_in {V} (d : list (string * V)) k v :
  In (k, v) d -> exists v', lookup k d = Some v' /\ In (k, v') d.
Proof.
  induction d as [|[k0 v0] d IH]; intros I; [destruct I|]. simpl.
  destruct (String.eqb k0 k) eqn:E.
  - apply String.eqb_eq in E. subst k0. exists v0. split; [reflexivity|].
    left. reflexivity.
  - destruct I as [I|I]; [injection I as -> _; rewrite String.eqb_refl in E;
                          discriminate|].
    destruct (IH I) as (v' & L & I'). exists v'. split; [exact L|right; exact I'].
Qed.

Lemma restricted_in_range spectrum wavelength_range r :
  In r (restricted spectrum wavelength_range) ->
  fst wavelength_range <= Setup.col0 r /\ Setup.col0 r <= snd wavelength_range.
Proof.
  unfold restricted. generalize (fst wavelength_range), (snd wavelength_range).
  intros lo hi. induction spectrum as [|a s IH]; intros H; [destruct H|].
  simpl in H. destruct (Qle_bool lo (Setup.col0 a) && Qle_bool (Setup.col0 a) hi) eqn:E.
  - destruct H as [<-|H]; [|apply IH, H].
    apply andb_true_iff in E as [E1 E2]. split; apply Qle_bool_iff; assumption.
  - apply IH, H.
Qed.

Lemma np_mean_some l : l <> [] -> exists a, np_mean l = Some a.
Proof. destruct l; [contradiction|]. intros _. eexists. reflexivity. Qed.

Lemma filter_lines_len np_sqrt np_log lines spec range thr ww :
  (List.length (filter_and_prepare_linelist np_sqrt np_log lines spec range thr ww)
   <= List.length lines)%nat.
Proof.
  unfold filter_and_prepare_linelist. rewrite filter_loop_spec. simpl.
  rewrite length_map. apply filter_length_le.
Qed.

Section SetupFacts.

Variable find_peaks : list Q -> Q -> list nat.
Variable peak_widths : list Q -> nat -> Q -> Q * Q * Q * Q.
Variable np_interp : Q -> list Q -> list Q -> Q.
Variable np_sqrt : Q -> Q.
Variable np_log : Q -> Q.
Variable np_random_normal : nat -> Q -> Q -> Q.
Variable curve_fit : list Q -> list Q -> list Q -> option (list Q).

Local Abbreviation init_setup :=
  (Setup.init_setup find_peaks peak_widths np_interp np_sqrt np_log
                    np_random_normal curve_fit).

(** What the detector returns, with the matched lines behind the results. *)
Lemma analyze_found (x y : list Q) (lines_dict : Catalog) (window : Q) :
  indexes_its_input find_peaks ->
  List.length x = List.length y ->
  has_wavelengths lines_dict = true ->
  exists found synthetic,
    analyze_emission_lines find_peaks peak_widths np_interp np_sqrt
      np_random_normal x y lines_dict window
    = Ok (map (result_of peak_widths np_interp x y) found,
          np_std np_sqrt (map snd (combine x synthetic)),
          combine x synthetic) /\
    List.length synthetic = List.length y /\
    (List.length found <= List.length lines_dict)%nat /\
    forall m, In m found ->
              exists item, In item lines_dict /\ detected x y window item m.
Proof.
  intros Fp L W.
  destruct (match_loop_found find_peaks Fp x y L window lines_dict [] W)
    as (flags & found & E & _ & _ & Le & Dt).
  unfold analyze_emission_lines, analyze_state. rewrite E. cbn [rbind app].
  set (st := mask_loop peak_widths np_interp np_sqrt np_random_normal x y found
               (initial_state y)).
  destruct (mask_loop_exact peak_widths np_interp np_sqrt np_random_normal
              x y found _ (initial_state_exact x y L)) as (_ & Ls & _).
  fold st in Ls.
  pose proof (mask_loop_results peak_widths np_interp np_sqrt np_random_normal
                x y found (initial_state y)) as R.
  fold st in R. cbn [initial_state results app] in R.
  exists found, (synthetic_flux st). rewrite R. auto.
Qed.

(** On no sample at all the first loop of the detector reads the wavelength
    list of each entry and nothing else. *)
Lemma match_loop_no_sample (window : Q) : forall items matched,
  match_loop find_peaks [] [] window items matched
  = if has_wavelengths items then Ok matched else Raise IndexError.
Proof.
  induction items as [|[name params] items IH]; intros matched; [reflexivity|].
  cbn [match_loop]. unfold match_entry. cbn [has_wavelengths forallb snd].
  destruct (wavelength params) as [|[rest|] others]; [reflexivity| |].
  - change (getitem (Some rest :: others) 0) with (Ok (Some rest)).
    cbn [rbind between map select andb]. apply IH.
  - change (getitem (None :: others) 0) with (@Ok (option Q) None).
    cbn [rbind andb]. apply IH.
Qed.

(** X20: the set-up as a whole.  With a catalog of line models whose entries
    have a wavelength list and at least one sample in the wavelength range,
    the detector returns its results, a noise estimate and a continuum over
    the wavelengths of the range, and [init_setup] ends as the fit of the
    continuum does.  The fit is started from the mean of the continuum flux,
    the smallest wavelength and [gamma_init]; when it fails, its error passes
    through; when it returns parameters, [init_setup] returns the table of six
    columns with one row per line that the filter keeps of the detector's
    results, under the detector's noise estimate and a side window of 10,
    then the continuum row with those parameters.  Every kept line lies in
    the wavelength range, carries the bound hints and is a line of the
    catalog; there are no more of them than catalog entries. *)
Theorem init_setup_returns (spectrum : list (Q * Q * Q)) (emlines_dict : Catalog)
    (wavelength_range : Q * Q) (gamma_init : Q) :
  indexes_its_input find_peaks ->
  has_wavelengths emlines_dict = true ->
  line_models_only emlines_dict = true ->
  restricted spectrum wavelength_range <> [] ->
  let x := map Setup.col0 (restricted spectrum wavelength_range) in
  let y := map Setup.col1 (restricted spectrum wavelength_range) in
  exists lines_init noise continuum0 a loc,
    analyze_emission_lines find_peaks peak_widths np_interp np_sqrt
      np_random_normal x y emlines_dict 20
    = Ok (lines_init, Some noise, continuum0) /\
    map fst continuum0 = x /\
    np_mean (map snd continuum0) = Some a /\
    In loc x /\ (forall w, In w x -> loc <= w) /\
    let kept :=
      filter_and_prepare_linelist np_sqrt np_log lines_init continuum0
                                  wavelength_range noise 10 in
    init_setup spectrum emlines_dict wavelength_range gamma_init
    = match curve_fit x (map snd continuum0) [a; loc; gamma_init] with
      | Some continuum_pars =>
          Setup.Returns
            (mkDataFrame initial_columns
               (map (built_row emlines_dict) kept
                  ++ continuum_rows (Some continuum_pars)))
      | None => Setup.RaisesRuntimeError
      end /\
    (List.length kept <= List.length emlines_dict)%nat /\
    forall f, In f kept ->
      fst wavelength_range <= fl_wavelength f /\
      fl_wavelength f <= snd wavelength_range /\
      hinted f /\
      exists e, lookup (name f) emlines_dict = Some e /\
                line_model (components e) = true.
Proof.
  intros Fp W Lm Ne x y. unfold Setup.init_setup.
  fold (restricted spectrum wavelength_range).
  set (sp := restricted spectrum wavelength_range) in *.
  fold x. fold y.
  assert (L : List.length x = List.length y)
    by (unfold x, y; rewrite !length_map; reflexivity).
  destruct (analyze_found x y emlines_dict 20 Fp L W)
    as (found & syn & E & Ls & Lf & Dt).
  rewrite E.
  assert (Lc : List.length x = List.length syn) by congruence.
  assert (Nx : x <> []) by (unfold x; destruct sp; [contradiction|discriminate]).
  assert (Nc : combine x syn <> []).
  { destruct x as [|x0 x']; [contradiction|].
    destruct syn; [discriminate|discriminate]. }
  destruct (proj2 (continuum_init_guess_aux curve_fit (combine x syn) gamma_init) Nc)
    as (a & loc & Em & Il & Al & Ec).
  rewrite Ec. rewrite (combine_fst x syn Lc) in *.
  unfold np_std. rewrite Em.
  set (snr := np_sqrt _).
  set (kept := filter_and_prepare_linelist np_sqrt np_log
                 (map (result_of peak_widths np_interp x y) found)
                 (combine x syn) wavelength_range snr 10).
  assert (K : forall f, In f kept ->
                fst wavelength_range <= fl_wavelength f /\
                fl_wavelength f <= snd wavelength_range /\
                hinted f /\
                exists e, lookup (name f) emlines_dict = Some e /\
                          line_model (components e) = true).
  { intros f I.
    destruct (filter_kept_hinted np_sqrt np_log _ _ _ _ _ f I)
      as (l & Il' & _ & _ & Nm & _ & _ & _ & _ & Hi & Lo & Up).
    split; [exact Lo|]. split; [exact Up|]. split; [exact Hi|].
    apply in_map_iff in Il' as (m & <- & Im).
    destruct (Dt m Im) as ([k v] & Ii & Dn & _).
    destruct (lookup_in emlines_dict k v Ii) as (v' & Lk & Iv).
    exists v'. rewrite Nm. unfold result_of. cbn [res_line]. rewrite Dn.
    split; [exact Lk|].
    unfold line_models_only in Lm. rewrite forallb_forall in Lm.
    apply (Lm (k, v') Iv). }
  assert (C : catalog_covers emlines_dict kept = true).
  { unfold catalog_covers. apply forallb_forall. intros f I.
    destruct (K f I) as (_ & _ & _ & e & Lk & M). rewrite Lk. exact M. }
  exists (map (result_of peak_widths np_interp x y) found), snr, (combine x syn),
         a, loc.
  split; [reflexivity|]. split; [apply combine_fst, Lc|].
  split; [exact Em|]. split; [exact Il|]. split; [exact Al|].
  cbv zeta. fold kept. split; [|split; [|exact K]].
  - destruct (curve_fit x (map snd (combine x syn)) [a; loc; gamma_init])
      as [pars|]; [|reflexivity].
    unfold Setup.filter_with. fold kept. unfold initial_dataframe.
    destruct (line_loop_built emlines_dict kept (no_locals, []) C) as (lc & El).
    rewrite El. reflexivity.
  - unfold kept.
    pose proof (filter_lines_len np_sqrt np_log
                  (map (result_of peak_widths np_interp x y) found)
                  (combine x syn) wavelength_range snr 10) as Lk.
    rewrite length_map in Lk. lia.
Qed.

(** X21: with no sample in the wavelength range [init_setup] returns no
    table.  It raises the ValueError of the continuum start, the minimum of an
    empty array, when every catalog entry has a wavelength list that is not
    empty, and the IndexError of [params['wavelength'][0]] otherwise. *)
Theorem init_setup_empty_range (spectrum : list (Q * Q * Q))
    (emlines_dict : Catalog) (wavelength_range : Q * Q) (gamma_init : Q) :
  restricted spectrum wavelength_range = [] ->
  init_setup spectrum emlines_dict wavelength_range gamma_init
  = if has_wavelengths emlines_dict
    then Setup.RaisesValueError
    else Setup.Raises IndexError.
Proof.
  intros E. unfold Setup.init_setup.
  fold (restricted spectrum wavelength_range). rewrite E. cbn [map].
  unfold analyze_emission_lines, analyze_state.
  rewrite (match_loop_no_sample 20 emlines_dict []).
  destruct (has_wavelengths emlines_dict); reflexivity.
Qed.

End SetupFacts.

Lemma init_setup_returns_witness :
  exists lines_init noise continuum0 a loc,
    analyze_emission_lines Reference.find_peaks Reference.peak_widths
      Reference.interp Reference.sqrt Reference.random_normal
      (map Setup.col0 (restricted ReferenceFit.spectrum (5000, 5010)))
      (map Setup.col1 (restricted ReferenceFit.spectrum (5000, 5010)))
      Examples.oiii_catalog 20
    = Ok (lines_init, Some noise, continuum0) /\
    Setup.init_setup Reference.find_peaks Reference.peak_widths Reference.interp
      Reference.sqrt Reference.log Reference.random_normal
      ReferenceFit.curve_fit ReferenceFit.spectrum Examples.oiii_catalog
      (5000, 5010) 1
    = match ReferenceFit.curve_fit
              (map Setup.col0 (restricted ReferenceFit.spectrum (5000, 5010)))
              (map snd continuum0) [a; loc; 1] with
      | Some continuum_pars =>
          Setup.Returns
            (mkDataFrame initial_columns
               (map (built_row Examples.oiii_catalog)
                    (filter_and_prepare_linelist Reference.sqrt Reference.log
                       lines_init continuum0 (5000, 5010) noise 10)
                  ++ continuum_rows (Some continuum_pars)))
      | None => Setup.RaisesRuntimeError
      end.
Proof.
  destruct (init_setup_returns Reference.find_peaks Reference.peak_widths
              Reference.interp Reference.sqrt Reference.log
              Reference.random_normal ReferenceFit.curve_fit
              ReferenceFit.spectrum Examples.oiii_catalog (5000, 5010) 1
              reference_find_peaks_indexes)
    as (ls & noise & ct & a & loc & E & _ & _ & _ & _ & R & _).
  - reflexivity.
  - reflexivity.
  - vm_compute. discriminate.
  - exists ls, noise, ct, a, loc. split; [exact E|exact R].
Defined.

(** On the example the set-up returns two rows: the line at 5008 and the
    continuum. *)
Example init_setup_on_the_example :
  match Setup.init_setup Reference.find_peaks Reference.peak_widths
          Reference.interp Reference.sqrt Reference.log Reference.random_normal
          ReferenceFit.curve_fit ReferenceFit.spectrum Examples.oiii_catalog
          (5000, 5010) 1 with
  | Setup.Returns df => map Line_Name (df_rows df) = ["OIII"; "Continuum"]
  | _ => False
  end.
Proof. vm_compute. reflexivity. Qed.

Lemma init_setup_empty_range_witness :
  Setup.init_setup Reference.find_peaks Reference.peak_widths Reference.interp
    Reference.sqrt Reference.log Reference.random_normal ReferenceFit.curve_fit
    ReferenceFit.spectrum Examples.oiii_catalog (6000, 6100) 1
  = Setup.RaisesValueError /\
  Setup.init_setup Reference.find_peaks Reference.peak_widths Reference.interp
    Reference.sqrt Reference.log Reference.random_normal ReferenceFit.curve_fit
    ReferenceFit.spectrum [("OIII", mkEntry [] "Gaussian")] (6000, 6100) 1
  = Setup.Raises IndexError.
Proof.
  split.
  - apply (init_setup_empty_range Reference.find_peaks Reference.peak_widths
             Reference.interp Reference.sqrt Reference.log Reference.random_normal
             ReferenceFit.curve_fit ReferenceFit.spectrum Examples.oiii_catalog
             (6000, 6100) 1).
    reflexivity.
  - apply (init_setup_empty_range Reference.find_peaks Reference.peak_widths
             Reference.interp Reference.sqrt Reference.log Reference.random_normal
             ReferenceFit.curve_fit ReferenceFit.spectrum
             [("OIII", mkEntry [] "Gaussian")] (6000, 6100) 1).
    reflexivity.
Defined.
